(** * gui_verification: the comparison and analysis core

    A shallow embedding of the analysis functions of the [gui_verification]
    package:

    - [responsive.py]    : [ResponsiveVerifier._elements_overlap]
    - [layout.py]        : [AlignmentChecker._check_alignment] and the
                           horizontal, vertical and grid checks it dispatches to
    - [accessibility.py] : [ContrastChecker._parse_color],
                           [_calculate_contrast_ratio], [_check_element_contrast]
    - [visual.py]        : [ScreenshotComparator._compare_images]

    and of the code around them: the position, size and overlap checks, the
    colour helpers of [utils.py], the results, summaries and suites of
    [core.py], the report summary of [config.py], and the [verify] methods
    that collect the results of single checks.

    Conventions.  Python [int] is [Z].  Python [str] is [string], read as a
    sequence of code points below 256.  Python dictionaries whose key order is
    part of the report are association lists in insertion order.  Python
    [float] is idealised: rational arithmetic ([Q]) where the code only adds,
    subtracts and divides, real arithmetic ([R]) where it raises to the power
    2.4.  NumPy [uint8] arrays are lists of [Z] with the wrap-around modulo
    256 written out. *)

From Stdlib Require Import ZArith QArith Reals Bool String Ascii List.
From Stdlib Require Import DecimalString Lia Lra Permutation.
From Stdlib Require Lqa HexadecimalString.
Import ListNotations.

Open Scope string_scope.
Open Scope Z_scope.

(** ** Python run-time behaviour shared by the modules *)

(** Exceptions the modelled code can raise. *)
Inductive exn : Type :=
| ValueError (msg : string)
| ZeroDivisionError
| NoSuchElementException (selector : string).

(** A call either returns a value or raises. *)
Inductive outcome (A : Type) : Type :=
| Return (a : A)
| Raise (e : exn).
Arguments Return {A} a.
Arguments Raise {A} e.

Definition bind {A B : Type} (m : outcome A) (k : A -> outcome B) : outcome B :=
  match m with
  | Return a => k a
  | Raise e => Raise e
  end.

Notation "v <- m ;; k" := (bind m (fun v => k))
  (at level 61, m at next level, right associativity).

(** [str(n)] and [f'{n}'] for an [int]. *)
Definition str_of_Z (n : Z) : string := NilZero.string_of_int (Z.to_int n).

(** [max(l)] and [min(l)] on a list of [int]: [ValueError] on the empty list. *)
Definition py_max (l : list Z) : outcome Z :=
  match l with
  | [] => Raise (ValueError "max() arg is an empty sequence")
  | a :: t => Return (fold_left Z.max t a)
  end.

Definition py_min (l : list Z) : outcome Z :=
  match l with
  | [] => Raise (ValueError "min() arg is an empty sequence")
  | a :: t => Return (fold_left Z.min t a)
  end.

(** [len(set(l))] *)
Definition len_set (l : list Z) : nat := length (nodup Z.eq_dec l).

(** [range(0, stop, step)] for [0 <= stop] *)
Definition py_range_step (stop step : Z) : outcome (list Z) :=
  if step =? 0 then Raise (ValueError "range() arg 3 must not be zero")
  else if 0 <? step
       then Return (map (fun k => Z.of_nat k * step)
                        (seq 0 (Z.to_nat ((stop + step - 1) / step))))
       else Return [].

(** [range(n)] *)
Definition py_range (n : Z) : list Z := map Z.of_nat (seq 0 (Z.to_nat n)).

(** [l[lo:hi]] for [0 <= lo <= hi]; the slice is cut at the end of [l]. *)
Definition py_slice {A : Type} (l : list A) (lo hi : Z) : list A :=
  firstn (Z.to_nat (hi - lo)) (skipn (Z.to_nat lo) l).

(** [enumerate(l)] *)
Definition enumerate {A : Type} (l : list A) : list (Z * A) :=
  combine (map Z.of_nat (seq 0 (length l))) l.

(** ** Bounding boxes ([_get_element_bounds]) *)

Record Bounds : Type := mkBounds {
  x : Z;
  y : Z;
  width : Z;
  height : Z
}.

(** ** responsive.py *)

Module Responsive.

(** [ResponsiveVerifier._elements_overlap] *)
Definition _elements_overlap (bounds1 bounds2 : Bounds) : bool :=
  negb ((x bounds1 + width bounds1 <=? x bounds2)
        || (x bounds2 + width bounds2 <=? x bounds1)
        || (y bounds1 + height bounds1 <=? y bounds2)
        || (y bounds2 + height bounds2 <=? y bounds1)).

(** The four separations named by the specification: [a] lies entirely on
    one side of [b] when its far edge does not pass [b]'s near edge. *)
Definition fully_left_of (a b : Bounds) : Prop := x a + width a <= x b.
Definition fully_right_of (a b : Bounds) : Prop := x b + width b <= x a.
Definition fully_above (a b : Bounds) : Prop := y a + height a <= y b.
Definition fully_below (a b : Bounds) : Prop := y b + height b <= y a.

(** *** The overlap check of a viewport test *)

Record ElementSpec : Type := mkElementSpec {
  selector : string;
  by_type : option string
}.

(** The dictionary returned by [_check_element_overlaps]; the key
    ['overlaps'] is present only when a pair overlaps. *)
Record OverlapReport : Type := mkOverlapReport {
  ov_type : string;
  ov_passed : bool;
  ov_message : string;
  ov_overlaps : option (list (string * string))
}.

(** The nested loops over [element_bounds]: every pair [i < j], in order. *)
Fixpoint overlapping_pairs (element_bounds : list (string * Bounds))
    : list (string * string) :=
  match element_bounds with
  | [] => []
  | (selector1, bounds1) :: rest =>
      (map (fun e => (selector1, fst e))
           (filter (fun e => _elements_overlap bounds1 (snd e)) rest)
       ++ overlapping_pairs rest)%list
  end.

Section ViewportTester.

(** [_get_element_bounds(driver.find_element(by, selector))] *)
Variable find_bounds : string -> string -> outcome Bounds.

(** The first loop of [_check_element_overlaps]: an element that cannot be
    found is skipped. *)
Fixpoint collect_bounds (elements_to_check : list ElementSpec)
    : list (string * Bounds) :=
  match elements_to_check with
  | [] => []
  | element_spec :: rest =>
      let by_ := match by_type element_spec with
                 | Some b => b
                 | None => "css selector"
                 end in
      match find_bounds by_ (selector element_spec) with
      | Return bounds => (selector element_spec, bounds) :: collect_bounds rest
      | Raise _ => collect_bounds rest
      end
  end.

(** [ViewportTester._check_element_overlaps] *)
Definition _check_element_overlaps (elements_to_check : list ElementSpec)
    : OverlapReport :=
  let element_bounds := collect_bounds elements_to_check in
  let overlaps := overlapping_pairs element_bounds in
  match overlaps with
  | _ :: _ =>
      mkOverlapReport "element_overlaps" false
        ("Found " ++ str_of_Z (Z.of_nat (length overlaps))
                  ++ " overlapping element pairs")
        (Some overlaps)
  | [] =>
      mkOverlapReport "element_overlaps" true
        "No overlapping elements found" None
  end.

End ViewportTester.

End Responsive.

(** ** layout.py *)

Module Layout.

(** One entry of [result['checks']].  [ck_row] and [ck_column] are the keys
    ['row'] and ['column'], [None] while the key is absent. *)
Record Check : Type := mkCheck {
  ck_type : string;
  ck_passed : bool;
  ck_message : string;
  ck_row : option Z;
  ck_column : option Z
}.

(** An element specification: [{'selector': ..., 'by': ...}]. *)
Record ElementSpec : Type := mkElementSpec {
  selector : string;
  by_type : option string
}.

(** The [result] dictionary; a key that is not set is [None]. *)
Record Result : Type := mkResult {
  elements : option (list ElementSpec);
  alignment_type : option string;
  passed : option bool;
  checks : list Check
}.

(** One entry of [alignment_checks]. *)
Record AlignmentSpec : Type := mkAlignmentSpec {
  spec_elements : list ElementSpec;
  spec_type : option string;
  spec_columns : option Z;
  spec_rows : option Z
}.

(** [result['checks'].append(c)] *)
Definition append_check (result : Result) (c : Check) : Result :=
  mkResult (elements result) (alignment_type result) (passed result)
           (checks result ++ [c]).

(** [result['passed'] = b] *)
Definition set_passed (result : Result) (b : bool) : Result :=
  mkResult (elements result) (alignment_type result) (Some b) (checks result).

(** [{'checks': []}] *)
Definition fresh_result : Result := mkResult None None None [].

Definition tag_row (i : Z) (c : Check) : Check :=
  mkCheck (ck_type c) (ck_passed c) (ck_message c) (Some i) (ck_column c).

Definition tag_column (j : Z) (c : Check) : Check :=
  mkCheck (ck_type c) (ck_passed c) (ck_message c) (ck_row c) (Some j).

Definition By_CSS_SELECTOR : string := "css selector".

Section AlignmentChecker.

(** [self.tolerance] *)
Variable tolerance : Z.

(** [_get_element_bounds(driver.find_element(by, selector))] *)
Variable find_bounds : string -> string -> outcome Bounds.

(** The block the source repeats for the top, left and centre positions:
    all positions equal, else the spread against the tolerance. *)
Definition alignment_block (ty all_equal label : string)
    (positions : list Z) (result : Result) : outcome Result :=
  if (len_set positions =? 1)%nat then
    Return (append_check result (mkCheck ty true all_equal None None))
  else
    mx <- py_max positions ;;
    mn <- py_min positions ;;
    let max_diff := mx - mn in
    if max_diff <=? tolerance then
      Return (append_check result
        (mkCheck ty true
           (label ++ " alignment within tolerance (" ++ str_of_Z max_diff
                  ++ "px)") None None))
    else
      Return (set_passed
        (append_check result
          (mkCheck ty false
             (label ++ " alignment exceeds tolerance (" ++ str_of_Z max_diff
                    ++ "px > " ++ str_of_Z tolerance ++ "px)") None None))
        false).

Definition _check_horizontal_alignment (bounds_list : list Bounds)
    (elems : list ElementSpec) (result : Result) : outcome Result :=
  let top_positions := map y bounds_list in
  result <- alignment_block "top_alignment" "All elements aligned at top"
              "Top" top_positions result ;;
  let center_positions := map (fun b => y b + height b / 2) bounds_list in
  alignment_block "center_alignment" "All elements center-aligned"
    "Center" center_positions result.

Definition _check_vertical_alignment (bounds_list : list Bounds)
    (elems : list ElementSpec) (result : Result) : outcome Result :=
  let left_positions := map x bounds_list in
  result <- alignment_block "left_alignment" "All elements left-aligned"
              "Left" left_positions result ;;
  let center_positions := map (fun b => x b + width b / 2) bounds_list in
  alignment_block "center_alignment" "All elements center-aligned"
    "Center" center_positions result.

(** The inner [for check_result in sub['checks']] loop of the grid check:
    tag, append, and lower [result['passed']] on a failed check. *)
Definition absorb (tag : Check -> Check) (sub : Result) (result : Result)
    : Result :=
  fold_left
    (fun res check_result =>
       let check_result := tag check_result in
       let res := append_check res check_result in
       if negb (ck_passed check_result) then set_passed res false else res)
    (checks sub) result.

Fixpoint row_loop (rows : list (Z * list Bounds)) (result : Result)
    : outcome Result :=
  match rows with
  | [] => Return result
  | (i, row) :: rest =>
      if (1 <? length row)%nat then
        row_result <- _check_horizontal_alignment row [] fresh_result ;;
        row_loop rest (absorb (tag_row i) row_result result)
      else row_loop rest result
  end.

(** [[row[col] for row in rows if col < len(row)]] *)
Definition column_of (rows : list (list Bounds)) (col : Z) : list Bounds :=
  flat_map (fun row => match nth_error row (Z.to_nat col) with
                       | Some b => [b]
                       | None => []
                       end) rows.

Fixpoint column_loop (rows : list (list Bounds)) (cols : list Z)
    (result : Result) : outcome Result :=
  match cols with
  | [] => Return result
  | col :: rest =>
      let column_elements := column_of rows col in
      if (1 <? length column_elements)%nat then
        col_result <- _check_vertical_alignment column_elements []
                        fresh_result ;;
        column_loop rows rest (absorb (tag_column col) col_result result)
      else column_loop rows rest result
  end.

Definition _check_grid_alignment (bounds_list : list Bounds)
    (elems : list ElementSpec) (check : AlignmentSpec) (result : Result)
    : outcome Result :=
  let expected_columns :=
    match spec_columns check with Some c => c | None => 2 end in
  (* the default of [check.get('rows', ...)] is evaluated before the call *)
  default_rows <-
    (if expected_columns =? 0 then Raise ZeroDivisionError
     else Return (Z.of_nat (length elems) / expected_columns)) ;;
  let expected_rows :=
    match spec_rows check with Some r => r | None => default_rows end in
  starts <- py_range_step (Z.of_nat (length bounds_list)) expected_columns ;;
  let rows :=
    map (fun i => py_slice bounds_list i (i + expected_columns)) starts in
  result <- row_loop (enumerate rows) result ;;
  column_loop rows (py_range expected_columns) result.

Fixpoint get_bounds (elems : list ElementSpec) : outcome (list Bounds) :=
  match elems with
  | [] => Return []
  | element_spec :: rest =>
      let by_ := match by_type element_spec with
                 | Some b => b
                 | None => By_CSS_SELECTOR
                 end in
      bounds <- find_bounds by_ (selector element_spec) ;;
      others <- get_bounds rest ;;
      Return (bounds :: others)
  end.

Definition insufficient_elements : Check :=
  mkCheck "insufficient_elements" false
          "Need at least 2 elements for alignment check" None None.

Definition _check_alignment (check : AlignmentSpec) : outcome Result :=
  let elems := spec_elements check in
  let ty := match spec_type check with Some t => t | None => "horizontal" end in
  let result := mkResult (Some elems) (Some ty) (Some true) [] in
  if (length elems <? 2)%nat then
    Return (set_passed (append_check result insufficient_elements) false)
  else
    element_bounds <- get_bounds elems ;;
    if (ty =? "horizontal")%string then
      _check_horizontal_alignment element_bounds elems result
    else if (ty =? "vertical")%string then
      _check_vertical_alignment element_bounds elems result
    else if (ty =? "grid")%string then
      _check_grid_alignment element_bounds elems check result
    else Return result.

End AlignmentChecker.

(** *** What a grid check is expected to report

    The outcome of one alignment block: all positions equal, or their spread
    (largest minus smallest) within the tolerance. *)
Definition within_tolerance (tolerance : Z) (positions : list Z) : bool :=
  (len_set positions =? 1)%nat ||
  match positions with
  | [] => false
  | a :: t => fold_left Z.max t a - fold_left Z.min t a <=? tolerance
  end.

(** A check without its message: type, outcome, row tag, column tag. *)
Definition summary (c : Check) : string * bool * option Z * option Z :=
  (ck_type c, ck_passed c, ck_row c, ck_column c).

(** The rows of the grid: consecutive groups of [columns] boxes, the last
    one possibly shorter. *)
Definition grid_rows (bounds_list : list Bounds) (columns : Z)
    : list (list Bounds) :=
  map (fun k => firstn (Z.to_nat columns)
                  (skipn (k * Z.to_nat columns) bounds_list))
      (seq 0 (Z.to_nat ((Z.of_nat (length bounds_list) + columns - 1)
                        / columns))).

(** The two reports of row [i], none for a row of fewer than two boxes. *)
Definition row_summary (tolerance : Z) (entry : Z * list Bounds)
    : list (string * bool * option Z * option Z) :=
  let (i, row) := entry in
  if (1 <? length row)%nat then
    [ ("top_alignment", within_tolerance tolerance (map y row), Some i, None);
      ("center_alignment",
       within_tolerance tolerance (map (fun b => y b + height b / 2) row),
       Some i, None) ]
  else [].

(** The two reports of column [j], none for a column of fewer than two
    boxes. *)
Definition column_summary (tolerance : Z) (rows : list (list Bounds)) (j : Z)
    : list (string * bool * option Z * option Z) :=
  let column := column_of rows j in
  if (1 <? length column)%nat then
    [ ("left_alignment", within_tolerance tolerance (map x column),
       None, Some j);
      ("center_alignment",
       within_tolerance tolerance (map (fun b => x b + width b / 2) column),
       None, Some j) ]
  else [].

(** [result['passed']] is true exactly while every appended check passed. *)
Definition passed_tracks_checks (r : Result) : Prop :=
  passed r = Some (forallb ck_passed (checks r)).

(** An optional expectation is met up to the tolerance; an optional minimum
    is reached.  An absent key asks for nothing. *)
Definition meets_expectation (tol : Z) (expected : option Z) (actual : Z)
    : Prop :=
  forall e, expected = Some e -> Z.abs (actual - e) <= tol.

Definition meets_minimum (minimum : option Z) (actual : Z) : Prop :=
  forall m, minimum = Some m -> m <= actual.

Definition requested {A : Type} (key : option A) : nat :=
  match key with Some _ => 1 | None => 0 end.

(** The boxes of [l] agree on the coordinate [f] up to [tolerance]. *)
Definition aligned_within (tolerance : Z) (f : Bounds -> Z) (l : list Bounds)
    : Prop :=
  forall a b, In a l -> In b l -> Z.abs (f a - f b) <= tolerance.

(** A box moved by [(dx, dy)]. *)
Definition move (dx dy : Z) (b : Bounds) : Bounds :=
  mkBounds (x b + dx) (y b + dy) (width b) (height b).

(** Boxes of 80 by 40 pixels for closed examples. *)
Definition box (left top : Z) : Bounds := mkBounds left top 80 40.

(** *** PositionChecker and SizeChecker *)

(** A numeric check of [_check_position] or [_check_size]: the keys
    ['difference'] and ['tolerance'] are absent from the minimum-size
    checks. *)
Record Measure : Type := mkMeasure {
  m_type : string;
  m_expected : Z;
  m_actual : Z;
  m_difference : option Z;
  m_tolerance : option Z;
  m_passed : bool
}.

(** [check['relative_to']]; a missing ['to_right_of'] or ['below'] reads as
    [False]. *)
Record RelativeSpec : Type := mkRelativeSpec {
  rel_selector : string;
  rel_by : option string;
  to_right_of : bool;
  below : bool
}.

(** One entry of [position_checks]; an optional key that is absent is
    [None]. *)
Record PositionSpec : Type := mkPositionSpec {
  pos_selector : string;
  pos_by : option string;
  expected_x : option Z;
  expected_y : option Z;
  pos_tolerance : option Z;
  relative_to : option RelativeSpec
}.

(** The checks of a position result: numeric ones and relative ones. *)
Inductive PositionEntry : Type :=
| Measured (m : Measure)
| Related (c : Check).

Definition entry_passed (e : PositionEntry) : bool :=
  match e with
  | Measured m => m_passed m
  | Related c => ck_passed c
  end.

Record PositionResult : Type := mkPositionResult {
  pr_element : string;
  pr_bounds : Bounds;
  pr_passed : bool;
  pr_checks : list PositionEntry
}.

(** One entry of [size_checks]. *)
Record SizeSpec : Type := mkSizeSpec {
  size_selector : string;
  size_by : option string;
  expected_width : option Z;
  expected_height : option Z;
  size_tolerance : option Z;
  min_width : option Z;
  min_height : option Z
}.

Record SizeResult : Type := mkSizeResult {
  sr_element : string;
  sr_bounds : Bounds;
  sr_passed : bool;
  sr_checks : list Measure
}.

Section PositionAndSize.

(** [self.tolerance] of the checker and the browser. *)
Variable tolerance : Z.
Variable find_bounds : string -> string -> outcome Bounds.

(** The block repeated for [expected_x], [expected_y], [expected_width] and
    [expected_height]. *)
Definition expect_block (ty : string) (expected : option Z) (actual : Z)
    (spec_tolerance : option Z) (state : bool * list Measure)
    : bool * list Measure :=
  match expected with
  | None => state
  | Some expected =>
      let tol := match spec_tolerance with Some t => t | None => tolerance end in
      if tol <? Z.abs (actual - expected) then
        (false,
         snd state ++ [mkMeasure ty expected actual (Some (actual - expected))
                         (Some tol) false])%list
      else
        (fst state,
         snd state ++ [mkMeasure ty expected actual (Some (actual - expected))
                         (Some tol) true])%list
  end.

(** The block repeated for [min_width] and [min_height]. *)
Definition minimum_block (ty : string) (minimum : option Z) (actual : Z)
    (state : bool * list Measure) : bool * list Measure :=
  match minimum with
  | None => state
  | Some minimum =>
      if actual <? minimum then
        (false, snd state ++ [mkMeasure ty minimum actual None None false])%list
      else
        (fst state,
         snd state ++ [mkMeasure ty minimum actual None None true])%list
  end.

(** [PositionChecker._check_relative_position]: [(passed, checks)]. *)
Definition _check_relative_position (element_bounds : Bounds)
    (relative_spec : RelativeSpec) : outcome (bool * list Check) :=
  let relative_selector := rel_selector relative_spec in
  let relative_by := match rel_by relative_spec with
                     | Some b => b
                     | None => By_CSS_SELECTOR
                     end in
  relative_bounds <- find_bounds relative_by relative_selector ;;
  let result := (true, @nil Check) in
  let result :=
    if to_right_of relative_spec then
      if x element_bounds <=? x relative_bounds + width relative_bounds then
        (false,
         snd result ++ [mkCheck "to_right_of" false
                          ("Element not to the right of " ++ relative_selector)
                          None None])%list
      else
        (fst result,
         snd result ++ [mkCheck "to_right_of" true
                          ("Element is to the right of " ++ relative_selector)
                          None None])%list
    else result in
  let result :=
    if below relative_spec then
      if y element_bounds <=? y relative_bounds + height relative_bounds then
        (false,
         snd result ++ [mkCheck "below" false
                          ("Element not below " ++ relative_selector)
                          None None])%list
      else
        (fst result,
         snd result ++ [mkCheck "below" true
                          ("Element is below " ++ relative_selector)
                          None None])%list
    else result in
  Return result.

(** [PositionChecker._check_position] *)
Definition _check_position (check : PositionSpec) : outcome PositionResult :=
  let sel := pos_selector check in
  let by_ := match pos_by check with Some b => b | None => By_CSS_SELECTOR end in
  bounds <- find_bounds by_ sel ;;
  let state := (true, @nil Measure) in
  let state := expect_block "x_position" (expected_x check) (x bounds)
                 (pos_tolerance check) state in
  let state := expect_block "y_position" (expected_y check) (y bounds)
                 (pos_tolerance check) state in
  let result := mkPositionResult sel bounds (fst state)
                  (map Measured (snd state)) in
  match relative_to check with
  | None => Return result
  | Some relative_spec =>
      relative_result <- _check_relative_position bounds relative_spec ;;
      Return (mkPositionResult sel bounds
                (if negb (fst relative_result) then false else pr_passed result)
                (pr_checks result ++ map Related (snd relative_result))%list)
  end.

(** [SizeChecker._check_size] *)
Definition _check_size (check : SizeSpec) : outcome SizeResult :=
  let sel := size_selector check in
  let by_ := match size_by check with Some b => b | None => By_CSS_SELECTOR end in
  bounds <- find_bounds by_ sel ;;
  let state := (true, @nil Measure) in
  let state := expect_block "width" (expected_width check) (width bounds)
                 (size_tolerance check) state in
  let state := expect_block "height" (expected_height check) (height bounds)
                 (size_tolerance check) state in
  let state := minimum_block "min_width" (min_width check) (width bounds)
                 state in
  let state := minimum_block "min_height" (min_height check) (height bounds)
                 state in
  Return (mkSizeResult sel bounds (fst state) (snd state)).

End PositionAndSize.

End Layout.

(** ** accessibility.py *)

Module Accessibility.

(** *** Regular-expression pieces used by [_parse_color]

    The three patterns are matched with [re.match]: anchored at the start of
    the string, free at its end.  In each pattern a greedy repetition is
    followed by a character outside the repeated class, so matching never
    backtracks and a left-to-right scan decides it. *)

(** [\d] on code points below 256 *)
Definition is_digit (c : ascii) : bool :=
  let n := nat_of_ascii c in ((48 <=? n) && (n <=? 57))%nat.

(** [\s] on code points below 256 ([str.isspace]) *)
Definition is_space (c : ascii) : bool :=
  let n := nat_of_ascii c in
  (((9 <=? n) && (n <=? 13)) || ((28 <=? n) && (n <=? 32))
   || (n =? 133) || (n =? 160))%nat.

(** [[0-9a-fA-F]] *)
Definition is_hex (c : ascii) : bool :=
  let n := nat_of_ascii c in
  (((48 <=? n) && (n <=? 57)) || ((65 <=? n) && (n <=? 70))
   || ((97 <=? n) && (n <=? 102)))%nat.

(** Longest prefix of [s] made of characters of the class [p], and the rest. *)
Fixpoint span (p : ascii -> bool) (s : string) : string * string :=
  match s with
  | EmptyString => (EmptyString, EmptyString)
  | String c t =>
      if p c then let (a, b) := span p t in (String c a, b)
      else (EmptyString, s)
  end.

(** [(\d+)], [[\d.]+]: one or more characters of the class. *)
Definition many1 (p : ascii -> bool) (s : string) : option (string * string) :=
  match span p s with
  | (EmptyString, _) => None
  | r => Some r
  end.

(** A literal piece of the pattern. *)
Fixpoint lit (l s : string) : option string :=
  match l with
  | EmptyString => Some s
  | String a l' =>
      match s with
      | String c t => if Ascii.eqb a c then lit l' t else None
      | EmptyString => None
      end
  end.

(** [\s*] *)
Definition spaces (s : string) : string := snd (span is_space s).

(** [int(d)] for a string of decimal digits *)
Definition int_of_digits (d : string) : Z :=
  fold_left (fun acc c => 10 * acc + (Z.of_nat (nat_of_ascii c) - 48))
            (list_ascii_of_string d) 0.

Definition hex_value (c : ascii) : Z :=
  let n := Z.of_nat (nat_of_ascii c) in
  if n <=? 57 then n - 48 else if n <=? 70 then n - 55 else n - 87.

(** [int(h, 16)] for a string of hexadecimal digits *)
Definition int_of_hex (h : string) : Z :=
  fold_left (fun acc c => 16 * acc + hex_value c) (list_ascii_of_string h) 0.

Definition opt_bind {A B : Type} (m : option A) (k : A -> option B)
    : option B :=
  match m with Some a => k a | None => None end.

Notation "'do' v <- m ; k" := (opt_bind m (fun v => k))
  (at level 10, v pattern, m at level 100, k at level 200).

(** [re.match(r'rgb\((\d+),\s*(\d+),\s*(\d+)\)', s)]: the three groups. *)
Definition rgb_match (s : string) : option (string * string * string) :=
  do s <- lit "rgb(" s;
  do (r, s) <- many1 is_digit s;
  do s <- lit "," s;
  do (g, s) <- many1 is_digit (spaces s);
  do s <- lit "," s;
  do (b, s) <- many1 is_digit (spaces s);
  do _ <- lit ")" s;
  Some (r, g, b).

(** [re.match(r'rgba\((\d+),\s*(\d+),\s*(\d+),\s*[\d.]+\)', s)] *)
Definition rgba_match (s : string) : option (string * string * string) :=
  do s <- lit "rgba(" s;
  do (r, s) <- many1 is_digit s;
  do s <- lit "," s;
  do (g, s) <- many1 is_digit (spaces s);
  do s <- lit "," s;
  do (b, s) <- many1 is_digit (spaces s);
  do s <- lit "," s;
  do (_, s) <- many1 (fun c => is_digit c || Ascii.eqb c ".") (spaces s);
  do _ <- lit ")" s;
  Some (r, g, b).

(** Exactly two characters of [[0-9a-fA-F]]. *)
Definition hex2 (s : string) : option (string * string) :=
  match s with
  | String a (String b t) =>
      if is_hex a && is_hex b then Some (String a (String b EmptyString), t)
      else None
  | _ => None
  end.

(** [re.match(r'#([0-9a-fA-F]{2})([0-9a-fA-F]{2})([0-9a-fA-F]{2})', s)] *)
Definition hex_match (s : string) : option (string * string * string) :=
  do s <- lit "#" s;
  do (r, s) <- hex2 s;
  do (g, s) <- hex2 s;
  do (b, _) <- hex2 s;
  Some (r, g, b).

Definition Color : Type := (Z * Z * Z)%type.

(** A colour triple as the data model has it: each channel in 0..255. *)
Definition is_rgb (c : Color) : Prop :=
  let '(r, g, b) := c in
  0 <= r <= 255 /\ 0 <= g <= 255 /\ 0 <= b <= 255.

(** [ContrastChecker._parse_color] *)
Definition _parse_color (color_str : string) : option Color :=
  if (color_str =? "")%string || (color_str =? "transparent")%string then None
  else
    match rgb_match color_str with
    | Some (r, g, b) => Some (int_of_digits r, int_of_digits g, int_of_digits b)
    | None =>
        match rgba_match color_str with
        | Some (r, g, b) =>
            Some (int_of_digits r, int_of_digits g, int_of_digits b)
        | None =>
            match hex_match color_str with
            | Some (r, g, b) => Some (int_of_hex r, int_of_hex g, int_of_hex b)
            | None => None
            end
        end
    end.

(** *** The colour grammar, as the specification words it

    [rgb(r, g, b)], [rgba(r, g, b, a)] and [#RRGGBB], each read at the start
    of the input: decimal channel values separated by a comma and optional
    white space, or three pairs of hexadecimal digits. *)

Definition all_of (p : ascii -> bool) (s : string) : Prop :=
  forallb p (list_ascii_of_string s) = true.

Definition number (d : string) : Prop := d <> "" /\ all_of is_digit d.

Definition blank (w : string) : Prop := all_of is_space w.

Definition hex_pair (h : string) : Prop :=
  String.length h = 2%nat /\ all_of is_hex h.

(** [rest] does not start with a character of the class [p]. *)
Definition stops (p : ascii -> bool) (rest : string) : Prop :=
  match rest with
  | EmptyString => True
  | String c _ => p c = false
  end.

Inductive color_form : string -> Color -> Prop :=
| form_rgb (r g b w1 w2 rest : string) :
    number r -> number g -> number b -> blank w1 -> blank w2 ->
    color_form ("rgb(" ++ r ++ "," ++ w1 ++ g ++ "," ++ w2 ++ b ++ ")" ++ rest)
               (int_of_digits r, int_of_digits g, int_of_digits b)
| form_rgba (r g b a w1 w2 w3 rest : string) :
    number r -> number g -> number b -> blank w1 -> blank w2 -> blank w3 ->
    a <> "" -> all_of (fun c => is_digit c || Ascii.eqb c ".") a ->
    color_form ("rgba(" ++ r ++ "," ++ w1 ++ g ++ "," ++ w2 ++ b ++ ","
                        ++ w3 ++ a ++ ")" ++ rest)
               (int_of_digits r, int_of_digits g, int_of_digits b)
| form_hex (r g b rest : string) :
    hex_pair r -> hex_pair g -> hex_pair b ->
    color_form ("#" ++ r ++ g ++ b ++ rest)
               (int_of_hex r, int_of_hex g, int_of_hex b).

(** *** Contrast ratio

    Python [float] arithmetic is read over the real numbers; [x ** 2.4] is
    [Rpower x 2.4], defined for the positive bases the code reaches. *)

Definition channel (v : R) : R :=
  if Rle_dec v 0.03928 then (v / 12.92)%R
  else Rpower ((v + 0.055) / 1.055) 2.4.

(** The local function [get_luminance] *)
Definition get_luminance (rgb : Color) : R :=
  let '(r, g, b) := rgb in
  let r := (IZR r / 255.0)%R in
  let g := (IZR g / 255.0)%R in
  let b := (IZR b / 255.0)%R in
  let r := channel r in
  let g := channel g in
  let b := channel b in
  (0.2126 * r + 0.7152 * g + 0.0722 * b)%R.

(** [max(a, b)] and [min(a, b)]: the first argument unless the second is
    strictly larger (smaller). *)
Definition float_max (a b : R) : R := if Rlt_dec a b then b else a.
Definition float_min (a b : R) : R := if Rlt_dec b a then b else a.

(** [ContrastChecker._calculate_contrast_ratio] *)
Definition _calculate_contrast_ratio (color1 color2 : Color) : R :=
  let lum1 := get_luminance color1 in
  let lum2 := get_luminance color2 in
  let lighter := float_max lum1 lum2 in
  let darker := float_min lum1 lum2 in
  ((lighter + 0.05) / (darker + 0.05))%R.

(** *** The contrast check of one element *)

(** The object returned by the computed-style script. *)
Record Styles : Type := mkStyles {
  color : string;
  backgroundColor : string;
  fontSize : string;
  fontWeight : string
}.

(** One entry of [result['checks']]; the last three keys are present only
    when a ratio was computed. *)
Record Check : Type := mkCheck {
  ck_type : string;
  ck_passed : bool;
  ck_message : string;
  ck_contrast_ratio : option R;
  ck_required_ratio : option R;
  ck_is_large_text : option bool
}.

Record Result : Type := mkResult {
  element : string;
  passed : bool;
  checks : list Check
}.

Record ElementSpec : Type := mkElementSpec {
  selector : string;
  by_type : option string
}.

(** [s.endswith(suffix)] *)
Definition endswith (s suffix : string) : bool :=
  let n := String.length s in
  let k := String.length suffix in
  ((k <=? n)%nat && (substring (n - k) k s =? suffix)%string).

(** [s[:-2]] *)
Definition drop_last2 (s : string) : string :=
  substring 0 (String.length s - 2) s.

Definition geb_R (a b : R) : bool := if Rle_dec b a then true else false.

Section ContrastChecker.

(** [self.min_contrast_ratio], [self.large_text_ratio] *)
Variables min_contrast_ratio large_text_ratio : R.

(** The browser: [driver.find_element] and the computed-style script. *)
Variable WebElement : Type.
Variable find_element : string -> string -> outcome WebElement.
Variable computed_style : WebElement -> outcome Styles.

(** Python built-ins on [float] and exceptions: [float(s)], [f'{v:.2f}'],
    [f'{v}'] and [str(e)]. *)
Variable py_float : string -> outcome R.
Variable format_2f : R -> string.
Variable format_float : R -> string.
Variable str_exn : exn -> string.

(** [ContrastChecker._parse_font_size] *)
Definition _parse_font_size (font_size_str : string) : outcome R :=
  if (font_size_str =? "")%string then Return 16%R
  else if endswith font_size_str "px" then
    v <- py_float (drop_last2 font_size_str) ;; Return (v * 0.75)%R
  else if endswith font_size_str "pt" then
    py_float (drop_last2 font_size_str)
  else if endswith font_size_str "em" then
    v <- py_float (drop_last2 font_size_str) ;; Return (v * 16 * 0.75)%R
  else Return 16%R.

Definition could_not_determine : Check :=
  mkCheck "contrast_ratio" false
          "Could not determine text or background color" None None None.

(** The body of the [try] block, from the parsed styles on. *)
Definition contrast_body (styles : Styles) (result : Result) : outcome Result :=
  let text_color := _parse_color (color styles) in
  let background_color := _parse_color (backgroundColor styles) in
  match text_color, background_color with
  | Some text_color, Some background_color =>
      let contrast_ratio :=
        _calculate_contrast_ratio text_color background_color in
      font_size <- _parse_font_size (fontSize styles) ;;
      let font_weight := fontWeight styles in
      let is_large_text :=
        geb_R font_size 18
        || (geb_R font_size 14
            && existsb (String.eqb font_weight) ["bold"; "700"; "800"; "900"])
      in
      let required_ratio :=
        if is_large_text then large_text_ratio else min_contrast_ratio in
      if geb_R contrast_ratio required_ratio then
        Return (mkResult (element result) (passed result)
          (checks result ++
           [mkCheck "contrast_ratio" true
              ("Contrast ratio " ++ format_2f contrast_ratio
               ++ " meets requirement (" ++ format_float required_ratio ++ ")")
              (Some contrast_ratio) (Some required_ratio)
              (Some is_large_text)]))
      else
        Return (mkResult (element result) false
          (checks result ++
           [mkCheck "contrast_ratio" false
              ("Contrast ratio " ++ format_2f contrast_ratio
               ++ " below requirement (" ++ format_float required_ratio ++ ")")
              (Some contrast_ratio) (Some required_ratio)
              (Some is_large_text)]))
  | _, _ =>
      Return (mkResult (element result) false
                (checks result ++ [could_not_determine]))
  end.

(** [ContrastChecker._check_element_contrast].  [find_element] is outside
    the [try]; every exception raised inside it becomes an error check. *)
Definition _check_element_contrast (element_spec : ElementSpec)
    : outcome Result :=
  let sel := selector element_spec in
  let by_ := match by_type element_spec with
             | Some b => b
             | None => "css selector"
             end in
  elt <- find_element by_ sel ;;
  let result := mkResult sel true [] in
  match (styles <- computed_style elt ;; contrast_body styles result) with
  | Return r => Return r
  | Raise e =>
      Return (mkResult (element result) false
                (checks result ++
                 [mkCheck "contrast_ratio" false
                    ("Error checking contrast: " ++ str_exn e)
                    None None None]))
  end.

End ContrastChecker.

End Accessibility.

(** ** visual.py *)

Module Visual.

(** A PIL image: its [size] (width, height), its [mode], and the samples
    [numpy.array(img)] holds, row by row, each a [uint8] in 0..255. *)
Record Image : Type := mkImage {
  size : Z * Z;
  mode : string;
  samples : list Z
}.

(** [Image.Resampling] *)
Inductive Resampling : Type :=
| NEAREST | BOX | BILINEAR | HAMMING | BICUBIC | LANCZOS.

(** A NumPy [float64]: a number, or [nan] (the mean of an empty array). *)
Inductive float64 : Type :=
| Num (q : Q)
| NaN.

(** Values stored in the [differences] dictionary; a dictionary has string
    keys, kept in insertion order. *)
Inductive value : Type :=
| VFloat (f : float64)
| VInt (n : Z).

Definition dict : Type := list (string * value).

(** Values stored in the [details] dictionary of the verdict. *)
Inductive detail : Type :=
| DFloat (f : float64)
| DDict (d : dict).

(** [core.VerificationStatus] and the fields of [core.VerificationResult]
    that the comparator fills in. *)
Inductive VerificationStatus : Type := PASS | FAIL | WARNING | SKIP.

Record VerificationResult : Type := mkVerificationResult {
  check_name : string;
  status : VerificationStatus;
  message : string;
  details : option (list (string * detail))
}.

Fixpoint get (d : dict) (key : string) : option value :=
  match d with
  | [] => None
  | (k, v) :: d' => if (k =? key)%string then Some v else get d' key
  end.

Definition keys (d : dict) : list string := map fst d.

Definition size_eqb (a b : Z * Z) : bool :=
  (fst a =? fst b) && (snd a =? snd b).

(** [uint8] arithmetic: results are reduced modulo 256. *)
Definition uint8_sub (a b : Z) : Z := (a - b) mod 256.
Definition uint8_square (a : Z) : Z := (a * a) mod 256.

Definition sum_Z (l : list Z) : Z := fold_right Z.add 0 l.

(** [np.mean(a)] *)
Definition np_mean (a : list Z) : float64 :=
  match a with
  | [] => NaN
  | _ => Num (inject_Z (sum_Z a) / inject_Z (Z.of_nat (length a)))
  end.

(** [ImageChops.difference]: the absolute difference, sample by sample. *)
Definition difference (a b : list Z) : list Z :=
  map (fun p => Z.abs (fst p - snd p)) (combine a b).

(** [x / n * 100] and [1 - x / n] on [float64]. *)
Definition percentage (count total : Z) : float64 :=
  if total =? 0 then NaN
  else Num (inject_Z count / inject_Z total * 100).

Definition one_minus_over (x : float64) (d : Z) : float64 :=
  match x with
  | Num q => Num (1 - q / inject_Z d)
  | NaN => NaN
  end.

(** [a >= b] on [float64]; a comparison with [nan] is false. *)
Definition float64_geb (a : float64) (b : Q) : bool :=
  match a with
  | Num q => Qle_bool b q
  | NaN => false
  end.

Section ScreenshotComparator.

(** [self.threshold], [self.tolerance] *)
Variable threshold : Q.
Variable tolerance : Z.

(** PIL: [img.resize(size, filter)] returns an image of the requested size,
    [img.convert(mode)] one of the requested mode. *)
Variable resize : Image -> Z * Z -> Resampling -> Image.
Variable convert : Image -> string -> Image.

(** [f'{v:.2f}'] *)
Variable format_2f : float64 -> string.

(** The first two steps of [_compare_images]: the second image is brought
    to the size of the first, then both to RGB. *)
Definition normalize_size (img1 img2 : Image) : Image :=
  if negb (size_eqb (size img1) (size img2))
  then resize img2 (size img1) LANCZOS
  else img2.

Definition to_rgb (img : Image) : Image :=
  if negb (mode img =? "RGB")%string then convert img "RGB" else img.

(** [ScreenshotComparator._compare_images] *)
Definition _compare_images (img1 img2 : Image) : float64 * dict :=
  let img2 := normalize_size img1 img2 in
  let img1 := to_rgb img1 in
  let img2 := to_rgb img2 in
  let diff := difference (samples img1) (samples img2) in
  let img1_array := samples img1 in
  let img2_array := samples img2 in
  let mse :=
    np_mean (map (fun p => uint8_square (uint8_sub (fst p) (snd p)))
                 (combine img1_array img2_array)) in
  let max_pixel_value := 255 in
  let similarity := one_minus_over mse (max_pixel_value ^ 2) in
  let diff_array := diff in
  let different_pixels :=
    Z.of_nat (length (filter (fun d => tolerance <? d) diff_array)) in
  let total_pixels := Z.of_nat (length diff_array) in
  let differences :=
    [ ("mse", VFloat mse);
      ("different_pixels", VInt different_pixels);
      ("total_pixels", VInt total_pixels);
      ("difference_percentage",
         VFloat (percentage different_pixels total_pixels)) ] in
  (similarity, differences).

(** [ScreenshotComparator.verify] from the point where the reference and
    the current image are both loaded. *)
Definition verify_loaded (reference_img current_img : Image)
    : VerificationResult :=
  let (similarity, differences) := _compare_images reference_img current_img in
  let (status, message) :=
    if float64_geb similarity threshold
    then (PASS, "Screenshot matches reference (similarity: "
                ++ format_2f similarity ++ ")")
    else (FAIL, "Screenshot differs from reference (similarity: "
                ++ format_2f similarity ++ ")") in
  mkVerificationResult "ScreenshotComparator" status message
    (Some [ ("similarity", DFloat similarity);
            ("differences", DDict differences);
            ("threshold", DFloat (Num threshold)) ]).

End ScreenshotComparator.

(** A solid image of one colour: every sample equal to [v]. *)
Definition solid (w h : nat) (v : Z) : Image :=
  mkImage (Z.of_nat w, Z.of_nat h) "RGB" (repeat v (w * h * 3)).

(** A resampler for closed examples: the requested size, filled with the
    first sample of the source.  It agrees with every PIL filter on solid
    images. *)
Definition resize_solid (img : Image) (sz : Z * Z) (filter : Resampling)
    : Image :=
  mkImage sz (mode img)
    (repeat (hd 0 (samples img)) (Z.to_nat (fst sz * snd sz * 3))).

End Visual.

(** ** core.py *)

Module Core.

(** [VerificationStatus.value] *)
Definition status_value (s : Visual.VerificationStatus) : string :=
  match s with
  | Visual.PASS => "pass"
  | Visual.FAIL => "fail"
  | Visual.WARNING => "warning"
  | Visual.SKIP => "skip"
  end.

Definition status_eqb (a b : Visual.VerificationStatus) : bool :=
  (status_value a =? status_value b)%string.

Section BaseVerifier.

(** The contents of [details] and the type of [timestamp] play no part. *)
Variable Details : Type.
Variable Time : Type.

(** [core.VerificationResult] *)
Record VerificationResult : Type := mkVerificationResult {
  check_name : string;
  status : Visual.VerificationStatus;
  message : string;
  details : option Details;
  timestamp : Time;
  duration_ms : option Q
}.

(** [result.duration_ms = d] *)
Definition set_duration (r : VerificationResult) (d : Q) : VerificationResult :=
  mkVerificationResult (check_name r) (status r) (message r) (details r)
    (timestamp r) (Some d).

(** [BaseVerifier.run_verification] on a verifier whose [results] list is
    [results].  [verify] is the outcome of [self.verify(target, **kwargs)],
    [start_time] and [end_time] are the two readings of [time.time()],
    [now] is the [datetime.now()] of a result created here.  Returns the
    result and the new [self.results]. *)
Definition run_verification (class_name : string)
    (str_exn : exn -> string) (verify : outcome VerificationResult)
    (start_time end_time : Q) (now : Time)
    (results : list VerificationResult)
    : VerificationResult * list VerificationResult :=
  match verify with
  | Return result =>
      let result := set_duration result ((end_time - start_time) * 1000)%Q in
      (result, (results ++ [result])%list)
  | Raise e =>
      let duration := ((end_time - start_time) * 1000)%Q in
      let error_result :=
        mkVerificationResult class_name Visual.FAIL
          ("Verification failed with error: " ++ str_exn e) None now
          (Some duration) in
      (error_result, (results ++ [error_result])%list)
  end.

(** [summary[key] += 1] on a dictionary that holds [key] *)
Fixpoint increment (key : string) (summary : list (string * Z))
    : list (string * Z) :=
  match summary with
  | [] => []
  | (k, n) :: rest =>
      if (k =? key)%string then (k, n + 1) :: rest
      else (k, n) :: increment key rest
  end.

(** [BaseVerifier.get_summary] *)
Definition get_summary (results : list VerificationResult)
    : list (string * Z) :=
  fold_left (fun summary result =>
               increment (status_value (status result)) summary)
            results
            [("pass", 0); ("fail", 0); ("warning", 0); ("skip", 0)].

(** The number of results with a given status. *)
Definition count_status (s : Visual.VerificationStatus)
    (results : list VerificationResult) : Z :=
  Z.of_nat (length (filter (fun r => status_eqb (status r) s) results)).

Fixpoint lookup (key : string) (summary : list (string * Z)) : option Z :=
  match summary with
  | [] => None
  | (k, n) :: rest => if (k =? key)%string then Some n else lookup key rest
  end.

End BaseVerifier.

Arguments check_name {Details Time} v.
Arguments status {Details Time} v.
Arguments message {Details Time} v.
Arguments details {Details Time} v.
Arguments timestamp {Details Time} v.
Arguments duration_ms {Details Time} v.
Arguments run_verification {Details Time}.
Arguments get_summary {Details Time} results.
Arguments count_status {Details Time} s results.

(** A summary dictionary with the four counts, and the contribution of one
    result with status [s] to the count of status [t]. *)
Definition summary4 (a b c d : Z) : list (string * Z) :=
  [("pass", a); ("fail", b); ("warning", c); ("skip", d)].

Definition indicator (s t : Visual.VerificationStatus) : Z :=
  if status_eqb s t then 1 else 0.

End Core.

(** ** config.py *)

Module Config.

(** The dictionary returned by [_generate_summary]. *)
Record Summary : Type := mkSummary {
  total_checks : Z;
  passed : Z;
  failed : Z;
  warnings : Z;
  skipped : Z;
  success_rate : Q
}.

(** [sum(1 for r in results if r.status == s)] *)
Definition count (s : Visual.VerificationStatus)
    (statuses : list Visual.VerificationStatus) : Z :=
  Z.of_nat (length (filter (fun t => Core.status_eqb t s) statuses)).

(** [ReportGenerator._generate_summary]; only the status of each result is
    read. *)
Definition _generate_summary (statuses : list Visual.VerificationStatus)
    : Summary :=
  let total_checks := Z.of_nat (length statuses) in
  let passed := count Visual.PASS statuses in
  let failed := count Visual.FAIL statuses in
  let warnings := count Visual.WARNING statuses in
  let skipped := count Visual.SKIP statuses in
  let success_rate :=
    if 0 <? total_checks
    then (inject_Z passed / inject_Z total_checks * 100)%Q
    else 0%Q in
  mkSummary total_checks passed failed warnings skipped success_rate.

End Config.

(** ** utils.py: ColorUtils *)

Module Utils.

Import Accessibility.

(** [s.lstrip('#')] *)
Fixpoint lstrip_hash (s : string) : string :=
  match s with
  | EmptyString => EmptyString
  | String c t => if Ascii.eqb c "#" then lstrip_hash t else s
  end.

(** [format(n, 'x')] for [0 <= n]: lower-case hexadecimal digits. *)
Definition hex_of_N (n : N) : string :=
  HexadecimalString.NilZero.string_of_uint (N.to_hex_uint n).

(** ['{:02x}'.format(n)]: the sign, then the digits padded with zeros to a
    total width of two. *)
Definition format_02x (n : Z) : string :=
  if n <? 0 then "-" ++ hex_of_N (Z.to_N (- n))
  else
    let h := hex_of_N (Z.to_N n) in
    if (String.length h <? 2)%nat then "0" ++ h else h.

(** [ColorUtils.rgb_to_hex] *)
Definition rgb_to_hex (rgb : Color) : string :=
  let '(r, g, b) := rgb in
  "#" ++ format_02x r ++ format_02x g ++ format_02x b.

(** [ColorUtils.calculate_luminance] *)
Definition calculate_luminance (rgb : Color) : R :=
  let '(r, g, b) := rgb in
  let r := (IZR r / 255.0)%R in
  let g := (IZR g / 255.0)%R in
  let b := (IZR b / 255.0)%R in
  let r := channel r in
  let g := channel g in
  let b := channel b in
  (0.2126 * r + 0.7152 * g + 0.0722 * b)%R.

(** [ColorUtils.calculate_contrast_ratio] *)
Definition calculate_contrast_ratio (color1 color2 : Color) : R :=
  let lum1 := calculate_luminance color1 in
  let lum2 := calculate_luminance color2 in
  let lighter := float_max lum1 lum2 in
  let darker := float_min lum1 lum2 in
  ((lighter + 0.05) / (darker + 0.05))%R.

(** [ColorUtils.is_color_accessible] *)
Definition is_color_accessible (foreground background : Color)
    (is_large_text : bool) : bool * R :=
  let contrast_ratio := calculate_contrast_ratio foreground background in
  let required_ratio := if is_large_text then 3.0%R else 4.5%R in
  (geb_R contrast_ratio required_ratio, contrast_ratio).

(** [ColorUtils.parse_css_color] *)
Definition parse_css_color (color_str : string) : option Color :=
  if (color_str =? "")%string || (color_str =? "transparent")%string then None
  else
    match rgb_match color_str with
    | Some (r, g, b) => Some (int_of_digits r, int_of_digits g, int_of_digits b)
    | None =>
        match rgba_match color_str with
        | Some (r, g, b) =>
            Some (int_of_digits r, int_of_digits g, int_of_digits b)
        | None =>
            match hex_match color_str with
            | Some (r, g, b) => Some (int_of_hex r, int_of_hex g, int_of_hex b)
            | None => None
            end
        end
    end.

Section HexToRgb.

(** [int(s, 16)]: the value, or [ValueError]. *)
Variable py_int16 : string -> outcome Z.

(** [ColorUtils.hex_to_rgb]: a [ValueError] of [int] gives [None]. *)
Definition hex_to_rgb (hex_color : string) : outcome (option Color) :=
  let hex_color := lstrip_hash hex_color in
  if (String.length hex_color =? 6)%nat then
    match
      (r <- py_int16 (substring 0 2 hex_color) ;;
       g <- py_int16 (substring 2 2 hex_color) ;;
       b <- py_int16 (substring 4 2 hex_color) ;;
       Return (r, g, b))
    with
    | Return rgb => Return (Some rgb)
    | Raise (ValueError _) => Return None
    | Raise e => Raise e
    end
  else Return None.

End HexToRgb.

(** [int(s, 16)] on the strings that hold nothing but hexadecimal digits;
    used where a concrete [py_int16] is needed. *)
Definition int16_of_digits (s : string) : outcome Z :=
  if negb (s =? "")%string && forallb is_hex (list_ascii_of_string s)
  then Return (int_of_hex s)
  else Raise (ValueError "invalid literal for int() with base 16").

End Utils.


(** ** The [verify] methods that collect results *)

Module Verifiers.

Import Core.

(** *** visual.py: VisualVerifier.verify *)

Section VisualVerifier.

Variable Details : Type.
Variable Time : Type.

(** [datetime.now()] when the result is created, and the results of the two
    sub-verifiers on the target. *)
Variable now : Time.
Variable screenshot_verify : outcome (VerificationResult Details Time).
Variable elements_verify : outcome (VerificationResult Details Time).

(** The loop over [checks]: a name that is neither ['screenshot'] nor
    ['elements'] falls through both branches. *)
Fixpoint run_checks (checks : list string)
    (results : list (VerificationResult Details Time))
    : outcome (list (VerificationResult Details Time)) :=
  match checks with
  | [] => Return results
  | check :: rest =>
      if (check =? "screenshot")%string then
        result <- screenshot_verify ;;
        run_checks rest (results ++ [result])%list
      else if (check =? "elements")%string then
        result <- elements_verify ;;
        run_checks rest (results ++ [result])%list
      else run_checks rest results
  end.

(** [VisualVerifier.verify]; [details] holds the list stored under
    ['individual_results']. *)
Definition VisualVerifier_verify (checks : option (list string))
    : outcome (VerificationResult
                 (list (VerificationResult Details Time)) Time) :=
  let checks := match checks with
                | Some c => c
                | None => ["screenshot"; "elements"]
                end in
  results <- run_checks checks [] ;;
  let verdict :=
    if forallb (fun r => status_eqb (status r) Visual.PASS) results then
      (Visual.PASS, "All visual checks passed")
    else if existsb (fun r => status_eqb (status r) Visual.FAIL) results then
      (Visual.FAIL, "Some visual checks failed")
    else (Visual.WARNING, "Some visual checks have warnings") in
  Return (mkVerificationResult _ _ "VisualVerifier" (fst verdict)
            (snd verdict) (Some results) now None).

End VisualVerifier.

(** *** visual.py: ElementDetector *)

(** What the detector reads from an element that is found. *)
Record Element : Type := mkElement {
  is_displayed : bool;
  is_enabled : bool;
  text : string;
  tag_name : string
}.

(** An element specification: ['selector'] and ['text'] may be absent;
    ['visible'] may be absent (then [True] is expected), [None] (nothing is
    expected) or a boolean. *)
Record DetectSpec : Type := mkDetectSpec {
  d_selector : option string;
  d_by : option string;
  d_text : option string;
  d_visible : option (option bool)
}.

(** The dictionary returned by [_check_element] and the error entry of
    [verify]. *)
Record Detected : Type := mkDetected {
  r_selector : string;
  r_status : string;
  r_visible : option bool;
  r_enabled : option bool;
  r_text : option string;
  r_tag_name : option string;
  r_message : option string
}.

(** [str(b)] for a [bool] *)
Definition str_of_bool (b : bool) : string := if b then "True" else "False".

Section ElementDetector.

Variable Time : Type.
Variable now : Time.

(** [driver.find_element] followed by the reads of the element; any
    exception among them is the [Raise]. *)
Variable find_element : string -> string -> outcome Element.
Variable str_exn : exn -> string.

(** [None] is the [KeyError] of [element_spec['selector']], which is read
    before the [try]. *)
Definition _check_element (element_spec : DetectSpec) : option Detected :=
  match d_selector element_spec with
  | None => None
  | Some sel =>
  let by_ := match d_by element_spec with
             | Some b => b
             | None => "css selector"
             end in
  let expected_text := d_text element_spec in
  let expected_visible := match d_visible element_spec with
                          | Some v => v
                          | None => Some true
                          end in
  match find_element by_ sel with
  | Return element =>
      let result :=
        mkDetected sel "found" (Some (is_displayed element))
          (Some (is_enabled element)) (Some (text element))
          (Some (tag_name element)) None in
      let result :=
        match expected_visible with
        | Some ev =>
            if negb (Bool.eqb (is_displayed element) ev) then
              mkDetected sel "visibility_mismatch" (r_visible result)
                (r_enabled result) (r_text result) (r_tag_name result)
                (Some ("Expected visible=" ++ str_of_bool ev
                       ++ ", got visible="
                       ++ str_of_bool (is_displayed element)))
            else result
        | None => result
        end in
      Some
      match expected_text with
      | Some t =>
          if negb (t =? "")%string && negb (text element =? t)%string then
            mkDetected sel "text_mismatch" (r_visible result)
              (r_enabled result) (r_text result) (r_tag_name result)
              (Some ("Expected text='" ++ t ++ "', got text='"
                     ++ text element ++ "'"))
          else result
      | None => result
      end
  | Raise e =>
      Some (mkDetected sel "not_found" None None None None (Some (str_exn e)))
  end
  end.

(** The entry appended by the [except] branch of [verify];
    [str(KeyError('selector'))] is ['selector'] in quotes. *)
Definition error_entry : Detected :=
  mkDetected "unknown" "error" None None None None (Some "'selector'").

(** The loop of [verify]: [(results, all_found)]. *)
Fixpoint detect_loop (elements_to_check : list DetectSpec)
    (results : list Detected) (all_found : bool) : list Detected * bool :=
  match elements_to_check with
  | [] => (results, all_found)
  | element_spec :: rest =>
      match _check_element element_spec with
      | Some element_result =>
          detect_loop rest (results ++ [element_result])%list
            (if negb (r_status element_result =? "found")%string then false
             else all_found)
      | None => detect_loop rest (results ++ [error_entry])%list false
      end
  end.

(** [ElementDetector.verify]; [details] holds the list stored under
    ['element_results']. *)
Definition ElementDetector_verify (elements_to_check : list DetectSpec)
    : VerificationResult (list Detected) Time :=
  match elements_to_check with
  | [] =>
      mkVerificationResult _ _ "ElementDetector" Visual.WARNING
        "No elements specified for detection" None now None
  | _ =>
      let (results, all_found) := detect_loop elements_to_check [] true in
      let status := if all_found then Visual.PASS else Visual.FAIL in
      let message :=
        "Element detection: "
        ++ str_of_Z (Z.of_nat (length
             (filter (fun r => (r_status r =? "found")%string) results)))
        ++ "/" ++ str_of_Z (Z.of_nat (length results)) ++ " elements found" in
      mkVerificationResult _ _ "ElementDetector" status message
        (Some results) now None
  end.

(** The entry that one specification contributes. *)
Definition detected_entry (element_spec : DetectSpec) : Detected :=
  match _check_element element_spec with
  | Some element_result => element_result
  | None => error_entry
  end.

End ElementDetector.

(** *** layout.py: AlignmentChecker.verify *)

(** One entry of [alignment_results]: the result of a check, or the record
    of the exception it raised. *)
Inductive Entry : Type :=
| Checked (result : Layout.Result)
| Errored (elements : list Layout.ElementSpec) (error : string).

(** [r['passed']] of a result.  A result of [_check_alignment] always has
    the key (lemma [check_alignment_sets_passed]); an absent key is read as
    [False] here. *)
Definition flag (result : Layout.Result) : bool :=
  match Layout.passed result with
  | Some b => b
  | None => false
  end.

Definition entry_flag (e : Entry) : bool :=
  match e with
  | Checked result => flag result
  | Errored _ _ => false
  end.

Section AlignmentChecker.

Variable Time : Type.
Variable now : Time.
Variable tolerance : Z.
Variable find_bounds : string -> string -> outcome Bounds.
Variable str_exn : exn -> string.

(** The loop of [verify]: [(results, all_passed)]. *)
Fixpoint verify_loop (alignment_checks : list Layout.AlignmentSpec)
    (results : list Entry) (all_passed : bool) : list Entry * bool :=
  match alignment_checks with
  | [] => (results, all_passed)
  | check :: rest =>
      match Layout._check_alignment tolerance find_bounds check with
      | Return result =>
          verify_loop rest (results ++ [Checked result])%list
            (if negb (flag result) then false else all_passed)
      | Raise e =>
          verify_loop rest
            (results ++ [Errored (Layout.spec_elements check) (str_exn e)])%list
            false
      end
  end.

(** [AlignmentChecker.verify]; [details] holds the list stored under
    ['alignment_results']. *)
Definition AlignmentChecker_verify
    (alignment_checks : list Layout.AlignmentSpec)
    : VerificationResult (list Entry) Time :=
  match alignment_checks with
  | [] =>
      mkVerificationResult _ _ "AlignmentChecker" Visual.WARNING
        "No alignment checks specified" None now None
  | _ =>
      let (results, all_passed) := verify_loop alignment_checks [] true in
      let status := if all_passed then Visual.PASS else Visual.FAIL in
      let message :=
        "Alignment checks: "
        ++ str_of_Z (Z.of_nat (length (filter entry_flag results)))
        ++ "/" ++ str_of_Z (Z.of_nat (length results)) ++ " passed" in
      mkVerificationResult _ _ "AlignmentChecker" status message
        (Some results) now None
  end.

(** The entry that one check contributes. *)
Definition entry_of (check : Layout.AlignmentSpec) : Entry :=
  match Layout._check_alignment tolerance find_bounds check with
  | Return result => Checked result
  | Raise e => Errored (Layout.spec_elements check) (str_exn e)
  end.

End AlignmentChecker.

End Verifiers.

(** ** core.py: VerificationSuite *)

Module Suite.

Import Core.

Section VerificationSuite.

Variable Details : Type.
Variable Time : Type.

(** Verifier objects are named by references (natural numbers): a suite
    holds references, so a verifier added twice is one object.
    [class_name v] is [v.__class__.__name__]; [verify v t] is the outcome of
    [v.verify(target, **kwargs)] when it is the [t]-th call of
    [run_verification] in the program, which is taken to build a new
    result and not to touch any [results] list itself; [clock t] gives the
    two readings of [time.time()] and the [datetime.now()] of that call. *)
Variable class_name : nat -> string.
Variable verify : nat -> nat -> outcome (VerificationResult Details Time).
Variable clock : nat -> Q * Q * Time.
Variable str_exn : exn -> string.

(** The objects: [heap v] is [v.results]; [calls] counts the calls of
    [run_verification] made so far. *)
Record World : Type := mkWorld {
  heap : nat -> list (VerificationResult Details Time);
  calls : nat
}.

Record VerificationSuite : Type := mkSuite {
  name : string;
  verifiers : list nat;
  results : list (VerificationResult Details Time)
}.

(** [VerificationSuite(name)] *)
Definition new_suite (name : string) : VerificationSuite :=
  mkSuite name [] [].

Definition add_verifier (suite : VerificationSuite) (verifier : nat)
    : VerificationSuite :=
  mkSuite (name suite) (verifiers suite ++ [verifier])%list (results suite).

(** [verifier.run_verification(target, **kwargs)] on the object behind the
    reference. *)
Definition call_run_verification (verifier : nat) (w : World)
    : VerificationResult Details Time * World :=
  let '(start_time, end_time, now) := clock (calls w) in
  let (result, results') :=
    run_verification (class_name verifier) str_exn
      (verify verifier (calls w)) start_time end_time now (heap w verifier) in
  (result,
   mkWorld (fun u => if (u =? verifier)%nat then results' else heap w u)
           (S (calls w))).

(** The loop of [run_all]; [results] is [self.results]. *)
Fixpoint run_loop (vs : list nat)
    (results : list (VerificationResult Details Time)) (w : World)
    : list (VerificationResult Details Time) * World :=
  match vs with
  | [] => (results, w)
  | verifier :: rest =>
      let (result, w) := call_run_verification verifier w in
      run_loop rest (results ++ [result])%list w
  end.

(** [run_all]: the returned copy, the suite and the objects afterwards. *)
Definition run_all (suite : VerificationSuite) (w : World)
    : list (VerificationResult Details Time) * VerificationSuite * World :=
  let (results, w) := run_loop (verifiers suite) [] w in
  (results, mkSuite (name suite) (verifiers suite) results, w).

(** The dictionary returned by [get_suite_summary]. *)
Record SuiteSummary : Type := mkSuiteSummary {
  suite_name : string;
  total_checks : Z;
  status_counts : list (string * Z);
  total_duration_ms : Q;
  verifier_summaries : list (string * list (string * Z))
}.

(** [if result.duration_ms:] holds for a duration that is neither [None]
    nor zero. *)
Definition add_duration (total : Q) (result : VerificationResult Details Time)
    : Q :=
  match duration_ms result with
  | Some d => if Qeq_bool d 0 then total else (total + d)%Q
  | None => total
  end.

Definition get_suite_summary (suite : VerificationSuite) (w : World)
    : SuiteSummary :=
  let '(counts, total) :=
    fold_left
      (fun acc result =>
         (increment (status_value (status result)) (fst acc),
          add_duration (snd acc) result))
      (results suite)
      ([("pass", 0); ("fail", 0); ("warning", 0); ("skip", 0)], 0%Q) in
  mkSuiteSummary (name suite) (Z.of_nat (length (results suite))) counts total
    (map (fun verifier => (class_name verifier, get_summary (heap w verifier)))
         (verifiers suite)).

(** The duration in milliseconds that the [t]-th call of
    [run_verification] measures. *)
Definition measured (t : nat) : Q :=
  let '(start_time, end_time, _) := clock t in
  ((end_time - start_time) * 1000)%Q.

End VerificationSuite.

Arguments heap {Details Time} w.
Arguments calls {Details Time} w.
Arguments name {Details Time} v.
Arguments verifiers {Details Time} v.
Arguments results {Details Time} v.

End Suite.

(** * Properties *)

(** ** The overlap predicate *)

(** C9.  Two bounding boxes overlap, according to [_elements_overlap],
    exactly when neither of them lies fully to the left of, to the right of,
    above or below the other. *)
Theorem elements_overlap_iff_not_separated (a b : Bounds) :
  Responsive._elements_overlap a b = true <->
  ~ Responsive.fully_left_of a b /\ ~ Responsive.fully_right_of a b /\
  ~ Responsive.fully_above a b /\ ~ Responsive.fully_below a b.
Proof.
  unfold Responsive._elements_overlap, Responsive.fully_left_of,
    Responsive.fully_right_of, Responsive.fully_above, Responsive.fully_below.
  rewrite negb_true_iff, !orb_false_iff, !Z.leb_gt.
  split.
  - intros [[[H1 H2] H3] H4]. repeat split; lia.
  - intros (H1 & H2 & H3 & H4). repeat split; lia.
Qed.

(** ** Alignment with too few boxes *)

(** C8.  With fewer than two elements [_check_alignment] returns (it raises
    nothing, whatever the browser does) a result that has not passed and
    whose single check is of type [insufficient_elements] with the message
    "Need at least 2 elements for alignment check". *)
Theorem check_alignment_insufficient_elements
    (tolerance : Z) (find_bounds : string -> string -> outcome Bounds)
    (check : Layout.AlignmentSpec)
    (Hfew : (length (Layout.spec_elements check) < 2)%nat) :
  exists r,
    Layout._check_alignment tolerance find_bounds check = Return r /\
    Layout.passed r = Some false /\
    Layout.checks r =
      [Layout.mkCheck "insufficient_elements" false
         "Need at least 2 elements for alignment check" None None].
Proof.
  unfold Layout._check_alignment.
  apply Nat.ltb_lt in Hfew. rewrite Hfew.
  eexists. split; [reflexivity|]. split; reflexivity.
Qed.

Lemma check_alignment_insufficient_elements_witness :
  exists r,
    Layout._check_alignment 5
      (fun _ sel => Raise (NoSuchElementException sel))
      (Layout.mkAlignmentSpec [Layout.mkElementSpec "#logo" None]
         (Some "grid") None None) = Return r /\
    Layout.passed r = Some false /\
    Layout.checks r =
      [Layout.mkCheck "insufficient_elements" false
         "Need at least 2 elements for alignment check" None None].
Proof.
  apply (check_alignment_insufficient_elements 5
           (fun _ sel => Raise (NoSuchElementException sel))
           (Layout.mkAlignmentSpec [Layout.mkElementSpec "#logo" None]
              (Some "grid") None None)).
  simpl. lia.
Defined.

(** ** Contrast ratio *)

Section ContrastFacts.

Import Accessibility.
Local Open Scope R_scope.

Lemma Rpower_one (e : R) : Rpower 1 e = 1.
Proof. unfold Rpower. rewrite ln_1, Rmult_0_r. apply exp_0. Qed.

Lemma channel_bounds (v : R) : 0 <= v <= 1 -> 0 <= channel v <= 1.
Proof.
  intros [H0 H1]. unfold channel.
  destruct (Rle_dec v 0.03928) as [Hlow | Hhigh].
  - lra.
  - assert (Hbase : 0 < (v + 0.055) / 1.055 <= 1).
    { split.
      - apply Rdiv_lt_0_compat; lra.
      - apply Rmult_le_reg_r with 1.055; [lra|].
        unfold Rdiv. rewrite Rmult_assoc, Rinv_l; lra. }
    split.
    + left. unfold Rpower. apply exp_pos.
    + rewrite <- (Rpower_one 2.4). apply Rle_Rpower_l; lra.
Qed.

Lemma channel_0 : channel 0 = 0.
Proof. unfold channel. destruct (Rle_dec 0 0.03928); lra. Qed.

Lemma channel_1 : channel 1 = 1.
Proof.
  unfold channel. destruct (Rle_dec 1 0.03928) as [H | H]; [lra|].
  replace ((1 + 0.055) / 1.055) with 1 by lra. apply Rpower_one.
Qed.

Lemma unit_of_byte (n : Z) : (0 <= n <= 255)%Z -> 0 <= IZR n / 255.0 <= 1.
Proof.
  intros [Hlo Hhi]. apply IZR_le in Hlo. apply IZR_le in Hhi.
  split.
  - apply Rmult_le_pos; lra.
  - apply Rmult_le_reg_r with 255.0; [lra|].
    unfold Rdiv. rewrite Rmult_assoc, Rinv_l; lra.
Qed.

Lemma luminance_bounds (c : Color) : is_rgb c -> 0 <= get_luminance c <= 1.
Proof.
  destruct c as [[r g] b]. intros (Hr & Hg & Hb). unfold get_luminance.
  pose proof (channel_bounds _ (unit_of_byte r Hr)).
  pose proof (channel_bounds _ (unit_of_byte g Hg)).
  pose proof (channel_bounds _ (unit_of_byte b Hb)).
  lra.
Qed.

Lemma luminance_black : get_luminance (0, 0, 0)%Z = 0.
Proof.
  unfold get_luminance. replace (0 / 255.0) with 0 by lra.
  rewrite channel_0. lra.
Qed.

Lemma luminance_white : get_luminance (255, 255, 255)%Z = 1.
Proof.
  unfold get_luminance. replace (255 / 255.0) with 1 by lra.
  rewrite channel_1. lra.
Qed.

Lemma quotient_between (n d : R) :
  0 < d -> d <= n -> n <= 21 * d -> 1 <= n / d <= 21.
Proof.
  intros Hd Hlo Hhi.
  split; apply Rmult_le_reg_r with d; try assumption;
    unfold Rdiv; rewrite Rmult_assoc, Rinv_l; lra.
Qed.

Lemma ratio_of_luminances (l1 l2 : R) :
  0 <= l1 <= 1 -> 0 <= l2 <= 1 ->
  1 <= (float_max l1 l2 + 0.05) / (float_min l1 l2 + 0.05) <= 21.
Proof.
  intros H1 H2. unfold float_max, float_min.
  destruct (Rlt_dec l1 l2), (Rlt_dec l2 l1);
    apply quotient_between; lra.
Qed.

(** C5.  Over the reals the contrast ratio of black against white is 21, in
    either order (the luminances are 0 and 1), and the contrast ratio of any
    RGB triple against itself is 1. *)
Theorem contrast_ratio_black_white_and_self (c : Color) (Hc : is_rgb c) :
  _calculate_contrast_ratio (0, 0, 0)%Z (255, 255, 255)%Z = 21 /\
  _calculate_contrast_ratio (255, 255, 255)%Z (0, 0, 0)%Z = 21 /\
  get_luminance (0, 0, 0)%Z = 0 /\
  get_luminance (255, 255, 255)%Z = 1 /\
  _calculate_contrast_ratio c c = 1.
Proof.
  unfold _calculate_contrast_ratio.
  rewrite luminance_black, luminance_white.
  pose proof (luminance_bounds c Hc) as Hl.
  unfold float_max, float_min.
  repeat split.
  - destruct (Rlt_dec 0 1), (Rlt_dec 1 0); lra.
  - destruct (Rlt_dec 0 1), (Rlt_dec 1 0); lra.
  - destruct (Rlt_dec (get_luminance c) (get_luminance c)); [lra|].
    apply Rinv_r. lra.
Qed.

Lemma contrast_ratio_black_white_and_self_witness :
  is_rgb (12, 200, 99)%Z /\
  _calculate_contrast_ratio (12, 200, 99)%Z (12, 200, 99)%Z = 1.
Proof.
  assert (H : is_rgb (12, 200, 99)%Z) by (simpl; lia).
  split; [exact H|].
  apply (contrast_ratio_black_white_and_self (12, 200, 99)%Z H).
Defined.

(** C6.  The contrast ratio is symmetric: exchanging the two colours does
    not change it. *)
Theorem contrast_ratio_symmetric (a b : Color) :
  _calculate_contrast_ratio a b = _calculate_contrast_ratio b a.
Proof.
  unfold _calculate_contrast_ratio, float_max, float_min.
  destruct (Rlt_dec (get_luminance a) (get_luminance b)),
           (Rlt_dec (get_luminance b) (get_luminance a));
    try reflexivity; try lra.
  replace (get_luminance b) with (get_luminance a) by lra. reflexivity.
Qed.

(** C10.  For two RGB triples with channels in 0..255 the contrast ratio,
    over the reals, lies between 1 and 21; in particular the comparison
    [contrast_ratio >= 1] of the element check always succeeds. *)
Theorem contrast_ratio_range (a b : Color) (Ha : is_rgb a) (Hb : is_rgb b) :
  1 <= _calculate_contrast_ratio a b <= 21 /\
  geb_R (_calculate_contrast_ratio a b) 1 = true.
Proof.
  assert (H : 1 <= _calculate_contrast_ratio a b <= 21).
  { unfold _calculate_contrast_ratio.
    apply ratio_of_luminances; apply luminance_bounds; assumption. }
  split; [exact H|].
  unfold geb_R. destruct (Rle_dec 1 (_calculate_contrast_ratio a b)); tauto.
Qed.

Lemma contrast_ratio_range_witness :
  1 <= _calculate_contrast_ratio (119, 119, 119)%Z (255, 255, 255)%Z <= 21.
Proof.
  apply (contrast_ratio_range (119, 119, 119)%Z (255, 255, 255)%Z);
    simpl; lia.
Defined.

End ContrastFacts.

(** ** Colours that cannot be parsed *)

Section ContrastVerdict.

Import Accessibility.

(** C7.  ["rgb(255, 0, 0)"] and ["#ff0000"] both parse to (255,0,0);
    ["transparent"] does not parse (the result is [None], not a colour); and
    when the text colour or the background colour of an element does not
    parse, the contrast result of the element has not passed and its single
    check carries the message "Could not determine text or background
    color". *)
Theorem unparsed_color_fails_contrast
    (min_contrast_ratio large_text_ratio : R) (WebElement : Type)
    (find_element : string -> string -> outcome WebElement)
    (computed_style : WebElement -> outcome Styles)
    (py_float : string -> outcome R)
    (format_2f format_float : R -> string) (str_exn : exn -> string)
    (element_spec : ElementSpec) (elt : WebElement) (styles : Styles)
    (Hfound :
       find_element
         (match by_type element_spec with Some b => b | None => "css selector" end)
         (selector element_spec) = Return elt)
    (Hstyles : computed_style elt = Return styles)
    (Hunparsed : _parse_color (color styles) = None \/
                 _parse_color (backgroundColor styles) = None) :
  _parse_color "rgb(255, 0, 0)" = Some (255, 0, 0) /\
  _parse_color "#ff0000" = Some (255, 0, 0) /\
  _parse_color "transparent" = None /\
  _check_element_contrast min_contrast_ratio large_text_ratio WebElement
      find_element computed_style py_float format_2f format_float str_exn
      element_spec =
    Return (mkResult (selector element_spec) false
              [mkCheck "contrast_ratio" false
                 "Could not determine text or background color"
                 None None None]).
Proof.
  repeat split; try reflexivity.
  unfold _check_element_contrast. rewrite Hfound. cbn [bind].
  rewrite Hstyles. cbn [bind]. unfold contrast_body.
  destruct Hunparsed as [H | H]; rewrite H.
  - reflexivity.
  - destruct (_parse_color (color styles)); reflexivity.
Qed.

Lemma unparsed_color_fails_contrast_witness :
  _check_element_contrast 4.5%R 3.0%R unit
      (fun _ _ => Return tt)
      (fun _ => Return (mkStyles "rgb(0, 0, 0)" "transparent" "16px" "400"))
      (fun _ => Return 16%R) (fun _ => "") (fun _ => "") (fun _ => "")
      (mkElementSpec "p.lead" None) =
    Return (mkResult "p.lead" false
              [mkCheck "contrast_ratio" false
                 "Could not determine text or background color"
                 None None None]).
Proof.
  apply (unparsed_color_fails_contrast 4.5%R 3.0%R unit
           (fun _ _ => Return tt)
           (fun _ => Return (mkStyles "rgb(0, 0, 0)" "transparent" "16px" "400"))
           (fun _ => Return 16%R) (fun _ => "") (fun _ => "") (fun _ => "")
           (mkElementSpec "p.lead" None) tt
           (mkStyles "rgb(0, 0, 0)" "transparent" "16px" "400")).
  - reflexivity.
  - reflexivity.
  - right. reflexivity.
Defined.

End ContrastVerdict.

(** ** Bitmap comparison *)

Section BitmapFacts.

Import Visual.

Lemma size_eqb_refl (s : Z * Z) : size_eqb s s = true.
Proof. unfold size_eqb. now rewrite !Z.eqb_refl. Qed.

Lemma size_eqb_neq (s t : Z * Z) : s <> t -> size_eqb s t = false.
Proof.
  destruct s as [a b], t as [c d]. intros H. unfold size_eqb. simpl.
  destruct (Z.eqb_spec a c) as [-> | ?]; [|reflexivity].
  destruct (Z.eqb_spec b d) as [-> | ?]; [|reflexivity].
  now contradiction H.
Qed.

Lemma combine_repeat {A B : Type} (a : A) (b : B) (n : nat) :
  combine (repeat a n) (repeat b n) = repeat (a, b) n.
Proof. induction n as [|n IH]; simpl; [reflexivity | now rewrite IH]. Qed.

Lemma map_repeat {A B : Type} (f : A -> B) (a : A) (n : nat) :
  map f (repeat a n) = repeat (f a) n.
Proof. induction n as [|n IH]; simpl; [reflexivity | now rewrite IH]. Qed.

Lemma sum_repeat (v : Z) (n : nat) : sum_Z (repeat v n) = Z.of_nat n * v.
Proof.
  induction n as [|n IH]; [reflexivity|].
  cbn [repeat sum_Z fold_right]. fold (sum_Z (repeat v n)). rewrite IH. lia.
Qed.

Lemma filter_repeat_true {A : Type} (p : A -> bool) (a : A) (n : nat) :
  p a = true -> filter p (repeat a n) = repeat a n.
Proof.
  intros H. induction n as [|n IH]; simpl; [reflexivity|].
  now rewrite H, IH.
Qed.

Lemma np_mean_repeat (v : Z) (n : nat) :
  np_mean (repeat v (S n)) =
  Num (inject_Z (Z.of_nat (S n) * v) / inject_Z (Z.of_nat (S n))).
Proof.
  rewrite <- sum_repeat.
  change (repeat v (S n)) with (v :: repeat v n) at 1.
  unfold np_mean. change (v :: repeat v n) with (repeat v (S n)).
  now rewrite repeat_length.
Qed.

Lemma Qdiv_same_scaled (k v : Z) :
  (0 < k)%Z -> inject_Z (k * v) / inject_Z k == inject_Z v.
Proof.
  intros Hk. rewrite inject_Z_mult.
  field. intros H. apply (Qeq_bool_neq (inject_Z k) 0); [|exact H].
  unfold Qeq_bool, inject_Z. simpl. apply Z.eqb_neq. lia.
Qed.

(** What [_compare_images] computes on two solid RGB images of one size. *)
Lemma compare_solid
    (tolerance : Z) (resize : Image -> Z * Z -> Resampling -> Image)
    (convert : Image -> string -> Image) (w h : nat) (a b : Z) :
  _compare_images tolerance resize convert (solid w h a) (solid w h b) =
  let n := (w * h * 3)%nat in
  let d := Z.abs (a - b) in
  let different :=
    Z.of_nat (length (filter (fun d => tolerance <? d) (repeat d n))) in
  (one_minus_over (np_mean (repeat (uint8_square (uint8_sub a b)) n)) (255 ^ 2),
   [ ("mse", VFloat (np_mean (repeat (uint8_square (uint8_sub a b)) n)));
     ("different_pixels", VInt different);
     ("total_pixels", VInt (Z.of_nat n));
     ("difference_percentage", VFloat (percentage different (Z.of_nat n))) ]).
Proof.
  unfold _compare_images, normalize_size, to_rgb, solid, difference.
  cbn [size mode samples]. rewrite size_eqb_refl. cbn [negb].
  cbn [String.eqb Ascii.eqb Bool.eqb negb mode samples].
  rewrite combine_repeat, !map_repeat. cbn [fst snd].
  now rewrite repeat_length.
Qed.

(** C1.  On a solid-black reference and a solid-white actual image of one
    non-empty size, [_compare_images] reports a difference percentage of 100
    (for a tolerance below 255), but a mean squared error of 1 and a
    similarity of 1 - 1/65025, not 0: the squared differences are taken in
    [uint8], where 0 - 255 wraps to 1. *)
Theorem black_white_similarity_wraps
    (tolerance : Z) (resize : Image -> Z * Z -> Resampling -> Image)
    (convert : Image -> string -> Image) (w h : nat)
    (Hsize : (0 < w * h)%nat) (Htol : tolerance < 255) :
  exists mse similarity percent,
    _compare_images tolerance resize convert (solid w h 0) (solid w h 255) =
      (Num similarity,
       [ ("mse", VFloat (Num mse));
         ("different_pixels", VInt (Z.of_nat (w * h * 3)));
         ("total_pixels", VInt (Z.of_nat (w * h * 3)));
         ("difference_percentage", VFloat (Num percent)) ]) /\
    mse == 1 /\ similarity == 65024 # 65025 /\ ~ similarity == 0 /\
    percent == 100.
Proof.
  rewrite compare_solid. cbv zeta.
  destruct (w * h * 3)%nat as [|k] eqn:Hn; [lia|].
  change (uint8_square (uint8_sub 0 255)) with 1.
  change (Z.abs (0 - 255)) with 255.
  rewrite filter_repeat_true by (apply Z.ltb_lt; exact Htol).
  rewrite repeat_length, np_mean_repeat.
  unfold percentage, one_minus_over.
  destruct (Z.eqb_spec (Z.of_nat (S k)) 0) as [H0 | _]; [lia|].
  do 3 eexists. split; [reflexivity|].
  assert (Hk : (0 < Z.of_nat (S k))%Z) by lia.
  pose proof (Qdiv_same_scaled _ 1 Hk) as Hone.
  pose proof Hone as Hself. rewrite Z.mul_1_r in Hself.
  repeat split.
  - exact Hone.
  - rewrite Hone. reflexivity.
  - rewrite Hone. discriminate.
  - rewrite Hself. reflexivity.
Qed.

Lemma black_white_similarity_wraps_witness :
  exists mse similarity percent,
    _compare_images 5 (fun img _ _ => img) (fun img _ => img)
        (solid 2 1 0) (solid 2 1 255) =
      (Num similarity,
       [ ("mse", VFloat (Num mse));
         ("different_pixels", VInt 6);
         ("total_pixels", VInt 6);
         ("difference_percentage", VFloat (Num percent)) ]) /\
    mse == 1 /\ similarity == 65024 # 65025 /\ ~ similarity == 0 /\
    percent == 100.
Proof.
  apply (black_white_similarity_wraps 5 (fun img _ _ => img)
           (fun img _ => img) 2 1); simpl; lia.
Defined.

(** C2, as stated, fails: for a 2x2 reference and a 1x1 actual image the
    resize takes place, yet neither the metrics nor the details of the
    verdict have an entry [resized]. *)
Lemma metrics_have_no_resized_entry :
  let reference := solid 2 2 0 in
  let actual := solid 1 1 0 in
  let compared :=
    _compare_images 5 resize_solid (fun img _ => img) reference actual in
  let verdict :=
    verify_loaded (95 # 100) 5 resize_solid (fun img _ => img) (fun _ => "")
      reference actual in
  size reference <> size actual /\
  get (snd compared) "resized" = None /\
  keys (snd compared) =
    ["mse"; "different_pixels"; "total_pixels"; "difference_percentage"] /\
  option_map (map fst) (details verdict) =
    Some ["similarity"; "differences"; "threshold"].
Proof.
  cbv zeta. split; [discriminate|]. repeat split; reflexivity.
Qed.

(** C2, amended.  When the sizes differ the comparison is the comparison of
    the reference with the actual image resized to the reference's size by
    the LANCZOS filter; the reference is not resized.  For every pair of
    images the metrics are exactly [mse], [different_pixels], [total_pixels]
    and [difference_percentage]: whether a resize took place is not
    recorded. *)
Theorem actual_resized_and_not_recorded
    (tolerance : Z) (resize : Image -> Z * Z -> Resampling -> Image)
    (convert : Image -> string -> Image) (img1 img2 : Image)
    (Hresize : forall img sz filter, size (resize img sz filter) = sz) :
  (size img1 <> size img2 ->
   _compare_images tolerance resize convert img1 img2 =
   _compare_images tolerance resize convert img1
     (resize img2 (size img1) LANCZOS)) /\
  (size img1 = size img2 -> normalize_size resize img1 img2 = img2) /\
  keys (snd (_compare_images tolerance resize convert img1 img2)) =
    ["mse"; "different_pixels"; "total_pixels"; "difference_percentage"] /\
  get (snd (_compare_images tolerance resize convert img1 img2)) "resized"
    = None.
Proof.
  split; [|split; [|split; reflexivity]].
  - intros Hdiff. unfold _compare_images, normalize_size.
    rewrite (size_eqb_neq _ _ Hdiff), Hresize, size_eqb_refl.
    reflexivity.
  - intros Hsame. unfold normalize_size.
    now rewrite Hsame, size_eqb_refl.
Qed.

Lemma actual_resized_and_not_recorded_witness :
  _compare_images 5 resize_solid (fun img _ => img)
    (solid 2 2 0) (solid 1 1 255) =
  _compare_images 5 resize_solid (fun img _ => img)
    (solid 2 2 0) (resize_solid (solid 1 1 255) (2, 2) LANCZOS).
Proof.
  apply (actual_resized_and_not_recorded 5 resize_solid (fun img _ => img)
           (solid 2 2 0) (solid 1 1 255)).
  - intros img sz filter. reflexivity.
  - simpl. discriminate.
Defined.

End BitmapFacts.

(** ** Colour parsing *)

Section ParseFacts.

Import Accessibility.

Lemma span_sound (p : ascii -> bool) (s a b : string) :
  span p s = (a, b) -> s = a ++ b /\ all_of p a.
Proof.
  revert a b. induction s as [|c t IH]; intros a b H; simpl in H.
  - inversion H; subst. split; reflexivity.
  - destruct (p c) eqn:Hc.
    + destruct (span p t) as [a' b'] eqn:Ht. inversion H; subst.
      destruct (IH a' b eq_refl) as [-> Ha]. split; [reflexivity|].
      unfold all_of in *. simpl. now rewrite Hc, Ha.
    + inversion H; subst. split; reflexivity.
Qed.

Lemma many1_sound (p : ascii -> bool) (s a b : string) :
  many1 p s = Some (a, b) -> s = a ++ b /\ a <> "" /\ all_of p a.
Proof.
  unfold many1. destruct (span p s) as [a' b'] eqn:Hs. intros H.
  destruct a' as [|c a'']; [discriminate|]. inversion H; subst.
  destruct (span_sound _ _ _ _ Hs) as [-> Ha].
  repeat split; [discriminate | exact Ha].
Qed.

Lemma lit_sound (l s t : string) : lit l s = Some t -> s = l ++ t.
Proof.
  revert s. induction l as [|a l IH]; intros s H; simpl in H.
  - now inversion H.
  - destruct s as [|c s']; [discriminate|].
    destruct (Ascii.eqb_spec a c) as [-> | ?]; [|discriminate].
    simpl. now rewrite (IH _ H).
Qed.

Lemma spaces_sound (s : string) : exists w, s = w ++ spaces s /\ blank w.
Proof.
  unfold spaces. destruct (span is_space s) as [w r] eqn:Hs.
  exists w. exact (span_sound _ _ _ _ Hs).
Qed.

Lemma hex2_sound (s h t : string) :
  hex2 s = Some (h, t) -> s = h ++ t /\ hex_pair h.
Proof.
  unfold hex2. destruct s as [|a [|b r]]; try discriminate.
  destruct (is_hex a) eqn:Ha; [|discriminate].
  destruct (is_hex b) eqn:Hb; [|discriminate].
  simpl. intros H. inversion H; subst.
  split; [reflexivity|]. split; [reflexivity|].
  unfold all_of. simpl. now rewrite Ha, Hb.
Qed.

Lemma digit_value (c : ascii) :
  is_digit c = true -> 0 <= Z.of_nat (nat_of_ascii c) - 48 <= 9.
Proof.
  unfold is_digit. rewrite andb_true_iff, !Nat.leb_le. lia.
Qed.

Lemma fold_digits_nonneg (l : list ascii) (acc : Z) :
  forallb is_digit l = true -> 0 <= acc ->
  0 <= fold_left (fun acc c => 10 * acc + (Z.of_nat (nat_of_ascii c) - 48))
         l acc.
Proof.
  revert acc.
  induction l as [|c l IH]; intros acc Hl Hacc; cbn [fold_left forallb] in *.
  - exact Hacc.
  - apply andb_true_iff in Hl. destruct Hl as [Hc Hl].
    apply IH; [exact Hl|]. pose proof (digit_value c Hc). lia.
Qed.

Lemma int_of_digits_nonneg (d : string) : number d -> 0 <= int_of_digits d.
Proof.
  intros [_ Hd]. unfold int_of_digits. apply fold_digits_nonneg; [exact Hd|lia].
Qed.

Lemma hex_value_range (c : ascii) : is_hex c = true -> 0 <= hex_value c <= 15.
Proof.
  unfold is_hex, hex_value. cbv zeta.
  rewrite !orb_true_iff, !andb_true_iff, !Nat.leb_le.
  intros H.
  destruct (Z.leb_spec (Z.of_nat (nat_of_ascii c)) 57);
    destruct (Z.leb_spec (Z.of_nat (nat_of_ascii c)) 70); lia.
Qed.

Lemma int_of_hex_pair (h : string) : hex_pair h -> 0 <= int_of_hex h <= 255.
Proof.
  intros [Hlen Hall]. destruct h as [|a [|b [|c r]]]; try discriminate.
  unfold all_of in Hall. simpl in Hall.
  rewrite andb_true_r in Hall. apply andb_true_iff in Hall.
  destruct Hall as [Ha Hb].
  pose proof (hex_value_range a Ha). pose proof (hex_value_range b Hb).
  unfold int_of_hex. cbn [list_ascii_of_string fold_left]. lia.
Qed.

Ltac unbind H :=
  repeat match type of H with
  | opt_bind ?m _ = Some _ =>
      let E := fresh "E" in
      (destruct m as [[? ?]|] eqn:E || destruct m as [?|] eqn:E);
      [cbn [opt_bind] in H | discriminate H]
  end.

Ltac sound_steps :=
  repeat match goal with
  | E : lit _ _ = Some _ |- _ => apply lit_sound in E
  | E : many1 _ _ = Some _ |- _ =>
      apply many1_sound in E; destruct E as (? & ? & ?)
  | E : hex2 _ = Some _ |- _ => apply hex2_sound in E; destruct E as (? & ?)
  end.

Lemma rgb_match_sound (s r g b : string) :
  rgb_match s = Some (r, g, b) ->
  exists w1 w2 rest,
    s = "rgb(" ++ r ++ "," ++ w1 ++ g ++ "," ++ w2 ++ b ++ ")" ++ rest /\
    number r /\ number g /\ number b /\ blank w1 /\ blank w2.
Proof.
  unfold rgb_match. intros H. unbind H. inversion H; subst; clear H.
  sound_steps.
  match goal with
  | Hg : spaces ?u = g ++ _, Hb : spaces ?v = b ++ _ |- _ =>
      destruct (spaces_sound u) as (w1 & Hu & Bu);
      destruct (spaces_sound v) as (w2 & Hv & Bv);
      rewrite Hg in Hu; rewrite Hb in Hv
  end.
  exists w1, w2. eexists. subst.
  split; [reflexivity|]. unfold number. tauto.
Qed.

Lemma rgba_match_sound (s r g b : string) :
  rgba_match s = Some (r, g, b) ->
  exists a w1 w2 w3 rest,
    s = "rgba(" ++ r ++ "," ++ w1 ++ g ++ "," ++ w2 ++ b ++ ","
                ++ w3 ++ a ++ ")" ++ rest /\
    number r /\ number g /\ number b /\ blank w1 /\ blank w2 /\ blank w3 /\
    a <> "" /\ all_of (fun c => is_digit c || Ascii.eqb c ".") a.
Proof.
  unfold rgba_match. intros H. unbind H. inversion H; subst; clear H.
  sound_steps.
  match goal with
  | Hg : spaces ?u = g ++ _, Hb : spaces ?v = b ++ _,
    Ha : spaces ?t = ?a ++ _ |- _ =>
      destruct (spaces_sound u) as (w1 & Hu & Bu);
      destruct (spaces_sound v) as (w2 & Hv & Bv);
      destruct (spaces_sound t) as (w3 & Ht & Bt);
      rewrite Hg in Hu; rewrite Hb in Hv; rewrite Ha in Ht;
      exists a, w1, w2, w3
  end.
  eexists. subst.
  split; [reflexivity|]. unfold number. tauto.
Qed.

Lemma hex_match_sound (s r g b : string) :
  hex_match s = Some (r, g, b) ->
  exists rest,
    s = "#" ++ r ++ g ++ b ++ rest /\ hex_pair r /\ hex_pair g /\ hex_pair b.
Proof.
  unfold hex_match. intros H. unbind H. inversion H; subst; clear H.
  sound_steps. eexists. subst. split; [reflexivity|]. tauto.
Qed.

(** C4, as stated, fails: a channel written above 255 is returned as it is
    written. *)
Lemma parse_color_channel_above_255 :
  _parse_color "rgb(300, 0, 0)" = Some (300, 0, 0) /\ ~ is_rgb (300, 0, 0).
Proof.
  split; [reflexivity|]. unfold is_rgb. lia.
Qed.

(** C4, amended.  When [_parse_color] returns a triple, the input starts
    with one of the three forms [rgb(r, g, b)], [rgba(r, g, b, a)] or
    [#RRGGBB] and the triple is the three numbers written there, neither
    guessed nor clamped; every channel is a non-negative integer, and for the
    hexadecimal form it lies in 0..255.  Any other input yields [None]. *)
Theorem parse_color_reads_what_is_written
    (s : string) (c : Color) (Hparsed : _parse_color s = Some c) :
  color_form s c /\
  (let '(r, g, b) := c in 0 <= r /\ 0 <= g /\ 0 <= b) /\
  (forall rest, s = "#" ++ rest -> is_rgb c) /\
  s <> "" /\ s <> "transparent".
Proof.
  unfold _parse_color in Hparsed.
  destruct (String.eqb_spec s "") as [-> | Hne]; [discriminate|].
  destruct (String.eqb_spec s "transparent") as [-> | Hnt]; [discriminate|].
  cbn [orb] in Hparsed.
  destruct (rgb_match s) as [[[r g] b]|] eqn:Hrgb.
  - inversion Hparsed; subst; clear Hparsed.
    destruct (rgb_match_sound _ _ _ _ Hrgb)
      as (w1 & w2 & rest & -> & Nr & Ng & Nb & B1 & B2).
    split; [now apply form_rgb|].
    split; [repeat split; now apply int_of_digits_nonneg|].
    split; [intros rest' Heq; discriminate Heq|].
    split; assumption.
  - destruct (rgba_match s) as [[[r g] b]|] eqn:Hrgba.
    + inversion Hparsed; subst; clear Hparsed.
      destruct (rgba_match_sound _ _ _ _ Hrgba)
        as (a & w1 & w2 & w3 & rest & -> & Nr & Ng & Nb & B1 & B2 & B3
            & Na & Da).
      split; [now apply form_rgba|].
      split; [repeat split; now apply int_of_digits_nonneg|].
      split; [intros rest' Heq; discriminate Heq|].
      split; assumption.
    + destruct (hex_match s) as [[[r g] b]|] eqn:Hhex; [|discriminate].
      inversion Hparsed; subst; clear Hparsed.
      destruct (hex_match_sound _ _ _ _ Hhex) as (rest & -> & Pr & Pg & Pb).
      pose proof (int_of_hex_pair r Pr). pose proof (int_of_hex_pair g Pg).
      pose proof (int_of_hex_pair b Pb).
      split; [now apply form_hex|].
      split; [lia|].
      split; [intros _ _; unfold is_rgb; lia|].
      split; assumption.
Qed.

Lemma parse_color_reads_what_is_written_witness :
  color_form "rgba(12, 34, 56, 0.5)" (12, 34, 56).
Proof.
  apply (parse_color_reads_what_is_written "rgba(12, 34, 56, 0.5)" (12, 34, 56)).
  reflexivity.
Defined.

End ParseFacts.

(** ** Grid alignment *)

Section GridFacts.

Import Layout.

Variable tolerance : Z.

Lemma alignment_block_returns (ty all_equal label : string)
    (positions : list Z) (result : Result) :
  positions <> [] ->
  exists msg,
    alignment_block tolerance ty all_equal label positions result =
    Return
      (let ok := within_tolerance tolerance positions in
       let r := append_check result (mkCheck ty ok msg None None) in
       if ok then r else set_passed r false).
Proof.
  intros Hne. unfold alignment_block, within_tolerance.
  destruct (len_set positions =? 1)%nat.
  - eexists. reflexivity.
  - destruct positions as [|a t]; [contradiction|].
    cbn [py_max py_min bind orb].
    destruct (fold_left Z.max t a - fold_left Z.min t a <=? tolerance);
      eexists; reflexivity.
Qed.

Lemma forallb_app_one (l : list Check) (c : Check) :
  forallb ck_passed (l ++ [c]) = forallb ck_passed l && ck_passed c.
Proof. rewrite forallb_app. simpl. now rewrite andb_true_r. Qed.

Lemma horizontal_returns (row : list Bounds) (elems : list ElementSpec) :
  row <> [] ->
  exists r,
    _check_horizontal_alignment tolerance row elems fresh_result = Return r /\
    map summary (checks r) =
      [ ("top_alignment", within_tolerance tolerance (map y row), None, None);
        ("center_alignment",
         within_tolerance tolerance (map (fun b => y b + height b / 2) row),
         None, None) ].
Proof.
  intros Hne. unfold _check_horizontal_alignment.
  assert (H1 : map y row <> []) by (destruct row; [contradiction|discriminate]).
  assert (H2 : map (fun b => y b + height b / 2) row <> [])
    by (destruct row; [contradiction|discriminate]).
  destruct (alignment_block_returns "top_alignment"
              "All elements aligned at top" "Top" _ fresh_result H1)
    as [m1 E1].
  rewrite E1. cbn [bind].
  match goal with
  | |- context [alignment_block _ _ _ _ _ ?res] =>
      destruct (alignment_block_returns "center_alignment"
                  "All elements center-aligned" "Center" _ res H2)
        as [m2 E2]
  end.
  rewrite E2. eexists. split; [reflexivity|].
  cbv zeta.
  destruct (within_tolerance tolerance (map y row));
    destruct (within_tolerance tolerance
                (map (fun b => y b + height b / 2) row));
    reflexivity.
Qed.

Lemma vertical_returns (column : list Bounds) (elems : list ElementSpec) :
  column <> [] ->
  exists r,
    _check_vertical_alignment tolerance column elems fresh_result = Return r /\
    map summary (checks r) =
      [ ("left_alignment", within_tolerance tolerance (map x column),
         None, None);
        ("center_alignment",
         within_tolerance tolerance (map (fun b => x b + width b / 2) column),
         None, None) ].
Proof.
  intros Hne. unfold _check_vertical_alignment.
  assert (H1 : map x column <> [])
    by (destruct column; [contradiction|discriminate]).
  assert (H2 : map (fun b => x b + width b / 2) column <> [])
    by (destruct column; [contradiction|discriminate]).
  destruct (alignment_block_returns "left_alignment"
              "All elements left-aligned" "Left" _ fresh_result H1)
    as [m1 E1].
  rewrite E1. cbn [bind].
  match goal with
  | |- context [alignment_block _ _ _ _ _ ?res] =>
      destruct (alignment_block_returns "center_alignment"
                  "All elements center-aligned" "Center" _ res H2)
        as [m2 E2]
  end.
  rewrite E2. eexists. split; [reflexivity|].
  cbv zeta.
  destruct (within_tolerance tolerance (map x column));
    destruct (within_tolerance tolerance
                (map (fun b => x b + width b / 2) column));
    reflexivity.
Qed.

Lemma absorb_checks (tag : Check -> Check) (sub result : Result) :
  checks (absorb tag sub result) = (checks result ++ map tag (checks sub))%list.
Proof.
  unfold absorb. generalize (checks sub) as l. intros l. revert result.
  induction l as [|c l IH]; intros result; cbn [fold_left map].
  - now rewrite app_nil_r.
  - rewrite IH. destruct (negb (ck_passed (tag c)));
      cbn [checks set_passed append_check]; now rewrite <- app_assoc.
Qed.

Lemma absorb_passed (tag : Check -> Check) (sub result : Result) :
  passed_tracks_checks result ->
  passed_tracks_checks (absorb tag sub result).
Proof.
  unfold absorb. generalize (checks sub) as l. intros l. revert result.
  induction l as [|c l IH]; intros result Hinv; cbn [fold_left].
  - exact Hinv.
  - apply IH. unfold passed_tracks_checks in *.
    destruct (ck_passed (tag c)) eqn:Hc;
      cbn [negb passed checks set_passed append_check];
      rewrite forallb_app_one, Hc.
    + now rewrite andb_true_r.
    + now rewrite andb_false_r.
Qed.

Lemma summary_tag_row (i : Z) (cs : list Check) :
  map summary (map (tag_row i) cs) =
  map (fun s => let '(t, p, _, c) := s in (t, p, Some i, c)) (map summary cs).
Proof. rewrite !map_map. reflexivity. Qed.

Lemma summary_tag_column (j : Z) (cs : list Check) :
  map summary (map (tag_column j) cs) =
  map (fun s => let '(t, p, r, _) := s in (t, p, r, Some j)) (map summary cs).
Proof. rewrite !map_map. reflexivity. Qed.

Lemma longer_than_one_nonempty {A : Type} (l : list A) :
  (1 <? length l)%nat = true -> l <> [].
Proof. destruct l; [discriminate|]. intros _. discriminate. Qed.

Lemma row_loop_returns (l : list (Z * list Bounds)) (result : Result) :
  exists r,
    row_loop tolerance l result = Return r /\
    map summary (checks r) =
      (map summary (checks result) ++ flat_map (row_summary tolerance) l)%list /\
    (passed_tracks_checks result -> passed_tracks_checks r).
Proof.
  revert result. induction l as [|[i row] l IH]; intros result.
  - exists result. cbn [row_loop flat_map]. rewrite app_nil_r. tauto.
  - cbn [row_loop flat_map row_summary].
    destruct (1 <? length row)%nat eqn:Hlen.
    + destruct (horizontal_returns row [] (longer_than_one_nonempty _ Hlen))
        as (sub & Esub & Hsub).
      rewrite Esub. cbn [bind].
      destruct (IH (absorb (tag_row i) sub result)) as (r & Er & Hr & Hp).
      exists r. split; [exact Er|]. split.
      * rewrite Hr, absorb_checks, map_app, summary_tag_row, Hsub.
        rewrite <- app_assoc. reflexivity.
      * intros Hinv. apply Hp. now apply absorb_passed.
    + destruct (IH result) as (r & Er & Hr & Hp).
      exists r. split; [exact Er|]. split; [|exact Hp].
      rewrite Hr. reflexivity.
Qed.

Lemma column_loop_returns (rows : list (list Bounds)) (cols : list Z)
    (result : Result) :
  exists r,
    column_loop tolerance rows cols result = Return r /\
    map summary (checks r) =
      (map summary (checks result)
       ++ flat_map (column_summary tolerance rows) cols)%list /\
    (passed_tracks_checks result -> passed_tracks_checks r).
Proof.
  revert result. induction cols as [|j cols IH]; intros result.
  - exists result. cbn [column_loop flat_map]. rewrite app_nil_r. tauto.
  - cbn [column_loop flat_map]. unfold column_summary at 1.
    destruct (1 <? length (column_of rows j))%nat eqn:Hlen.
    + destruct (vertical_returns (column_of rows j) []
                  (longer_than_one_nonempty _ Hlen)) as (sub & Esub & Hsub).
      rewrite Esub. cbn [bind].
      destruct (IH (absorb (tag_column j) sub result)) as (r & Er & Hr & Hp).
      exists r. split; [exact Er|]. split.
      * rewrite Hr, absorb_checks, map_app, summary_tag_column, Hsub.
        rewrite <- app_assoc. reflexivity.
      * intros Hinv. apply Hp. now apply absorb_passed.
    + destruct (IH result) as (r & Er & Hr & Hp).
      exists r. split; [exact Er|]. split; [|exact Hp].
      rewrite Hr. reflexivity.
Qed.

Lemma rows_are_grid_rows (bounds_list : list Bounds) (columns : Z) :
  0 < columns ->
  map (fun i => py_slice bounds_list i (i + columns))
      (map (fun k => Z.of_nat k * columns)
           (seq 0 (Z.to_nat ((Z.of_nat (length bounds_list) + columns - 1)
                             / columns)))) =
  grid_rows bounds_list columns.
Proof.
  intros Hc. unfold grid_rows. rewrite map_map. apply map_ext. intros k.
  unfold py_slice. f_equal; [f_equal; lia|]. f_equal. nia.
Qed.

(** What the grid check returns for a positive column count. *)
Lemma grid_alignment_reports (bounds_list : list Bounds)
    (elems : list ElementSpec) (check : AlignmentSpec) (result : Result) :
  let columns := match spec_columns check with Some c => c | None => 2 end in
  let rows := grid_rows bounds_list columns in
  0 < columns ->
  exists r,
    _check_grid_alignment tolerance bounds_list elems check result = Return r /\
    map summary (checks r) =
      (map summary (checks result)
       ++ flat_map (row_summary tolerance) (enumerate rows)
       ++ flat_map (column_summary tolerance rows) (py_range columns))%list /\
    (passed_tracks_checks result -> passed_tracks_checks r).
Proof.
  intros columns rows Hc. unfold _check_grid_alignment.
  fold columns.
  destruct (Z.eqb_spec columns 0) as [H0 | _]; [lia|]. cbn [bind].
  unfold py_range_step.
  destruct (Z.eqb_spec columns 0) as [H0 | _]; [lia|].
  destruct (Z.ltb_spec 0 columns) as [_ | H0]; [|lia]. cbn [bind].
  rewrite (rows_are_grid_rows bounds_list columns Hc). fold rows.
  destruct (row_loop_returns (enumerate rows) result) as (r1 & E1 & H1 & P1).
  rewrite E1. cbn [bind].
  destruct (column_loop_returns rows (py_range columns) r1)
    as (r2 & E2 & H2 & P2).
  exists r2. split; [exact E2|]. split.
  - rewrite H2, H1, <- app_assoc. reflexivity.
  - intros Hinv. apply P2, P1, Hinv.
Qed.

End GridFacts.

(** C3, as stated, fails.  With three boxes in two columns the second row
    and the second column hold a single box and nothing is reported for
    them.  With six boxes in three columns, a second row moved as a whole by
    20 pixels gives no failing row: moved to the right, both rows pass and
    the three columns fail; moved down, every check passes. *)
Lemma grid_single_box_row_not_reported :
  (exists r,
     Layout._check_grid_alignment 5
       [Layout.box 0 0; Layout.box 100 0; Layout.box 0 60] []
       (Layout.mkAlignmentSpec [] (Some "grid") (Some 2) None)
       (Layout.mkResult None (Some "grid") (Some true) []) = Return r /\
     Layout.grid_rows [Layout.box 0 0; Layout.box 100 0; Layout.box 0 60] 2 =
       [[Layout.box 0 0; Layout.box 100 0]; [Layout.box 0 60]] /\
     map Layout.summary (Layout.checks r) =
       [ ("top_alignment", true, Some 0, None);
         ("center_alignment", true, Some 0, None);
         ("left_alignment", true, None, Some 0);
         ("center_alignment", true, None, Some 0) ]) /\
  (exists r,
     Layout._check_grid_alignment 5
       [Layout.box 0 0; Layout.box 100 0; Layout.box 200 0;
        Layout.box 20 60; Layout.box 120 60; Layout.box 220 60] []
       (Layout.mkAlignmentSpec [] (Some "grid") (Some 3) None)
       (Layout.mkResult None (Some "grid") (Some true) []) = Return r /\
     map Layout.summary (Layout.checks r) =
       [ ("top_alignment", true, Some 0, None);
         ("center_alignment", true, Some 0, None);
         ("top_alignment", true, Some 1, None);
         ("center_alignment", true, Some 1, None);
         ("left_alignment", false, None, Some 0);
         ("center_alignment", false, None, Some 0);
         ("left_alignment", false, None, Some 1);
         ("center_alignment", false, None, Some 1);
         ("left_alignment", false, None, Some 2);
         ("center_alignment", false, None, Some 2) ]) /\
  (exists r,
     Layout._check_grid_alignment 5
       [Layout.box 0 0; Layout.box 100 0; Layout.box 200 0;
        Layout.box 0 80; Layout.box 100 80; Layout.box 200 80] []
       (Layout.mkAlignmentSpec [] (Some "grid") (Some 3) None)
       (Layout.mkResult None (Some "grid") (Some true) []) = Return r /\
     forallb Layout.ck_passed (Layout.checks r) = true).
Proof.
  split; [|split]; eexists; repeat split; reflexivity.
Qed.

(** C3, amended.  For a positive column count the grid check returns, and
    its checks are, in order, the two reports (top and centre) of every row
    that holds at least two boxes, tagged with the row index, then the two
    reports (left and centre) of every column that holds at least two
    boxes, tagged with the column index; a row or column of a single box is
    skipped; a failed check stops nothing, and the result has passed exactly
    when every reported check passed.  For six boxes in three columns whose
    second row has its middle box 20 pixels lower than its neighbours, with
    tolerance 5, the two checks of the second row fail and the checks of the
    first row and of the three columns pass. *)
Theorem grid_reports_every_row_and_column
    (tolerance : Z) (bounds_list : list Bounds)
    (elems : list Layout.ElementSpec) (check : Layout.AlignmentSpec)
    (Hcolumns :
       0 < match Layout.spec_columns check with Some c => c | None => 2 end) :
  (let columns :=
     match Layout.spec_columns check with Some c => c | None => 2 end in
   let rows := Layout.grid_rows bounds_list columns in
   exists r,
     Layout._check_grid_alignment tolerance bounds_list elems check
       (Layout.mkResult (Some elems) (Some "grid") (Some true) []) = Return r /\
     map Layout.summary (Layout.checks r) =
       (flat_map (Layout.row_summary tolerance) (enumerate rows)
        ++ flat_map (Layout.column_summary tolerance rows)
                    (py_range columns))%list /\
     Layout.passed r = Some (forallb Layout.ck_passed (Layout.checks r))) /\
  (exists r,
     Layout._check_grid_alignment 5
       [Layout.box 0 0; Layout.box 100 0; Layout.box 200 0;
        Layout.box 0 60; Layout.box 100 80; Layout.box 200 60] []
       (Layout.mkAlignmentSpec [] (Some "grid") (Some 3) None)
       (Layout.mkResult (Some []) (Some "grid") (Some true) []) = Return r /\
     map Layout.summary (Layout.checks r) =
       [ ("top_alignment", true, Some 0, None);
         ("center_alignment", true, Some 0, None);
         ("top_alignment", false, Some 1, None);
         ("center_alignment", false, Some 1, None);
         ("left_alignment", true, None, Some 0);
         ("center_alignment", true, None, Some 0);
         ("left_alignment", true, None, Some 1);
         ("center_alignment", true, None, Some 1);
         ("left_alignment", true, None, Some 2);
         ("center_alignment", true, None, Some 2) ] /\
     Layout.passed r = Some false).
Proof.
  split.
  - cbv zeta.
    destruct (grid_alignment_reports tolerance bounds_list elems check
                (Layout.mkResult (Some elems) (Some "grid") (Some true) [])
                Hcolumns) as (r & Er & Hr & Hp).
    exists r. split; [exact Er|]. split; [exact Hr|].
    apply Hp. reflexivity.
  - eexists. repeat split; reflexivity.
Qed.

Lemma grid_reports_every_row_and_column_witness :
  exists r,
    Layout._check_grid_alignment 5
      [Layout.box 0 0; Layout.box 100 3; Layout.box 0 60; Layout.box 130 60;
       Layout.box 0 120] []
      (Layout.mkAlignmentSpec [] (Some "grid") None None)
      (Layout.mkResult (Some []) (Some "grid") (Some true) []) = Return r /\
    map Layout.summary (Layout.checks r) =
      [ ("top_alignment", true, Some 0, None);
        ("center_alignment", true, Some 0, None);
        ("top_alignment", true, Some 1, None);
        ("center_alignment", true, Some 1, None);
        ("left_alignment", true, None, Some 0);
        ("center_alignment", true, None, Some 0);
        ("left_alignment", false, None, Some 1);
        ("center_alignment", false, None, Some 1) ] /\
    Layout.passed r = Some (forallb Layout.ck_passed (Layout.checks r)).
Proof.
  assert (Hcolumns : 0 < 2) by lia.
  exact (proj1 (grid_reports_every_row_and_column 5
                  [Layout.box 0 0; Layout.box 100 3; Layout.box 0 60;
                   Layout.box 130 60; Layout.box 0 120] []
                  (Layout.mkAlignmentSpec [] (Some "grid") None None)
                  Hcolumns)).
Defined.

(** ** Further properties of the bitmap comparison *)

Section BitmapMore.

Import Visual.

Variable tolerance : Z.
Variable resize : Image -> Z * Z -> Resampling -> Image.
Variable convert : Image -> string -> Image.

Lemma sum_Z_bounds (l : list Z) (lo hi : Z) :
  Forall (fun v => lo <= v <= hi) l ->
  Z.of_nat (length l) * lo <= sum_Z l <= Z.of_nat (length l) * hi.
Proof.
  induction 1 as [|v l Hv _ IH]; [simpl; lia|].
  cbn [sum_Z fold_right length]. fold (sum_Z l). lia.
Qed.

Lemma uint8_square_range (a b : Z) : 0 <= uint8_square (uint8_sub a b) <= 255.
Proof.
  unfold uint8_square.
  pose proof (Z.mod_pos_bound (uint8_sub a b * uint8_sub a b) 256). lia.
Qed.

Lemma squared_errors_range (a b : list Z) :
  Forall (fun v => 0 <= v <= 255)
    (map (fun p => uint8_square (uint8_sub (fst p) (snd p))) (combine a b)).
Proof.
  apply Forall_forall. intros v Hin. apply in_map_iff in Hin.
  destruct Hin as (p & <- & _). apply uint8_square_range.
Qed.

Lemma combine_nonempty {A B : Type} (a : list A) (b : list B) :
  a <> [] -> b <> [] -> combine a b <> [].
Proof. destruct a, b; try contradiction; discriminate. Qed.

Local Open Scope Q_scope.

Lemma np_mean_bounds (l : list Z) (hi : Z) :
  l <> [] -> Forall (fun v => (0 <= v <= hi)%Z) l ->
  exists m, np_mean l = Num m /\ 0 <= m /\ m <= inject_Z hi.
Proof.
  intros Hne Hall. destruct l as [|a t]; [contradiction|].
  eexists. split; [reflexivity|].
  pose proof (sum_Z_bounds _ _ _ Hall) as [Hlo Hhi].
  set (n := Z.of_nat (length (a :: t))) in *.
  assert (Hn : (0 < n)%Z) by (subst n; cbn [length]; lia).
  assert (Hq : 0 < inject_Z n) by (unfold Qlt; simpl; lia).
  split.
  - apply Qle_shift_div_l; [exact Hq|]. rewrite Qmult_0_l.
    unfold Qle, inject_Z. cbn [Qnum Qden]. lia.
  - apply Qle_shift_div_r; [exact Hq|]. rewrite <- inject_Z_mult.
    rewrite <- Zle_Qle. lia.
Qed.

(** Whatever the two images are, as long as some sample is compared, the
    similarity lies between 254/255 and 1: every squared difference is
    reduced modulo 256 before it is averaged. *)
Lemma similarity_floor (img1 img2 : Image)
    (H1 : samples (to_rgb convert img1) <> [])
    (H2 : samples (to_rgb convert (normalize_size resize img1 img2)) <> []) :
  exists s,
    fst (_compare_images tolerance resize convert img1 img2) = Num s /\
    254 # 255 <= s /\ s <= 1.
Proof.
  unfold _compare_images. cbn [fst].
  destruct (np_mean_bounds _ 255
              (fun H => combine_nonempty _ _ H1 H2
                          (map_eq_nil _ _ H))
              (squared_errors_range (samples (to_rgb convert img1))
                 (samples (to_rgb convert (normalize_size resize img1 img2)))))
    as (m & Em & Hlo & Hhi).
  rewrite Em. unfold one_minus_over. eexists. split; [reflexivity|].
  change (255 ^ 2)%Z with 65025%Z.
  assert (Hu : m / inject_Z 65025 <= 1 # 255).
  { apply Qle_shift_div_r; [reflexivity|].
    change ((1 # 255) * inject_Z 65025) with ((1 # 255) * (65025 # 1)).
    change (inject_Z 255) with (255 # 1) in Hhi. Lqa.lra. }
  assert (Hl : 0 <= m / inject_Z 65025).
  { apply Qle_shift_div_l; [reflexivity|]. Lqa.lra. }
  split; Lqa.lra.
Qed.

(** X1.  For any two images with at least one sample to compare, the
    similarity computed by [_compare_images] lies between 254/255 and 1, so
    the verdict of the comparator is PASS for every threshold up to 254/255,
    the default 0.95 included, however different the images are. *)
Theorem comparison_passes_up_to_254_255
    (threshold : Q) (format_2f : float64 -> string) (img1 img2 : Image)
    (H1 : samples (to_rgb convert img1) <> [])
    (H2 : samples (to_rgb convert (normalize_size resize img1 img2)) <> [])
    (Hthreshold : threshold <= 254 # 255) :
  (exists s,
     fst (_compare_images tolerance resize convert img1 img2) = Num s /\
     254 # 255 <= s /\ s <= 1) /\
  status (verify_loaded threshold tolerance resize convert format_2f
            img1 img2) = PASS.
Proof.
  pose proof (similarity_floor img1 img2 H1 H2) as (s & Es & Hlo & Hhi).
  split; [exists s; auto|].
  unfold verify_loaded.
  destruct (_compare_images tolerance resize convert img1 img2)
    as [similarity differences].
  cbn [fst] in Es. subst similarity. cbn [float64_geb].
  assert (Hge : Qle_bool threshold s = true).
  { apply Qle_bool_iff. apply Qle_trans with (254 # 255); assumption. }
  rewrite Hge. reflexivity.
Qed.

Lemma map_combine_diag {A B : Type} (g : A * A -> B) (a : list A) :
  map g (combine a a) = map (fun v => g (v, v)) a.
Proof. induction a as [|v a IH]; simpl; [reflexivity | now rewrite IH]. Qed.

Lemma map_const_repeat {A B : Type} (b : B) (a : list A) :
  map (fun _ => b) a = repeat b (length a).
Proof. induction a as [|v a IH]; simpl; [reflexivity | now rewrite IH]. Qed.

Lemma filter_repeat_false {A : Type} (p : A -> bool) (a : A) (n : nat) :
  p a = false -> filter p (repeat a n) = [].
Proof.
  intros H. induction n as [|n IH]; simpl; [reflexivity|]. now rewrite H.
Qed.

(** X2.  An image compared with itself: the mean squared error is 0, the
    similarity is 1, no sample counts as different (for a non-negative
    tolerance) and the difference percentage is 0. *)
Theorem image_equals_itself (img : Image)
    (Hsamples : samples (to_rgb convert img) <> [])
    (Htolerance : (0 <= tolerance)%Z) :
  exists mse similarity percent,
    _compare_images tolerance resize convert img img =
      (Num similarity,
       [ ("mse", VFloat (Num mse));
         ("different_pixels", VInt 0);
         ("total_pixels",
            VInt (Z.of_nat (length (samples (to_rgb convert img)))));
         ("difference_percentage", VFloat (Num percent)) ]) /\
    mse == 0 /\ similarity == 1 /\ percent == 0.
Proof.
  unfold _compare_images, normalize_size, difference.
  rewrite size_eqb_refl. cbn [negb].
  set (a := samples (to_rgb convert img)) in *.
  rewrite !map_combine_diag. cbn [fst snd].
  assert (Hsq : forall v, uint8_square (uint8_sub v v) = 0%Z).
  { intros v. unfold uint8_square, uint8_sub. now rewrite Z.sub_diag. }
  rewrite (map_ext _ (fun _ => 0%Z) Hsq).
  rewrite (map_ext (fun v => Z.abs (v - v)) (fun _ => 0%Z))
    by (intros v; now rewrite Z.sub_diag).
  rewrite !map_const_repeat.
  rewrite filter_repeat_false by (apply Z.ltb_ge; exact Htolerance).
  rewrite repeat_length. cbn [length Z.of_nat].
  destruct (length a) as [|n] eqn:Hlen.
  { destruct a; [contradiction | discriminate]. }
  rewrite np_mean_repeat. unfold percentage, one_minus_over.
  destruct (Z.eqb_spec (Z.of_nat (S n)) 0) as [H0 | _]; [lia|].
  do 3 eexists. split; [reflexivity|].
  assert (Hn : (0 < Z.of_nat (S n))%Z) by lia.
  pose proof (Qdiv_same_scaled _ 0 Hn) as Hzero.
  split; [exact Hzero|]. split.
  - rewrite Hzero. reflexivity.
  - unfold Qdiv. rewrite Qmult_0_l. reflexivity.
Qed.

Lemma uint8_square_sub_swap (v w : Z) :
  uint8_square (uint8_sub v w) = uint8_square (uint8_sub w v).
Proof.
  unfold uint8_square, uint8_sub.
  rewrite <- !Z.mul_mod by lia. f_equal. lia.
Qed.

Lemma map_combine_swap {A B : Type} (g h : A * A -> B) (a b : list A) :
  (forall v w, g (v, w) = h (w, v)) ->
  map g (combine a b) = map h (combine b a).
Proof.
  intros Hgh. revert b.
  induction a as [|v a IH]; intros [|w b]; simpl; try reflexivity.
  now rewrite Hgh, IH.
Qed.

(** X3.  For two RGB images of one size the comparison does not depend on
    which of them is the reference: similarity and metrics are the same in
    both orders. *)
Theorem comparison_symmetric (img1 img2 : Image)
    (Hsize : size img1 = size img2)
    (Hmode1 : mode img1 = "RGB"%string)
    (Hmode2 : mode img2 = "RGB"%string) :
  _compare_images tolerance resize convert img1 img2 =
  _compare_images tolerance resize convert img2 img1.
Proof.
  unfold _compare_images, normalize_size, to_rgb, difference.
  rewrite Hsize, size_eqb_refl. cbn [negb].
  rewrite Hmode1, Hmode2. cbn [String.eqb Ascii.eqb Bool.eqb negb].
  rewrite (map_combine_swap
             (fun p => uint8_square (uint8_sub (fst p) (snd p)))
             (fun p => uint8_square (uint8_sub (fst p) (snd p)))
             (samples img1) (samples img2))
    by (intros v w; apply uint8_square_sub_swap).
  rewrite (map_combine_swap
             (fun p => Z.abs (fst p - snd p))
             (fun p => Z.abs (fst p - snd p))
             (samples img1) (samples img2))
    by (intros v w; cbn [fst snd]; lia).
  reflexivity.
Qed.

(** X4.  The counts in the metrics are consistent: the number of different
    samples lies between 0 and the total, the total is the number of sample
    pairs compared, and the difference percentage is a number between 0 and
    100 unless no sample was compared, when it is [nan] and nothing is
    raised. *)
Theorem metrics_counts_consistent (img1 img2 : Image) :
  let compared :=
    combine (samples (to_rgb convert img1))
            (samples (to_rgb convert (normalize_size resize img1 img2))) in
  let metrics := snd (_compare_images tolerance resize convert img1 img2) in
  exists different,
    get metrics "different_pixels" = Some (VInt different) /\
    get metrics "total_pixels" = Some (VInt (Z.of_nat (length compared))) /\
    (0 <= different <= Z.of_nat (length compared))%Z /\
    (compared = [] ->
     get metrics "difference_percentage" = Some (VFloat NaN)) /\
    (compared <> [] ->
     exists p, get metrics "difference_percentage" = Some (VFloat (Num p)) /\
               0 <= p /\ p <= 100).
Proof.
  cbv zeta. unfold _compare_images, difference. cbn [snd get String.eqb
    Ascii.eqb Bool.eqb].
  set (compared := combine (samples (to_rgb convert img1))
         (samples (to_rgb convert (normalize_size resize img1 img2)))).
  rewrite length_map.
  set (diffs := map (fun p => Z.abs (fst p - snd p)) compared).
  assert (Hlen : (length (filter (fun d => (tolerance <? d)%Z) diffs)
                  <= length compared)%nat).
  { rewrite <- (length_map (fun p => Z.abs (fst p - snd p)) compared).
    apply filter_length_le. }
  eexists. split; [reflexivity|]. split; [reflexivity|].
  split; [lia|]. unfold percentage. split.
  - intros Hnil. rewrite Hnil. reflexivity.
  - intros Hne.
    destruct (Z.eqb_spec (Z.of_nat (length compared)) 0) as [H0 | Hpos].
    { destruct compared; [contradiction | discriminate]. }
    eexists. split; [reflexivity|].
    set (k := Z.of_nat (length (filter (fun d => (tolerance <? d)%Z) diffs))).
    set (n := Z.of_nat (length compared)) in *.
    assert (Hk : (0 <= k <= n)%Z) by (subst k n; lia).
    assert (Hn : (0 < n)%Z) by lia.
    assert (Hq : 0 < inject_Z n) by (unfold Qlt; simpl; lia).
    assert (Hlo : 0 <= inject_Z k / inject_Z n).
    { apply Qle_shift_div_l; [exact Hq|]. rewrite Qmult_0_l.
      unfold Qle, inject_Z. cbn [Qnum Qden]. lia. }
    assert (Hhi : inject_Z k / inject_Z n <= 1).
    { apply Qle_shift_div_r; [exact Hq|]. rewrite Qmult_1_l.
      rewrite <- Zle_Qle. lia. }
    split; Lqa.lra.
Qed.

End BitmapMore.

Lemma comparison_passes_up_to_254_255_witness :
  Visual.status
    (Visual.verify_loaded (95 # 100) 5 Visual.resize_solid (fun img _ => img)
       (fun _ => "") (Visual.solid 2 2 0) (Visual.solid 2 2 255))
  = Visual.PASS.
Proof.
  apply (comparison_passes_up_to_254_255 5 Visual.resize_solid
           (fun img _ => img) (95 # 100) (fun _ => "")
           (Visual.solid 2 2 0) (Visual.solid 2 2 255)).
  - simpl. discriminate.
  - simpl. discriminate.
  - unfold Qle. simpl. lia.
Defined.

Lemma image_equals_itself_witness :
  exists mse similarity percent,
    Visual._compare_images 5 Visual.resize_solid (fun img _ => img)
      (Visual.mkImage (2, 1) "RGB" [10; 20; 30; 40; 50; 60])
      (Visual.mkImage (2, 1) "RGB" [10; 20; 30; 40; 50; 60]) =
      (Visual.Num similarity,
       [ ("mse", Visual.VFloat (Visual.Num mse));
         ("different_pixels", Visual.VInt 0);
         ("total_pixels", Visual.VInt 6);
         ("difference_percentage", Visual.VFloat (Visual.Num percent)) ]) /\
    mse == 0 /\ similarity == 1 /\ percent == 0.
Proof.
  apply (image_equals_itself 5 Visual.resize_solid (fun img _ => img)
           (Visual.mkImage (2, 1) "RGB" [10; 20; 30; 40; 50; 60])).
  - simpl. discriminate.
  - lia.
Defined.

Lemma comparison_symmetric_witness :
  Visual._compare_images 5 Visual.resize_solid (fun img _ => img)
    (Visual.mkImage (1, 1) "RGB" [10; 200; 30])
    (Visual.mkImage (1, 1) "RGB" [250; 20; 35]) =
  Visual._compare_images 5 Visual.resize_solid (fun img _ => img)
    (Visual.mkImage (1, 1) "RGB" [250; 20; 35])
    (Visual.mkImage (1, 1) "RGB" [10; 200; 30]).
Proof.
  apply (comparison_symmetric 5 Visual.resize_solid (fun img _ => img)
           (Visual.mkImage (1, 1) "RGB" [10; 200; 30])
           (Visual.mkImage (1, 1) "RGB" [250; 20; 35]));
    reflexivity.
Defined.

(** ** Further properties of the alignment checks *)

Section AlignmentMore.

Import Layout.

Variable tolerance : Z.

Lemma fold_max_upper (t : list Z) (a : Z) :
  a <= fold_left Z.max t a /\ Forall (fun v => v <= fold_left Z.max t a) t.
Proof.
  revert a. induction t as [|v t IH]; intros a; cbn [fold_left].
  - split; [lia | constructor].
  - destruct (IH (Z.max a v)) as [H1 H2]. split; [lia|].
    constructor; [lia | exact H2].
Qed.

Lemma fold_max_in (t : list Z) (a : Z) : In (fold_left Z.max t a) (a :: t).
Proof.
  revert a. induction t as [|v t IH]; intros a; cbn [fold_left].
  - now left.
  - destruct (IH (Z.max a v)) as [H | H].
    + destruct (Z.max_spec a v) as [[_ E] | [_ E]]; rewrite E in *.
      * right. left. exact H.
      * left. exact H.
    + right. right. exact H.
Qed.

Lemma fold_min_lower (t : list Z) (a : Z) :
  fold_left Z.min t a <= a /\ Forall (fun v => fold_left Z.min t a <= v) t.
Proof.
  revert a. induction t as [|v t IH]; intros a; cbn [fold_left].
  - split; [lia | constructor].
  - destruct (IH (Z.min a v)) as [H1 H2]. split; [lia|].
    constructor; [lia | exact H2].
Qed.

Lemma fold_min_in (t : list Z) (a : Z) : In (fold_left Z.min t a) (a :: t).
Proof.
  revert a. induction t as [|v t IH]; intros a; cbn [fold_left].
  - now left.
  - destruct (IH (Z.min a v)) as [H | H].
    + destruct (Z.min_spec a v) as [[_ E] | [_ E]]; rewrite E in *.
      * left. exact H.
      * right. left. exact H.
    + right. right. exact H.
Qed.

Lemma spread_le_iff (t : list Z) (a : Z) :
  fold_left Z.max t a - fold_left Z.min t a <= tolerance <->
  (forall p q, In p (a :: t) -> In q (a :: t) -> Z.abs (p - q) <= tolerance).
Proof.
  destruct (fold_max_upper t a) as [Ha Ht].
  destruct (fold_min_lower t a) as [La Lt].
  rewrite Forall_forall in Ht, Lt.
  split.
  - intros H p q Hp Hq.
    assert (Hup : forall v, In v (a :: t) -> v <= fold_left Z.max t a)
      by (intros v [<- | Hv]; [exact Ha | now apply Ht]).
    assert (Hlo : forall v, In v (a :: t) -> fold_left Z.min t a <= v)
      by (intros v [<- | Hv]; [exact La | now apply Lt]).
    pose proof (Hup p Hp). pose proof (Hup q Hq).
    pose proof (Hlo p Hp). pose proof (Hlo q Hq). lia.
  - intros H.
    pose proof (H _ _ (fold_max_in t a) (fold_min_in t a)). lia.
Qed.

Lemma len_set_one_iff (l : list Z) :
  (len_set l =? 1)%nat = true <->
  l <> [] /\ (forall p q, In p l -> In q l -> p = q).
Proof.
  unfold len_set. rewrite Nat.eqb_eq.
  pose proof (NoDup_nodup Z.eq_dec l) as Hnd.
  pose proof (nodup_In Z.eq_dec l) as Hin.
  split.
  - intros Hlen.
    destruct (nodup Z.eq_dec l) as [|u [|w r]] eqn:E; try discriminate.
    split.
    + intros ->. discriminate E.
    + intros p q Hp Hq. apply Hin in Hp, Hq.
      destruct Hp as [<- | []]. destruct Hq as [<- | []]. reflexivity.
  - intros [Hne Heq].
    destruct (nodup Z.eq_dec l) as [|u [|w r]] eqn:E.
    + destruct l as [|a t]; [contradiction|].
      assert (Ha : In a []) by (apply Hin; now left). contradiction.
    + reflexivity.
    + exfalso. inversion Hnd as [|? ? Hnot _]; subst.
      apply Hnot. left.
      apply Heq; apply Hin; [right; left | left]; reflexivity.
Qed.

Lemma within_tolerance_iff (positions : list Z) :
  positions <> [] -> 0 <= tolerance ->
  (within_tolerance tolerance positions = true <->
   forall p q, In p positions -> In q positions -> Z.abs (p - q) <= tolerance).
Proof.
  intros Hne Htol. unfold within_tolerance.
  destruct positions as [|a t]; [contradiction|].
  rewrite orb_true_iff, Z.leb_le, spread_le_iff, len_set_one_iff.
  split.
  - intros [[_ Heq] | H]; [|exact H].
    intros p q Hp Hq. rewrite (Heq p q Hp Hq). rewrite Z.sub_diag. simpl. lia.
  - intros H. right. exact H.
Qed.

Lemma aligned_within_map (f : Bounds -> Z) (l : list Bounds) :
  (forall p q, In p (map f l) -> In q (map f l) -> Z.abs (p - q) <= tolerance)
  <-> aligned_within tolerance f l.
Proof.
  unfold aligned_within. split.
  - intros H a b Ha Hb. apply H; now apply in_map.
  - intros H p q Hp Hq. apply in_map_iff in Hp, Hq.
    destruct Hp as (a & <- & Ha). destruct Hq as (b & <- & Hb). now apply H.
Qed.

Lemma two_blocks (ty1 ae1 lb1 ty2 ae2 lb2 : string) (p1 p2 : list Z)
    (result : Result) :
  p1 <> [] -> p2 <> [] ->
  exists r,
    (r1 <- alignment_block tolerance ty1 ae1 lb1 p1 result ;;
     alignment_block tolerance ty2 ae2 lb2 p2 r1) = Return r /\
    map summary (checks r) =
      (map summary (checks result)
       ++ [ (ty1, within_tolerance tolerance p1, None, None);
            (ty2, within_tolerance tolerance p2, None, None) ])%list /\
    passed r =
      (if within_tolerance tolerance p1 && within_tolerance tolerance p2
       then passed result else Some false).
Proof.
  intros H1 H2.
  destruct (alignment_block_returns tolerance ty1 ae1 lb1 p1 result H1)
    as [m1 E1].
  rewrite E1. cbn [bind].
  match goal with
  | |- context [alignment_block _ _ _ _ _ ?res] =>
      destruct (alignment_block_returns tolerance ty2 ae2 lb2 p2 res H2)
        as [m2 E2]
  end.
  rewrite E2. eexists. split; [reflexivity|]. cbv zeta.
  destruct (within_tolerance tolerance p1), (within_tolerance tolerance p2);
    cbn [checks passed append_check set_passed andb];
    rewrite ?map_app, <- ?app_assoc; split; reflexivity.
Qed.

Lemma map_nonempty {A B : Type} (f : A -> B) (l : list A) :
  l <> [] -> map f l <> [].
Proof. destruct l; [contradiction | discriminate]. Qed.

(** X5.  For a non-negative tolerance and at least one box, the horizontal
    check appends exactly a top and a centre check and the vertical check a
    left and a centre check; each passes exactly when every two boxes agree
    on that coordinate up to the tolerance, and [result['passed']] is
    lowered exactly when one of the two fails. *)
Theorem alignment_checks_meaning
    (bounds_list : list Bounds) (elems : list ElementSpec) (result : Result)
    (Hboxes : bounds_list <> []) (Htolerance : 0 <= tolerance) :
  (exists r top center,
     _check_horizontal_alignment tolerance bounds_list elems result
       = Return r /\
     map summary (checks r) =
       (map summary (checks result)
        ++ [ ("top_alignment", top, None, None);
             ("center_alignment", center, None, None) ])%list /\
     (top = true <-> aligned_within tolerance y bounds_list) /\
     (center = true <->
      aligned_within tolerance (fun b => y b + height b / 2) bounds_list) /\
     passed r = (if top && center then passed result else Some false)) /\
  (exists r left center,
     _check_vertical_alignment tolerance bounds_list elems result
       = Return r /\
     map summary (checks r) =
       (map summary (checks result)
        ++ [ ("left_alignment", left, None, None);
             ("center_alignment", center, None, None) ])%list /\
     (left = true <-> aligned_within tolerance x bounds_list) /\
     (center = true <->
      aligned_within tolerance (fun b => x b + width b / 2) bounds_list) /\
     passed r = (if left && center then passed result else Some false)).
Proof.
  split.
  - destruct (two_blocks "top_alignment" "All elements aligned at top" "Top"
                "center_alignment" "All elements center-aligned" "Center"
                (map y bounds_list)
                (map (fun b => y b + height b / 2) bounds_list) result
                (map_nonempty _ _ Hboxes) (map_nonempty _ _ Hboxes))
      as (r & Er & Hs & Hp).
    exists r. do 2 eexists. split; [exact Er|]. split; [exact Hs|].
    split; [|split; [|exact Hp]];
      (rewrite within_tolerance_iff
         by (try apply map_nonempty; assumption));
      apply aligned_within_map.
  - destruct (two_blocks "left_alignment" "All elements left-aligned" "Left"
                "center_alignment" "All elements center-aligned" "Center"
                (map x bounds_list)
                (map (fun b => x b + width b / 2) bounds_list) result
                (map_nonempty _ _ Hboxes) (map_nonempty _ _ Hboxes))
      as (r & Er & Hs & Hp).
    exists r. do 2 eexists. split; [exact Er|]. split; [exact Hs|].
    split; [|split; [|exact Hp]];
      (rewrite within_tolerance_iff
         by (try apply map_nonempty; assumption));
      apply aligned_within_map.
Qed.

Lemma len_set_perm (l l' : list Z) :
  Permutation l l' -> len_set l = len_set l'.
Proof.
  intros Hp. unfold len_set.
  apply Nat.le_antisymm; apply NoDup_incl_length;
    try apply NoDup_nodup;
    intros v Hv; apply nodup_In; apply nodup_In in Hv.
  - now apply (Permutation_in _ Hp).
  - now apply (Permutation_in _ (Permutation_sym Hp)).
Qed.

Lemma py_max_perm (l l' : list Z) : Permutation l l' -> py_max l = py_max l'.
Proof.
  intros Hp. destruct l as [|a t], l' as [|b u].
  - reflexivity.
  - apply Permutation_nil in Hp. discriminate.
  - apply Permutation_sym, Permutation_nil in Hp. discriminate.
  - cbn [py_max]. f_equal.
    destruct (fold_max_upper t a) as [Ha Ht].
    destruct (fold_max_upper u b) as [Hb Hu].
    rewrite Forall_forall in Ht, Hu.
    pose proof (Permutation_in _ Hp (fold_max_in t a)) as [E | Hin];
    pose proof (Permutation_in _ (Permutation_sym Hp) (fold_max_in u b))
      as [E' | Hin'];
      try (apply Hu in Hin); try (apply Ht in Hin'); lia.
Qed.

Lemma py_min_perm (l l' : list Z) : Permutation l l' -> py_min l = py_min l'.
Proof.
  intros Hp. destruct l as [|a t], l' as [|b u].
  - reflexivity.
  - apply Permutation_nil in Hp. discriminate.
  - apply Permutation_sym, Permutation_nil in Hp. discriminate.
  - cbn [py_min]. f_equal.
    destruct (fold_min_lower t a) as [Ha Ht].
    destruct (fold_min_lower u b) as [Hb Hu].
    rewrite Forall_forall in Ht, Hu.
    pose proof (Permutation_in _ Hp (fold_min_in t a)) as [E | Hin];
    pose proof (Permutation_in _ (Permutation_sym Hp) (fold_min_in u b))
      as [E' | Hin'];
      try (apply Hu in Hin); try (apply Ht in Hin'); lia.
Qed.

Lemma alignment_block_perm (ty ae lb : string) (l l' : list Z)
    (result : Result) :
  Permutation l l' ->
  alignment_block tolerance ty ae lb l result =
  alignment_block tolerance ty ae lb l' result.
Proof.
  intros Hp. unfold alignment_block.
  now rewrite (len_set_perm _ _ Hp), (py_max_perm _ _ Hp), (py_min_perm _ _ Hp).
Qed.

(** X6.  The horizontal and the vertical check do not depend on the order
    in which the boxes are listed: a permutation of the boxes gives the same
    result, messages included. *)
Theorem alignment_order_independent
    (bounds_list bounds_list' : list Bounds) (elems elems' : list ElementSpec)
    (result : Result) (Hperm : Permutation bounds_list bounds_list') :
  _check_horizontal_alignment tolerance bounds_list elems result =
  _check_horizontal_alignment tolerance bounds_list' elems' result /\
  _check_vertical_alignment tolerance bounds_list elems result =
  _check_vertical_alignment tolerance bounds_list' elems' result.
Proof.
  unfold _check_horizontal_alignment, _check_vertical_alignment.
  split.
  - rewrite (alignment_block_perm _ _ _ _ _ result
               (Permutation_map y Hperm)).
    destruct (alignment_block tolerance "top_alignment" _ _ _ result)
      as [r1 | e]; cbn [bind]; [|reflexivity].
    apply alignment_block_perm.
    exact (Permutation_map (fun b => y b + height b / 2) Hperm).
  - rewrite (alignment_block_perm _ _ _ _ _ result
               (Permutation_map x Hperm)).
    destruct (alignment_block tolerance "left_alignment" _ _ _ result)
      as [r1 | e]; cbn [bind]; [|reflexivity].
    apply alignment_block_perm.
    exact (Permutation_map (fun b => x b + width b / 2) Hperm).
Qed.

Lemma in_map_shift (d v : Z) (l : list Z) :
  In (v + d) (map (fun w => w + d) l) <-> In v l.
Proof.
  rewrite in_map_iff. split.
  - intros (w & E & Hw). assert (w = v) by lia. now subst.
  - intros H. exists v. split; [reflexivity | exact H].
Qed.

Lemma nodup_shift (d : Z) (l : list Z) :
  nodup Z.eq_dec (map (fun w => w + d) l) =
  map (fun w => w + d) (nodup Z.eq_dec l).
Proof.
  induction l as [|v l IH]; [reflexivity|]. cbn [map nodup].
  destruct (in_dec Z.eq_dec (v + d) (map (fun w => w + d) l)) as [Hi | Hn],
           (in_dec Z.eq_dec v l) as [Hj | Hm].
  - exact IH.
  - exfalso. apply Hm. now apply (in_map_shift d).
  - exfalso. apply Hn. now apply in_map_shift.
  - cbn [map]. now rewrite IH.
Qed.

Lemma len_set_shift (d : Z) (l : list Z) :
  len_set (map (fun w => w + d) l) = len_set l.
Proof. unfold len_set. now rewrite nodup_shift, length_map. Qed.

Lemma fold_max_shift (d : Z) (t : list Z) (a : Z) :
  fold_left Z.max (map (fun w => w + d) t) (a + d) = fold_left Z.max t a + d.
Proof.
  revert a. induction t as [|v t IH]; intros a; cbn [map fold_left].
  - reflexivity.
  - rewrite Z.add_max_distr_r. apply IH.
Qed.

Lemma fold_min_shift (d : Z) (t : list Z) (a : Z) :
  fold_left Z.min (map (fun w => w + d) t) (a + d) = fold_left Z.min t a + d.
Proof.
  revert a. induction t as [|v t IH]; intros a; cbn [map fold_left].
  - reflexivity.
  - rewrite Z.add_min_distr_r. apply IH.
Qed.

Lemma alignment_block_shift (ty ae lb : string) (d : Z) (l : list Z)
    (result : Result) :
  alignment_block tolerance ty ae lb (map (fun w => w + d) l) result =
  alignment_block tolerance ty ae lb l result.
Proof.
  unfold alignment_block. rewrite len_set_shift.
  destruct (len_set l =? 1)%nat; [reflexivity|].
  destruct l as [|a t]; [reflexivity|].
  cbn [map py_max py_min bind].
  rewrite fold_max_shift, fold_min_shift.
  replace (fold_left Z.max t a + d - (fold_left Z.min t a + d))
    with (fold_left Z.max t a - fold_left Z.min t a) by lia.
  reflexivity.
Qed.

Lemma horizontal_moved (dx dy : Z) (bounds_list : list Bounds)
    (elems : list ElementSpec) (result : Result) :
  _check_horizontal_alignment tolerance (map (move dx dy) bounds_list)
    elems result =
  _check_horizontal_alignment tolerance bounds_list elems result.
Proof.
  unfold _check_horizontal_alignment. rewrite !map_map. cbn [move y height].
  rewrite <- (map_map y (fun w => w + dy)), alignment_block_shift.
  destruct (alignment_block tolerance "top_alignment" _ _ _ result)
    as [r1 | e]; cbn [bind]; [|reflexivity].
  rewrite (map_ext (fun b => y b + dy + height b / 2)
             (fun b => (y b + height b / 2) + dy)) by (intros b; lia).
  rewrite <- (map_map (fun b => y b + height b / 2) (fun w => w + dy)).
  apply alignment_block_shift.
Qed.

Lemma vertical_moved (dx dy : Z) (bounds_list : list Bounds)
    (elems : list ElementSpec) (result : Result) :
  _check_vertical_alignment tolerance (map (move dx dy) bounds_list)
    elems result =
  _check_vertical_alignment tolerance bounds_list elems result.
Proof.
  unfold _check_vertical_alignment. rewrite !map_map. cbn [move x width].
  rewrite <- (map_map x (fun w => w + dx)), alignment_block_shift.
  destruct (alignment_block tolerance "left_alignment" _ _ _ result)
    as [r1 | e]; cbn [bind]; [|reflexivity].
  rewrite (map_ext (fun b => x b + dx + width b / 2)
             (fun b => (x b + width b / 2) + dx)) by (intros b; lia).
  rewrite <- (map_map (fun b => x b + width b / 2) (fun w => w + dx)).
  apply alignment_block_shift.
Qed.

Lemma py_slice_map {A B : Type} (f : A -> B) (l : list A) (lo hi : Z) :
  py_slice (map f l) lo hi = map f (py_slice l lo hi).
Proof. unfold py_slice. now rewrite skipn_map, firstn_map. Qed.

Lemma row_loop_moved (dx dy : Z) (l : list (Z * list Bounds))
    (result : Result) :
  row_loop tolerance
    (map (fun e => (fst e, map (move dx dy) (snd e))) l) result =
  row_loop tolerance l result.
Proof.
  revert result. induction l as [|[i row] l IH]; intros result.
  - reflexivity.
  - cbn [map row_loop fst snd]. rewrite length_map, horizontal_moved.
    destruct (1 <? length row)%nat; [|apply IH].
    destruct (_check_horizontal_alignment tolerance row [] fresh_result)
      as [sub | e]; cbn [bind]; [apply IH | reflexivity].
Qed.

Lemma enumerate_map {A B : Type} (f : A -> B) (l : list A) :
  enumerate (map f l) = map (fun e => (fst e, f (snd e))) (enumerate l).
Proof.
  unfold enumerate. rewrite length_map.
  generalize (map Z.of_nat (seq 0 (length l))) as idx. intros idx.
  revert idx. induction l as [|v l IH]; intros [|i idx]; cbn [combine map];
    try reflexivity.
  now rewrite IH.
Qed.

Lemma column_of_moved (dx dy : Z) (rows : list (list Bounds)) (col : Z) :
  column_of (map (map (move dx dy)) rows) col =
  map (move dx dy) (column_of rows col).
Proof.
  unfold column_of. induction rows as [|row rows IH]; [reflexivity|].
  cbn [map flat_map]. rewrite map_app, IH, nth_error_map.
  destruct (nth_error row (Z.to_nat col)); reflexivity.
Qed.

Lemma column_loop_moved (dx dy : Z) (rows : list (list Bounds))
    (cols : list Z) (result : Result) :
  column_loop tolerance (map (map (move dx dy)) rows) cols result =
  column_loop tolerance rows cols result.
Proof.
  revert result. induction cols as [|col cols IH]; intros result.
  - reflexivity.
  - cbn [column_loop]. rewrite column_of_moved, length_map, vertical_moved.
    destruct (1 <? length (column_of rows col))%nat; [|apply IH].
    destruct (_check_vertical_alignment tolerance (column_of rows col) []
                fresh_result) as [sub | e]; cbn [bind];
      [apply IH | reflexivity].
Qed.

(** X7.  The alignment checks depend on relative positions only: moving
    every box by the same offset leaves the result of the horizontal, the
    vertical and the grid check unchanged, messages included. *)
Theorem alignment_translation_invariant
    (dx dy : Z) (bounds_list : list Bounds) (elems : list ElementSpec)
    (check : AlignmentSpec) (result : Result) :
  _check_horizontal_alignment tolerance (map (move dx dy) bounds_list)
    elems result =
  _check_horizontal_alignment tolerance bounds_list elems result /\
  _check_vertical_alignment tolerance (map (move dx dy) bounds_list)
    elems result =
  _check_vertical_alignment tolerance bounds_list elems result /\
  _check_grid_alignment tolerance (map (move dx dy) bounds_list)
    elems check result =
  _check_grid_alignment tolerance bounds_list elems check result.
Proof.
  split; [apply horizontal_moved|]. split; [apply vertical_moved|].
  unfold _check_grid_alignment. rewrite length_map.
  destruct (match spec_columns check with Some c => c | None => 2 end =? 0);
    cbn [bind]; [reflexivity|].
  destruct (py_range_step (Z.of_nat (length bounds_list))
              match spec_columns check with Some c => c | None => 2 end)
    as [starts | e]; cbn [bind]; [|reflexivity].
  rewrite (map_ext _ (fun i => map (move dx dy)
                        (py_slice bounds_list i
                           (i + match spec_columns check with
                                | Some c => c | None => 2 end))))
    by (intros i; apply py_slice_map).
  rewrite <- (map_map (fun i => py_slice bounds_list i
                         (i + match spec_columns check with
                              | Some c => c | None => 2 end))
                (map (move dx dy))).
  rewrite enumerate_map, row_loop_moved.
  destruct (row_loop tolerance _ result) as [r1 | e]; cbn [bind];
    [|reflexivity].
  apply column_loop_moved.
Qed.

End AlignmentMore.

Lemma alignment_checks_meaning_witness :
  exists r top center,
    Layout._check_horizontal_alignment 5
      [Layout.box 0 0; Layout.box 100 2; Layout.box 200 4] []
      (Layout.mkResult None None (Some true) []) = Return r /\
    map Layout.summary (Layout.checks r) =
      [ ("top_alignment", top, None, None);
        ("center_alignment", center, None, None) ] /\
    (top = true <->
     Layout.aligned_within 5 y
       [Layout.box 0 0; Layout.box 100 2; Layout.box 200 4]) /\
    (center = true <->
     Layout.aligned_within 5 (fun b => y b + height b / 2)
       [Layout.box 0 0; Layout.box 100 2; Layout.box 200 4]) /\
    Layout.passed r = (if top && center then Some true else Some false).
Proof.
  assert (Hboxes : [Layout.box 0 0; Layout.box 100 2; Layout.box 200 4] <> [])
    by discriminate.
  assert (Htolerance : 0 <= 5) by lia.
  exact (proj1 (alignment_checks_meaning 5
                  [Layout.box 0 0; Layout.box 100 2; Layout.box 200 4] []
                  (Layout.mkResult None None (Some true) [])
                  Hboxes Htolerance)).
Defined.

Lemma alignment_order_independent_witness :
  Layout._check_horizontal_alignment 5
    [Layout.box 0 0; Layout.box 100 30] [] Layout.fresh_result =
  Layout._check_horizontal_alignment 5
    [Layout.box 100 30; Layout.box 0 0] [] Layout.fresh_result.
Proof.
  apply (alignment_order_independent 5
           [Layout.box 0 0; Layout.box 100 30]
           [Layout.box 100 30; Layout.box 0 0] [] [] Layout.fresh_result).
  apply perm_swap.
Defined.

(** ** The rows of a grid *)

Section GridRows.

Import Layout.

Lemma chunks_concat {A : Type} (c m : nat) (l : list A) :
  (length l <= m * c)%nat ->
  concat (map (fun k => firstn c (skipn (k * c) l)) (seq 0 m)) = l.
Proof.
  revert l. induction m as [|m IH]; intros l Hlen.
  - destruct l; [reflexivity | simpl in Hlen; lia].
  - cbn [seq map concat]. rewrite <- seq_shift, map_map.
    rewrite (map_ext _ (fun k => firstn c (skipn (k * c) (skipn c l))))
      by (intros k; rewrite skipn_skipn; f_equal; f_equal; lia).
    rewrite IH by (rewrite length_skipn; lia).
    cbn [Nat.mul skipn]. apply firstn_skipn.
Qed.

Lemma ceil_div_bounds (n c : Z) :
  0 <= n -> 0 < c ->
  n <= (n + c - 1) / c * c /\ ((n + c - 1) / c - 1) * c < n.
Proof.
  intros Hn Hc.
  pose proof (Z.div_mod (n + c - 1) c ltac:(lia)) as Hdm.
  pose proof (Z.mod_pos_bound (n + c - 1) c Hc) as Hmod.
  nia.
Qed.

(** X8.  For a positive column count the rows of the grid are a partition
    of the box list in the order given: their concatenation is the list,
    no row is empty or longer than the column count, and every row before
    the last holds exactly that many boxes. *)
Theorem grid_rows_partition (bounds_list : list Bounds) (columns : Z)
    (Hcolumns : 0 < columns) :
  concat (grid_rows bounds_list columns) = bounds_list /\
  Forall (fun row => (1 <= length row <= Z.to_nat columns)%nat)
         (grid_rows bounds_list columns) /\
  (forall i row,
     nth_error (grid_rows bounds_list columns) i = Some row ->
     (S i < length (grid_rows bounds_list columns))%nat ->
     length row = Z.to_nat columns).
Proof.
  unfold grid_rows.
  set (n := length bounds_list).
  set (c := Z.to_nat columns).
  set (m := Z.to_nat ((Z.of_nat n + columns - 1) / columns)).
  assert (Hc : (0 < c)%nat) by (subst c; lia).
  destruct (ceil_div_bounds (Z.of_nat n) columns ltac:(lia) Hcolumns)
    as [Hup Hlow].
  assert (Hm : (n <= m * c)%nat) by (subst m c; nia).
  assert (Hm' : forall k, (k < m)%nat -> (k * c < n)%nat)
    by (intros k Hk; subst m c; nia).
  split; [now apply chunks_concat|]. split.
  - apply Forall_forall. intros row Hin. apply in_map_iff in Hin.
    destruct Hin as (k & <- & Hk). apply in_seq in Hk.
    rewrite length_firstn, length_skipn. fold n.
    pose proof (Hm' k ltac:(lia)). lia.
  - intros i row Hnth Hlast. rewrite length_map, length_seq in Hlast.
    rewrite nth_error_map in Hnth.
    destruct (nth_error (seq 0 m) i) as [k|] eqn:Hk; [|discriminate].
    apply nth_error_In in Hk as Hin. apply in_seq in Hin.
    assert (k = i).
    { pose proof (nth_error_nth _ _ 0%nat Hk) as E.
      rewrite seq_nth in E by lia. lia. }
    subst k. inversion Hnth; subst row.
    rewrite length_firstn, length_skipn. fold n.
    pose proof (Hm' (S i) Hlast). lia.
Qed.

Lemma grid_rows_partition_witness :
  concat (grid_rows [box 0 0; box 100 0; box 200 0; box 0 60; box 100 60] 3) =
  [box 0 0; box 100 0; box 200 0; box 0 60; box 100 60].
Proof.
  apply (grid_rows_partition
           [box 0 0; box 100 0; box 200 0; box 0 60; box 100 60] 3).
  lia.
Defined.

End GridRows.

(** ** Edge cases of the alignment check *)

Section AlignmentEdges.

Import Layout.

Variable tolerance : Z.
Variable find_bounds : string -> string -> outcome Bounds.

(** X9.  When at least two elements are given and all are found:
    a grid check with zero columns raises [ZeroDivisionError]; a grid check
    with a negative column count, and a check whose type is none of
    horizontal, vertical and grid, report nothing and leave the result
    passed. *)
Theorem alignment_degenerate_requests
    (check : AlignmentSpec) (bounds_list : list Bounds)
    (Hmany : (2 <= length (spec_elements check))%nat)
    (Hfound : get_bounds find_bounds (spec_elements check)
              = Return bounds_list) :
  (spec_type check = Some "grid" -> spec_columns check = Some 0 ->
   _check_alignment tolerance find_bounds check = Raise ZeroDivisionError) /\
  (forall c, spec_type check = Some "grid" -> spec_columns check = Some c ->
   c < 0 ->
   _check_alignment tolerance find_bounds check =
   Return (mkResult (Some (spec_elements check)) (Some "grid") (Some true) []))
  /\
  (forall ty, spec_type check = Some ty ->
   ty <> "horizontal" -> ty <> "vertical" -> ty <> "grid" ->
   _check_alignment tolerance find_bounds check =
   Return (mkResult (Some (spec_elements check)) (Some ty) (Some true) [])).
Proof.
  assert (Hlen : (length (spec_elements check) <? 2)%nat = false)
    by (apply Nat.ltb_ge; exact Hmany).
  split; [|split].
  - intros Hty Hcols. unfold _check_alignment.
    rewrite Hlen, Hfound, Hty. cbn [bind String.eqb Ascii.eqb Bool.eqb].
    unfold _check_grid_alignment. rewrite Hcols. reflexivity.
  - intros c Hty Hcols Hneg. unfold _check_alignment.
    rewrite Hlen, Hfound, Hty. cbn [bind String.eqb Ascii.eqb Bool.eqb].
    unfold _check_grid_alignment, py_range_step, py_range. rewrite Hcols.
    destruct (Z.eqb_spec c 0) as [H0 | _]; [lia|]. cbn [bind].
    destruct (Z.eqb_spec c 0) as [H0 | _]; [lia|].
    destruct (Z.ltb_spec 0 c) as [H0 | _]; [lia|]. cbn [bind map enumerate].
    replace (Z.to_nat c) with 0%nat by lia. reflexivity.
  - intros ty Hty H1 H2 H3. unfold _check_alignment.
    rewrite Hlen, Hfound, Hty. cbn [bind].
    destruct (String.eqb_spec ty "horizontal"); [contradiction|].
    destruct (String.eqb_spec ty "vertical"); [contradiction|].
    destruct (String.eqb_spec ty "grid"); [contradiction|].
    reflexivity.
Qed.

End AlignmentEdges.

Lemma alignment_degenerate_requests_witness :
  Layout._check_alignment 5 (fun _ _ => Return (Layout.box 0 0))
    (Layout.mkAlignmentSpec
       [Layout.mkElementSpec "#a" None; Layout.mkElementSpec "#b" None]
       (Some "grid") (Some 0) None)
  = Raise ZeroDivisionError.
Proof.
  apply (alignment_degenerate_requests 5 (fun _ _ => Return (Layout.box 0 0))
           (Layout.mkAlignmentSpec
              [Layout.mkElementSpec "#a" None; Layout.mkElementSpec "#b" None]
              (Some "grid") (Some 0) None)
           [Layout.box 0 0; Layout.box 0 0]).
  - simpl. lia.
  - reflexivity.
  - reflexivity.
  - reflexivity.
Defined.

(** ** Position and size checks *)

Section PositionFacts.

Import Layout.

Variable tolerance : Z.
Variable find_bounds : string -> string -> outcome Bounds.

(** X10.  A relative-position request that asks for "to the right of" or
    "below" and passes shows that the two elements do not overlap, in the
    sense of the overlap predicate of the responsive checks. *)
Theorem relative_position_excludes_overlap
    (element_bounds : Bounds) (relative_spec : RelativeSpec)
    (checks : list Check)
    (Hasked : to_right_of relative_spec = true \/ below relative_spec = true)
    (Hpassed : _check_relative_position find_bounds element_bounds
                 relative_spec = Return (true, checks)) :
  exists relative_bounds,
    find_bounds
      (match rel_by relative_spec with Some b => b | None => By_CSS_SELECTOR end)
      (rel_selector relative_spec) = Return relative_bounds /\
    Responsive._elements_overlap element_bounds relative_bounds = false.
Proof.
  unfold _check_relative_position in Hpassed.
  destruct (find_bounds _ (rel_selector relative_spec)) as [rb | e];
    [|discriminate].
  exists rb. split; [reflexivity|]. cbn [bind] in Hpassed.
  unfold Responsive._elements_overlap.
  rewrite negb_false_iff, !orb_true_iff, !Z.leb_le.
  destruct (to_right_of relative_spec) eqn:Hr, (below relative_spec) eqn:Hb;
    cbn [fst snd] in Hpassed;
    repeat match type of Hpassed with
    | context [?a <=? ?b] => destruct (Z.leb_spec a b)
    end; cbn [fst snd] in Hpassed; try discriminate;
    try (destruct Hasked; discriminate); lia.
Qed.

Lemma expect_block_spec (ty : string) (expected : option Z) (actual : Z)
    (spec_tolerance : option Z) (state : bool * list Measure) :
  let tol := match spec_tolerance with Some t => t | None => tolerance end in
  let state' := expect_block tolerance ty expected actual spec_tolerance
                  state in
  (fst state = forallb m_passed (snd state) ->
   fst state' = forallb m_passed (snd state')) /\
  length (snd state') = (length (snd state) + requested expected)%nat /\
  (fst state' = true <->
   fst state = true /\ meets_expectation tol expected actual).
Proof.
  cbv zeta. unfold expect_block, meets_expectation.
  destruct expected as [e|]; cbn [requested].
  - destruct (Z.ltb_spec
                match spec_tolerance with Some t => t | None => tolerance end
                (Z.abs (actual - e))) as [Hgt | Hle];
      cbn [fst snd]; rewrite length_app, forallb_app; cbn [length forallb];
      rewrite ?andb_true_r, ?andb_false_r.
    + split; [reflexivity|]. split; [reflexivity|].
      split; [discriminate|]. intros [_ H]. specialize (H e eq_refl). lia.
    + split; [intros ->; reflexivity|]. split; [reflexivity|].
      split; [intros H; split; [exact H|]; intros e' E; inversion E; subst; lia
             | tauto].
  - split; [tauto|]. split; [lia|].
    split; [intros H; split; [exact H | discriminate] | tauto].
Qed.

Lemma minimum_block_spec (ty : string) (minimum : option Z) (actual : Z)
    (state : bool * list Measure) :
  let state' := minimum_block ty minimum actual state in
  (fst state = forallb m_passed (snd state) ->
   fst state' = forallb m_passed (snd state')) /\
  length (snd state') = (length (snd state) + requested minimum)%nat /\
  (fst state' = true <-> fst state = true /\ meets_minimum minimum actual).
Proof.
  cbv zeta. unfold minimum_block, meets_minimum.
  destruct minimum as [m|]; cbn [requested].
  - destruct (Z.ltb_spec actual m) as [Hlt | Hge];
      cbn [fst snd]; rewrite length_app, forallb_app; cbn [length forallb];
      rewrite ?andb_true_r, ?andb_false_r.
    + split; [reflexivity|]. split; [reflexivity|].
      split; [discriminate|]. intros [_ H]. specialize (H m eq_refl). lia.
    + split; [intros ->; reflexivity|]. split; [reflexivity|].
      split; [intros H; split; [exact H|]; intros m' E; inversion E; subst; lia
             | tauto].
  - split; [tauto|]. split; [lia|].
    split; [intros H; split; [exact H | discriminate] | tauto].
Qed.

(** X11.  For an element that is found, the size check returns; it holds one
    check for each of the keys [expected_width], [expected_height],
    [min_width], [min_height] that is present; its [passed] flag is the
    conjunction of its checks; and it passes exactly when the width and the
    height are within the tolerance (the request's own, else the checker's)
    of the expected values and not below the minima. *)
Theorem check_size_passes_iff (check : SizeSpec) (bounds : Bounds)
    (Hfound :
       find_bounds
         (match size_by check with Some b => b | None => By_CSS_SELECTOR end)
         (size_selector check) = Return bounds) :
  let tol := match size_tolerance check with
             | Some t => t | None => tolerance end in
  exists r,
    _check_size tolerance find_bounds check = Return r /\
    sr_bounds r = bounds /\
    sr_passed r = forallb m_passed (sr_checks r) /\
    length (sr_checks r) =
      (requested (expected_width check) + requested (expected_height check)
       + requested (min_width check) + requested (min_height check))%nat /\
    (sr_passed r = true <->
     meets_expectation tol (expected_width check) (width bounds) /\
     meets_expectation tol (expected_height check) (height bounds) /\
     meets_minimum (min_width check) (width bounds) /\
     meets_minimum (min_height check) (height bounds)).
Proof.
  cbv zeta. unfold _check_size. rewrite Hfound. cbn [bind].
  eexists. split; [reflexivity|]. cbn [sr_bounds sr_passed sr_checks].
  split; [reflexivity|].
  set (s0 := (true, @nil Measure)).
  set (s1 := expect_block tolerance "width" (expected_width check)
               (width bounds) (size_tolerance check) s0).
  set (s2 := expect_block tolerance "height" (expected_height check)
               (height bounds) (size_tolerance check) s1).
  set (s3 := minimum_block "min_width" (min_width check) (width bounds) s2).
  set (s4 := minimum_block "min_height" (min_height check) (height bounds) s3).
  destruct (expect_block_spec "width" (expected_width check) (width bounds)
              (size_tolerance check) s0) as (I1 & L1 & P1).
  destruct (expect_block_spec "height" (expected_height check) (height bounds)
              (size_tolerance check) s1) as (I2 & L2 & P2).
  destruct (minimum_block_spec "min_width" (min_width check) (width bounds)
              s2) as (I3 & L3 & P3).
  destruct (minimum_block_spec "min_height" (min_height check) (height bounds)
              s3) as (I4 & L4 & P4).
  fold s1 in I1, L1, P1, I2, L2, P2. fold s2 in I2, L2, P2, I3, L3, P3.
  fold s3 in I3, L3, P3, I4, L4, P4. fold s4 in I4, L4, P4.
  split; [apply I4, I3, I2, I1; reflexivity|].
  split; [rewrite L4, L3, L2, L1; reflexivity|].
  rewrite P4, P3, P2, P1. cbn [fst s0]. tauto.
Qed.

Lemma relative_position_spec (element_bounds rb : Bounds)
    (rs : RelativeSpec)
    (Hrb : find_bounds
             (match rel_by rs with Some b => b | None => By_CSS_SELECTOR end)
             (rel_selector rs) = Return rb) :
  exists p cs,
    _check_relative_position find_bounds element_bounds rs = Return (p, cs) /\
    p = forallb ck_passed cs /\
    (p = true <->
     (to_right_of rs = true -> x rb + width rb < x element_bounds) /\
     (below rs = true -> y rb + height rb < y element_bounds)).
Proof.
  unfold _check_relative_position. rewrite Hrb. cbn [bind].
  destruct (to_right_of rs), (below rs); cbn [fst snd];
    repeat match goal with
    | |- context [?a <=? ?b] => destruct (Z.leb_spec a b)
    end; cbn [fst snd app];
    do 2 eexists; (split; [reflexivity|]); (split; [reflexivity|]);
    split; try discriminate; intros; try reflexivity;
    try (split; intros; try discriminate; lia);
    match goal with
    | H : _ /\ _ |- _ => destruct H as [Hright Hbelow]
    end;
    try (specialize (Hright eq_refl)); try (specialize (Hbelow eq_refl)); lia.
Qed.

(** X12.  For an element that is found (and a reference element that is
    found, when [relative_to] is given), the position check returns; its
    [passed] flag is the conjunction of its checks; and it passes exactly
    when x and y are within the tolerance of the expected values and the
    element lies strictly beyond the right edge ("to the right of") and the
    bottom edge ("below") of the reference element, as far as each is asked
    for. *)
Theorem check_position_passes_iff (check : PositionSpec) (bounds : Bounds)
    (Hfound :
       find_bounds
         (match pos_by check with Some b => b | None => By_CSS_SELECTOR end)
         (pos_selector check) = Return bounds)
    (Hreference :
       forall rs, relative_to check = Some rs ->
       exists rb,
         find_bounds
           (match rel_by rs with Some b => b | None => By_CSS_SELECTOR end)
           (rel_selector rs) = Return rb) :
  let tol := match pos_tolerance check with
             | Some t => t | None => tolerance end in
  exists r,
    _check_position tolerance find_bounds check = Return r /\
    pr_bounds r = bounds /\
    pr_passed r = forallb entry_passed (pr_checks r) /\
    (pr_passed r = true <->
     meets_expectation tol (expected_x check) (x bounds) /\
     meets_expectation tol (expected_y check) (y bounds) /\
     (forall rs rb,
        relative_to check = Some rs ->
        find_bounds
          (match rel_by rs with Some b => b | None => By_CSS_SELECTOR end)
          (rel_selector rs) = Return rb ->
        (to_right_of rs = true -> x rb + width rb < x bounds) /\
        (below rs = true -> y rb + height rb < y bounds))).
Proof.
  cbv zeta. unfold _check_position. rewrite Hfound. cbn [bind].
  set (s0 := (true, @nil Measure)).
  set (s1 := expect_block tolerance "x_position" (expected_x check)
               (x bounds) (pos_tolerance check) s0).
  set (s2 := expect_block tolerance "y_position" (expected_y check)
               (y bounds) (pos_tolerance check) s1).
  destruct (expect_block_spec "x_position" (expected_x check) (x bounds)
              (pos_tolerance check) s0) as (I1 & _ & P1).
  destruct (expect_block_spec "y_position" (expected_y check) (y bounds)
              (pos_tolerance check) s1) as (I2 & _ & P2).
  fold s1 in I1, P1, I2, P2. fold s2 in I2, P2.
  assert (Hinv : fst s2 = forallb m_passed (snd s2))
    by (apply I2, I1; reflexivity).
  assert (Hmeasured : forall l, forallb entry_passed (map Measured l)
                                = forallb m_passed l)
    by (intros l; induction l as [|m l IH]; cbn; [reflexivity | now rewrite IH]).
  assert (Hrelated : forall l, forallb entry_passed (map Related l)
                               = forallb ck_passed l)
    by (intros l; induction l as [|c l IH]; cbn; [reflexivity | now rewrite IH]).
  destruct (relative_to check) as [rs|] eqn:Hrel.
  - destruct (Hreference rs eq_refl) as [rb Hrb].
    destruct (relative_position_spec bounds rb rs Hrb)
      as (p & cs & Erel & Hp & Hiff).
    rewrite Erel. cbn [bind fst snd].
    eexists. split; [reflexivity|].
    cbn [pr_bounds pr_passed pr_checks]. split; [reflexivity|].
    rewrite forallb_app, Hmeasured, Hrelated, <- Hinv, <- Hp.
    split; [destruct p, (fst s2); reflexivity|].
    assert (Hboth : (if negb p then false else fst s2) = true <->
                    fst s2 = true /\ p = true)
      by (destruct p, (fst s2); cbn; intuition discriminate).
    rewrite Hboth, P2, P1, Hiff. cbn [fst s0].
    split.
    + intros (((_ & Hx) & Hy) & Hr).
      split; [exact Hx|]. split; [exact Hy|].
      intros rs' rb' E F. inversion E; subst rs'. rewrite Hrb in F.
      inversion F; subst rb'. exact Hr.
    + intros (Hx & Hy & Hr). specialize (Hr rs rb eq_refl Hrb). tauto.
  - eexists. split; [reflexivity|].
    cbn [pr_bounds pr_passed pr_checks]. split; [reflexivity|].
    rewrite Hmeasured. split; [exact Hinv|].
    rewrite P2, P1. cbn [fst s0].
    split; [|tauto].
    intros ((_ & Hx) & Hy). split; [exact Hx|]. split; [exact Hy|].
    intros rs rb E. discriminate E.
Qed.

End PositionFacts.

Lemma relative_position_excludes_overlap_witness :
  exists relative_bounds,
    (fun (_ : string) (sel : string) =>
       if (sel =? "#menu")%string then Return (Layout.box 0 0)
       else Raise (NoSuchElementException sel))
      Layout.By_CSS_SELECTOR "#menu" = Return relative_bounds /\
    Responsive._elements_overlap (Layout.box 90 0) relative_bounds = false.
Proof.
  apply (relative_position_excludes_overlap
           (fun _ sel => if (sel =? "#menu")%string
                         then Return (Layout.box 0 0)
                         else Raise (NoSuchElementException sel))
           (Layout.box 90 0)
           (Layout.mkRelativeSpec "#menu" None true false)
           [Layout.mkCheck "to_right_of" true
              "Element is to the right of #menu" None None]).
  - left. reflexivity.
  - reflexivity.
Defined.

Lemma check_size_passes_iff_witness :
  exists r,
    Layout._check_size 5 (fun _ _ => Return (Layout.box 10 20))
      (Layout.mkSizeSpec "#logo" None (Some 82) None None (Some 44) None)
      = Return r /\
    Layout.sr_bounds r = Layout.box 10 20 /\
    Layout.sr_passed r = forallb Layout.m_passed (Layout.sr_checks r) /\
    length (Layout.sr_checks r) = 2%nat /\
    (Layout.sr_passed r = true <->
     Layout.meets_expectation 5 (Some 82) 80 /\
     Layout.meets_expectation 5 None 40 /\
     Layout.meets_minimum (Some 44) 80 /\
     Layout.meets_minimum None 40).
Proof.
  apply (check_size_passes_iff 5 (fun _ _ => Return (Layout.box 10 20))
           (Layout.mkSizeSpec "#logo" None (Some 82) None None (Some 44) None)
           (Layout.box 10 20)).
  reflexivity.
Defined.

Lemma check_position_passes_iff_witness :
  exists r,
    Layout._check_position 5 (fun _ _ => Return (Layout.box 10 20))
      (Layout.mkPositionSpec "#logo" None (Some 12) None (Some 1) None)
      = Return r /\
    Layout.pr_bounds r = Layout.box 10 20 /\
    Layout.pr_passed r = forallb Layout.entry_passed (Layout.pr_checks r) /\
    Layout.pr_passed r = false.
Proof.
  destruct (check_position_passes_iff 5 (fun _ _ => Return (Layout.box 10 20))
              (Layout.mkPositionSpec "#logo" None (Some 12) None (Some 1) None)
              (Layout.box 10 20) eq_refl)
    as (r & Er & Hb & Hp & Hiff).
  - intros rs Hrs. discriminate Hrs.
  - exists r. split; [exact Er|]. split; [exact Hb|]. split; [exact Hp|].
    destruct (Layout.pr_passed r); [|reflexivity].
    destruct Hiff as [Hiff _]. destruct (Hiff eq_refl) as [Hx _].
    specialize (Hx 12 eq_refl). simpl in Hx. lia.
Defined.

(** ** Overlapping elements *)

Section OverlapFacts.

Import Responsive.

(** X13.  The overlap predicate is symmetric, and a box overlaps itself
    exactly when its width and its height are positive. *)
Theorem overlap_symmetric_and_reflexive_on_area (a b : Bounds) :
  _elements_overlap a b = _elements_overlap b a /\
  (_elements_overlap a a = true <-> 0 < width a /\ 0 < height a).
Proof.
  unfold _elements_overlap. split.
  - f_equal.
    destruct (x a + width a <=? x b), (x b + width b <=? x a),
             (y a + height a <=? y b), (y b + height b <=? y a); reflexivity.
  - rewrite negb_true_iff, !orb_false_iff, !Z.leb_gt. lia.
Qed.

Variable find_bounds : string -> string -> outcome Bounds.

Lemma filter_none {A : Type} (p : A -> bool) (l : list A) :
  (forall v, In v l -> p v = false) -> filter p l = [].
Proof.
  induction l as [|v l IH]; intros H; cbn [filter]; [reflexivity|].
  rewrite (H v (or_introl eq_refl)). apply IH. intros w Hw. apply H. now right.
Qed.

Lemma overlapping_pairs_nil_iff (l : list (string * Bounds)) :
  overlapping_pairs l = [] <->
  ForallOrdPairs (fun p q => _elements_overlap (snd p) (snd q) = false) l.
Proof.
  induction l as [|[s1 b1] l IH]; cbn [overlapping_pairs].
  - split; [constructor | reflexivity].
  - split.
    + intros H. apply app_eq_nil in H. destruct H as [Hhead Htail].
      constructor; [|now apply IH].
      apply map_eq_nil in Hhead. apply Forall_forall. intros q Hq. cbn [snd].
      destruct (_elements_overlap b1 (snd q)) eqn:E; [|reflexivity].
      assert (Hin : In q (filter (fun e => _elements_overlap b1 (snd e)) l))
        by (apply filter_In; auto).
      rewrite Hhead in Hin. contradiction.
    + intros H. inversion H as [|? ? Hhead Htail]; subst.
      rewrite (proj2 IH Htail), app_nil_r.
      rewrite Forall_forall in Hhead.
      rewrite filter_none; [reflexivity|].
      intros q Hq. exact (Hhead q Hq).
Qed.

Lemma overlapping_pairs_sound (l : list (string * Bounds)) (s1 s2 : string) :
  In (s1, s2) (overlapping_pairs l) ->
  exists b1 b2,
    In (s1, b1) l /\ In (s2, b2) l /\ _elements_overlap b1 b2 = true.
Proof.
  induction l as [|[s b] l IH]; cbn [overlapping_pairs]; [contradiction|].
  intros H. apply in_app_or in H. destruct H as [H | H].
  - apply in_map_iff in H. destruct H as ([s' b'] & E & Hin).
    cbn [fst] in E. inversion E; subst. apply filter_In in Hin.
    destruct Hin as [Hin Hov]. exists b, b'. cbn [snd] in Hov.
    split; [now left|]. split; [now right | exact Hov].
  - destruct (IH H) as (b1 & b2 & H1 & H2 & Hov).
    exists b1, b2. split; [now right|]. split; [now right | exact Hov].
Qed.

Lemma collect_bounds_found (elements_to_check : list ElementSpec)
    (s : string) (b : Bounds) :
  In (s, b) (collect_bounds find_bounds elements_to_check) ->
  exists spec,
    In spec elements_to_check /\ selector spec = s /\
    find_bounds
      (match by_type spec with Some t => t | None => "css selector" end)
      (selector spec) = Return b.
Proof.
  induction elements_to_check as [|spec l IH]; cbn [collect_bounds];
    [contradiction|].
  destruct (find_bounds _ (selector spec)) as [bounds | e] eqn:E.
  - intros [H | H].
    + inversion H; subst. exists spec. split; [now left|]. auto.
    + destruct (IH H) as (spec' & Hin & Hs & Hf).
      exists spec'. split; [now right|]. auto.
  - intros H. destruct (IH H) as (spec' & Hin & Hs & Hf).
    exists spec'. split; [now right|]. auto.
Qed.

(** X14.  The overlap check of a viewport test never raises: elements that
    cannot be found are left out.  It passes exactly when no two of the
    elements found overlap, and then reports no pair; every pair it reports
    consists of two requested elements that were found and do overlap. *)
Theorem element_overlaps_passes_iff (elements_to_check : list ElementSpec) :
  let found := collect_bounds find_bounds elements_to_check in
  let report := _check_element_overlaps find_bounds elements_to_check in
  (ov_passed report = true <->
   ForallOrdPairs (fun p q => _elements_overlap (snd p) (snd q) = false)
                  found) /\
  (ov_passed report = true -> ov_overlaps report = None) /\
  (forall pairs s1 s2,
     ov_overlaps report = Some pairs -> In (s1, s2) pairs ->
     exists e1 e2 b1 b2,
       In e1 elements_to_check /\ In e2 elements_to_check /\
       selector e1 = s1 /\ selector e2 = s2 /\
       find_bounds
         (match by_type e1 with Some t => t | None => "css selector" end)
         s1 = Return b1 /\
       find_bounds
         (match by_type e2 with Some t => t | None => "css selector" end)
         s2 = Return b2 /\
       _elements_overlap b1 b2 = true).
Proof.
  cbv zeta. unfold _check_element_overlaps.
  rewrite <- overlapping_pairs_nil_iff.
  destruct (overlapping_pairs (collect_bounds find_bounds elements_to_check))
    as [|pair rest] eqn:E; cbn [ov_passed ov_overlaps].
  - split; [tauto|]. split; [reflexivity|]. intros pairs s1 s2 H. discriminate H.
  - split; [split; discriminate|]. split; [discriminate|].
    intros pairs s1 s2 H Hin. inversion H; subst pairs. rewrite <- E in Hin.
    destruct (overlapping_pairs_sound _ _ _ Hin) as (b1 & b2 & H1 & H2 & Hov).
    destruct (collect_bounds_found _ _ _ H1) as (e1 & I1 & S1 & F1).
    destruct (collect_bounds_found _ _ _ H2) as (e2 & I2 & S2 & F2).
    exists e1, e2, b1, b2. subst s1 s2. auto 10.
Qed.

End OverlapFacts.

(** ** Colour parsing accepts the grammar *)

Section ParseComplete.

Import Accessibility.

Lemma span_complete (p : ascii -> bool) (a rest : string) :
  all_of p a -> stops p rest -> span p (a ++ rest) = (a, rest).
Proof.
  unfold all_of. induction a as [|c a IH]; cbn; intros Ha Hrest.
  - destruct rest as [|c r]; [reflexivity|]. cbn in Hrest |- *.
    now rewrite Hrest.
  - apply andb_true_iff in Ha. destruct Ha as [Hc Ha].
    rewrite Hc, (IH Ha Hrest). reflexivity.
Qed.

Lemma many1_complete (p : ascii -> bool) (a rest : string) :
  a <> "" -> all_of p a -> stops p rest -> many1 p (a ++ rest) = Some (a, rest).
Proof.
  intros Hne Ha Hrest. unfold many1. rewrite (span_complete p a rest Ha Hrest).
  destruct a; [contradiction | reflexivity].
Qed.

Lemma spaces_complete (w rest : string) :
  blank w -> stops is_space rest -> spaces (w ++ rest) = rest.
Proof.
  intros Hw Hrest. unfold spaces. now rewrite (span_complete _ _ _ Hw Hrest).
Qed.

Lemma hex2_complete (h rest : string) :
  hex_pair h -> hex2 (h ++ rest) = Some (h, rest).
Proof.
  intros [Hlen Hall]. destruct h as [|a [|b [|c r]]]; try discriminate.
  unfold all_of in Hall. cbn in Hall. rewrite andb_true_r in Hall.
  cbn. now rewrite Hall.
Qed.

Lemma digit_not_space (c : ascii) : is_digit c = true -> is_space c = false.
Proof.
  unfold is_digit, is_space. rewrite andb_true_iff, !Nat.leb_le.
  intros [H1 H2].
  repeat match goal with
  | |- context [(?a <=? ?b)%nat] => destruct (Nat.leb_spec a b)
  | |- context [(?a =? ?b)%nat] => destruct (Nat.eqb_spec a b)
  end; try reflexivity; lia.
Qed.

Lemma number_stops_spaces (d rest : string) :
  number d -> stops is_space (d ++ rest).
Proof.
  intros [Hne Hall]. destruct d as [|c d]; [contradiction|].
  unfold all_of in Hall. cbn in Hall. apply andb_true_iff in Hall.
  cbn. apply digit_not_space. tauto.
Qed.

Lemma rgb_match_complete (r g b w1 w2 rest : string) :
  number r -> number g -> number b -> blank w1 -> blank w2 ->
  rgb_match ("rgb(" ++ r ++ "," ++ w1 ++ g ++ "," ++ w2 ++ b ++ ")" ++ rest)
  = Some (r, g, b).
Proof.
  intros Nr Ng Nb B1 B2. unfold rgb_match.
  cbn [lit append Ascii.eqb Bool.eqb opt_bind].
  rewrite (many1_complete is_digit r _ (proj1 Nr) (proj2 Nr))
    by reflexivity.
  cbn [lit append Ascii.eqb Bool.eqb opt_bind].
  rewrite (spaces_complete w1 _ B1) by (now apply number_stops_spaces).
  rewrite (many1_complete is_digit g _ (proj1 Ng) (proj2 Ng))
    by reflexivity.
  cbn [lit append Ascii.eqb Bool.eqb opt_bind].
  rewrite (spaces_complete w2 _ B2) by (now apply number_stops_spaces).
  rewrite (many1_complete is_digit b _ (proj1 Nb) (proj2 Nb))
    by reflexivity.
  reflexivity.
Qed.

Lemma alpha_stops_spaces (a rest : string) :
  a <> "" -> all_of (fun c => is_digit c || Ascii.eqb c ".") a ->
  stops is_space (a ++ rest).
Proof.
  intros Hne Hall. destruct a as [|c a]; [contradiction|].
  unfold all_of in Hall. cbn in Hall. apply andb_true_iff in Hall.
  destruct Hall as [Hc _]. cbn. apply orb_true_iff in Hc.
  destruct Hc as [Hd | Hdot]; [now apply digit_not_space|].
  apply Ascii.eqb_eq in Hdot. subst c. reflexivity.
Qed.

Lemma rgba_match_complete (r g b a w1 w2 w3 rest : string) :
  number r -> number g -> number b -> blank w1 -> blank w2 -> blank w3 ->
  a <> "" -> all_of (fun c => is_digit c || Ascii.eqb c ".") a ->
  rgba_match ("rgba(" ++ r ++ "," ++ w1 ++ g ++ "," ++ w2 ++ b ++ ","
                      ++ w3 ++ a ++ ")" ++ rest)
  = Some (r, g, b).
Proof.
  intros Nr Ng Nb B1 B2 B3 Na Da. unfold rgba_match.
  cbn [lit append Ascii.eqb Bool.eqb opt_bind].
  rewrite (many1_complete is_digit r _ (proj1 Nr) (proj2 Nr))
    by reflexivity.
  cbn [lit append Ascii.eqb Bool.eqb opt_bind].
  rewrite (spaces_complete w1 _ B1) by (now apply number_stops_spaces).
  rewrite (many1_complete is_digit g _ (proj1 Ng) (proj2 Ng))
    by reflexivity.
  cbn [lit append Ascii.eqb Bool.eqb opt_bind].
  rewrite (spaces_complete w2 _ B2) by (now apply number_stops_spaces).
  rewrite (many1_complete is_digit b _ (proj1 Nb) (proj2 Nb))
    by reflexivity.
  cbn [lit append Ascii.eqb Bool.eqb opt_bind].
  rewrite (spaces_complete w3 _ B3) by (now apply alpha_stops_spaces).
  rewrite (many1_complete _ a _ Na Da) by reflexivity.
  reflexivity.
Qed.

Lemma hex_match_complete (r g b rest : string) :
  hex_pair r -> hex_pair g -> hex_pair b ->
  hex_match ("#" ++ r ++ g ++ b ++ rest) = Some (r, g, b).
Proof.
  intros Pr Pg Pb. unfold hex_match.
  cbn [lit append Ascii.eqb Bool.eqb opt_bind].
  rewrite (hex2_complete r _ Pr). cbn [opt_bind].
  rewrite (hex2_complete g _ Pg). cbn [opt_bind].
  rewrite (hex2_complete b _ Pb). reflexivity.
Qed.

(** X15.  [_parse_color] accepts everything the grammar describes: an input
    that starts with [rgb(r, g, b)], [rgba(r, g, b, a)] or [#RRGGBB]
    (decimal numbers, optional white space after each comma, any text
    behind) parses to the three numbers written. *)
Theorem parse_color_accepts_grammar (s : string) (c : Color)
    (Hform : color_form s c) :
  _parse_color s = Some c.
Proof.
  destruct Hform as [r g b w1 w2 rest Nr Ng Nb B1 B2
                    | r g b a w1 w2 w3 rest Nr Ng Nb B1 B2 B3 Na Da
                    | r g b rest Pr Pg Pb];
    unfold _parse_color.
  - rewrite (rgb_match_complete r g b w1 w2 rest Nr Ng Nb B1 B2).
    reflexivity.
  - rewrite (rgba_match_complete r g b a w1 w2 w3 rest
               Nr Ng Nb B1 B2 B3 Na Da).
    reflexivity.
  - rewrite (hex_match_complete r g b rest Pr Pg Pb). reflexivity.
Qed.

(** X16.  The alpha value of an [rgba(...)] colour is not used: whatever it
    is, the colour parses to the same triple as the [rgb(...)] colour with
    the same channels, so a fully transparent [rgba(r, g, b, 0)] is read as
    the opaque colour. *)
Theorem rgba_alpha_is_ignored (r g b a w1 w2 w3 rest rest' : string)
    (Nr : number r) (Ng : number g) (Nb : number b)
    (B1 : blank w1) (B2 : blank w2) (B3 : blank w3)
    (Na : a <> "")
    (Da : all_of (fun c => is_digit c || Ascii.eqb c ".") a) :
  _parse_color ("rgba(" ++ r ++ "," ++ w1 ++ g ++ "," ++ w2 ++ b ++ ","
                        ++ w3 ++ a ++ ")" ++ rest) =
  _parse_color ("rgb(" ++ r ++ "," ++ w1 ++ g ++ "," ++ w2 ++ b ++ ")"
                       ++ rest') /\
  _parse_color ("rgba(" ++ r ++ "," ++ w1 ++ g ++ "," ++ w2 ++ b ++ ","
                        ++ w3 ++ a ++ ")" ++ rest) =
  Some (int_of_digits r, int_of_digits g, int_of_digits b).
Proof.
  assert (Hrgba : _parse_color
            ("rgba(" ++ r ++ "," ++ w1 ++ g ++ "," ++ w2 ++ b ++ ","
                     ++ w3 ++ a ++ ")" ++ rest) =
          Some (int_of_digits r, int_of_digits g, int_of_digits b)).
  { unfold _parse_color.
    rewrite (rgba_match_complete r g b a w1 w2 w3 rest
               Nr Ng Nb B1 B2 B3 Na Da).
    reflexivity. }
  split; [|exact Hrgba]. rewrite Hrgba. unfold _parse_color.
  rewrite (rgb_match_complete r g b w1 w2 rest' Nr Ng Nb B1 B2).
  reflexivity.
Qed.

End ParseComplete.

Lemma parse_color_accepts_grammar_witness :
  Accessibility._parse_color "#1A2b3Cff" = Some (26, 43, 60).
Proof.
  apply (parse_color_accepts_grammar "#1A2b3Cff" (26, 43, 60)).
  apply (Accessibility.form_hex "1A" "2b" "3C" "ff");
    split; reflexivity.
Defined.

Lemma rgba_alpha_is_ignored_witness :
  Accessibility._parse_color "rgba(12, 34, 56, 0)" =
  Accessibility._parse_color "rgb(12, 34, 56)" /\
  Accessibility._parse_color "rgba(12, 34, 56, 0)" = Some (12, 34, 56).
Proof.
  apply (rgba_alpha_is_ignored "12" "34" "56" "0" " " " " " " "" "");
    try (split; [discriminate | reflexivity]); try reflexivity; discriminate.
Defined.

(** ** The contrast check of one element always reports *)

Section ContrastTotal.

Import Accessibility.

Variables min_contrast_ratio large_text_ratio : R.
Variable WebElement : Type.
Variable find_element : string -> string -> outcome WebElement.
Variable computed_style : WebElement -> outcome Styles.
Variable py_float : string -> outcome R.
Variable format_2f : R -> string.
Variable format_float : R -> string.
Variable str_exn : exn -> string.

(** X17.  Once the element is found, [_check_element_contrast] returns
    whatever happens inside: a failing style script, an unparsable colour or
    an unparsable font size all become a failed check.  The result holds
    exactly one check, of type [contrast_ratio], and has passed exactly when
    that check passed. *)
Theorem element_contrast_reports_one_check
    (element_spec : ElementSpec) (elt : WebElement)
    (Hfound :
       find_element
         (match by_type element_spec with Some b => b | None => "css selector" end)
         (selector element_spec) = Return elt) :
  exists c,
    _check_element_contrast min_contrast_ratio large_text_ratio WebElement
      find_element computed_style py_float format_2f format_float str_exn
      element_spec =
    Return (mkResult (selector element_spec) (ck_passed c) [c]) /\
    ck_type c = "contrast_ratio".
Proof.
  unfold _check_element_contrast. rewrite Hfound. cbn [bind].
  destruct (computed_style elt) as [styles | e]; cbn [bind].
  - unfold contrast_body.
    destruct (_parse_color (color styles)) as [text_color|];
      [destruct (_parse_color (backgroundColor styles)) as [background|]|].
    + destruct (_parse_font_size py_float (fontSize styles)) as [size | e];
        cbn [bind].
      * match goal with
        | |- context [if geb_R ?a ?b then _ else _] => destruct (geb_R a b)
        end; cbn [element passed checks app];
          eexists (mkCheck _ _ _ _ _ _); split; reflexivity.
      * cbn [element passed checks app].
        eexists (mkCheck _ _ _ _ _ _); split; reflexivity.
    + cbn [element passed checks app].
      eexists (mkCheck _ _ _ _ _ _); split; reflexivity.
    + cbn [element passed checks app].
      eexists (mkCheck _ _ _ _ _ _); split; reflexivity.
  - cbn [element passed checks app].
    eexists (mkCheck _ _ _ _ _ _); split; reflexivity.
Qed.

End ContrastTotal.

Lemma element_contrast_reports_one_check_witness :
  exists c,
    Accessibility._check_element_contrast 4.5%R 3.0%R unit
      (fun _ _ => Return tt)
      (fun _ => Raise (ValueError "stale element"))
      (fun _ => Return 16%R) (fun _ => "") (fun _ => "") (fun _ => "stale")
      (Accessibility.mkElementSpec "p.lead" None) =
    Return (Accessibility.mkResult "p.lead" (Accessibility.ck_passed c) [c]) /\
    Accessibility.ck_type c = "contrast_ratio".
Proof.
  apply (element_contrast_reports_one_check 4.5%R 3.0%R unit
           (fun _ _ => Return tt)
           (fun _ => Raise (ValueError "stale element"))
           (fun _ => Return 16%R) (fun _ => "") (fun _ => "")
           (fun _ => "stale")
           (Accessibility.mkElementSpec "p.lead" None) tt).
  reflexivity.
Defined.

(** ** Results and summaries *)

Section CoreFacts.

Import Core.

Variable Details : Type.
Variable Time : Type.

Let Result : Type := VerificationResult Details Time.

Lemma summary4_ext (a b c d a' b' c' d' : Z) :
  a = a' -> b = b' -> c = c' -> d = d' ->
  summary4 a b c d = summary4 a' b' c' d'.
Proof. intros; subst; reflexivity. Qed.

Lemma increment_summary4 (s : Visual.VerificationStatus) (a b c d : Z) :
  increment (status_value s) (summary4 a b c d) =
  summary4 (a + indicator s Visual.PASS) (b + indicator s Visual.FAIL)
           (c + indicator s Visual.WARNING) (d + indicator s Visual.SKIP).
Proof.
  destruct s; cbn [status_value increment summary4 String.eqb Ascii.eqb
                   Bool.eqb];
    apply summary4_ext; unfold indicator; cbn; lia.
Qed.

Lemma count_status_cons (s : Visual.VerificationStatus) (r : Result)
    (rs : list Result) :
  count_status s (r :: rs) =
  indicator (status r) s + count_status s rs.
Proof.
  unfold count_status, indicator. cbn [filter].
  destruct (status_eqb (status r) s); cbn [length]; lia.
Qed.

Lemma fold_summary4 (rs : list Result) (a b c d : Z) :
  fold_left (fun summary result =>
               increment (status_value (status result)) summary)
            rs (summary4 a b c d) =
  summary4 (a + count_status Visual.PASS rs)
           (b + count_status Visual.FAIL rs)
           (c + count_status Visual.WARNING rs)
           (d + count_status Visual.SKIP rs).
Proof.
  revert a b c d. induction rs as [|r rs IH]; intros a b c d.
  - cbn [fold_left]. apply summary4_ext; cbn; lia.
  - cbn [fold_left]. rewrite increment_summary4, IH, !count_status_cons.
    apply summary4_ext; lia.
Qed.

Lemma counts_add_up (rs : list Result) :
  count_status Visual.PASS rs
  + count_status Visual.FAIL rs
  + count_status Visual.WARNING rs
  + count_status Visual.SKIP rs = Z.of_nat (length rs).
Proof.
  induction rs as [|r rs IH]; [reflexivity|].
  rewrite !count_status_cons. cbn [length]. rewrite Nat2Z.inj_succ.
  unfold indicator.
  destruct (status r);
    cbn [status_eqb status_value String.eqb Ascii.eqb Bool.eqb]; lia.
Qed.

(** X18.  [get_summary] counts: its keys are pass, fail, warning and skip in
    this order, the value under each key is the number of recorded results
    with that status, and the four values add up to the number of results. *)
Theorem get_summary_counts (results : list Result) :
  map fst (get_summary results)
    = ["pass"; "fail"; "warning"; "skip"] /\
  (forall s,
     lookup (status_value s) (get_summary results)
     = Some (count_status s results)) /\
  fold_right Z.add 0 (map snd (get_summary results))
    = Z.of_nat (length results).
Proof.
  unfold get_summary.
  change [("pass", 0); ("fail", 0); ("warning", 0); ("skip", 0)]
    with (summary4 0 0 0 0).
  rewrite fold_summary4. split; [reflexivity|]. split.
  - intros s. destruct s; reflexivity.
  - cbn. pose proof (counts_add_up results). lia.
Qed.

(** X19.  [run_verification] always returns a result and appends exactly
    that result to the verifier's list, also when [verify] raises: then the
    result is a FAIL carrying the class name.  The duration is the
    difference of the two clock readings in milliseconds, and in the
    summary exactly the count of the returned status grows, by one. *)
Theorem run_verification_records_result
    (class_name : string) (str_exn : exn -> string)
    (verify : outcome Result) (start_time end_time : Q) (now : Time)
    (results : list Result) :
  let out := run_verification class_name str_exn verify
               start_time end_time now results in
  snd out = (results ++ [fst out])%list /\
  duration_ms (fst out) = Some ((end_time - start_time) * 1000)%Q /\
  (forall e, verify = Raise e ->
     status (fst out) = Visual.FAIL /\ check_name (fst out) = class_name /\
     details (fst out) = None) /\
  (forall r, verify = Return r ->
     status (fst out) = status r /\ check_name (fst out) = check_name r /\
     message (fst out) = message r /\ details (fst out) = details r) /\
  (forall s,
     count_status s (snd out) =
     count_status s results
     + (if status_eqb (status (fst out)) s then 1 else 0)).
Proof.
  cbv zeta.
  assert (Hcount : forall (r : Result) s,
            count_status s (results ++ [r]) =
            count_status s results
            + (if status_eqb (status r) s then 1 else 0)).
  { intros r s. unfold count_status. rewrite filter_app, length_app.
    cbn [filter]. destruct (status_eqb (status r) s); cbn [length];
      rewrite Nat2Z.inj_add; reflexivity. }
  unfold run_verification. destruct verify as [r | e]; cbn [fst snd].
  - split; [reflexivity|]. split; [reflexivity|].
    split; [intros e H; discriminate H|].
    split; [intros r' H; inversion H; subst; cbn; auto|].
    intros s. apply Hcount.
  - split; [reflexivity|]. split; [reflexivity|].
    split; [intros e' H; cbn; auto|].
    split; [intros r' H; discriminate H|].
    intros s. apply Hcount.
Qed.

End CoreFacts.

(** ** The summary of a report *)

Section ConfigFacts.

Import Config.

Lemma count_cons (s t : Visual.VerificationStatus)
    (l : list Visual.VerificationStatus) :
  count s (t :: l) = (if Core.status_eqb t s then 1 else 0) + count s l.
Proof.
  unfold count. cbn [filter].
  destruct (Core.status_eqb t s); cbn [length]; lia.
Qed.

Lemma count_bounds (s : Visual.VerificationStatus)
    (l : list Visual.VerificationStatus) :
  0 <= count s l <= Z.of_nat (length l).
Proof.
  unfold count. pose proof (filter_length_le (fun t => Core.status_eqb t s) l).
  lia.
Qed.

(** X20.  In the summary of a report the four counts add up to the total,
    which is the number of results; the success rate is 0 for an empty
    report (no division is attempted) and always lies between 0 and 100;
    and it is 100 exactly when every result passed, for a report that is
    not empty. *)
Theorem generate_summary_consistent
    (statuses : list Visual.VerificationStatus) :
  let s := _generate_summary statuses in
  total_checks s = Z.of_nat (length statuses) /\
  passed s + failed s + warnings s + skipped s = total_checks s /\
  (statuses = [] -> success_rate s = 0%Q) /\
  (0 <= success_rate s)%Q /\ (success_rate s <= 100)%Q /\
  (statuses <> [] ->
   (success_rate s == 100)%Q <-> Forall (fun t => t = Visual.PASS) statuses).
Proof.
  cbv zeta. unfold _generate_summary.
  cbn [total_checks passed failed warnings skipped success_rate].
  split; [reflexivity|]. split.
  { induction statuses as [|t l IH]; [reflexivity|].
    rewrite !count_cons. cbn [length]. rewrite Nat2Z.inj_succ.
    destruct t;
      cbn [Core.status_eqb Core.status_value String.eqb Ascii.eqb Bool.eqb];
      lia. }
  split; [intros ->; reflexivity|].
  pose proof (count_bounds Visual.PASS statuses) as Hb.
  destruct (Z.ltb_spec 0 (Z.of_nat (length statuses))) as [Hpos | Hzero].
  - set (n := Z.of_nat (length statuses)) in *.
    set (k := count Visual.PASS statuses) in *.
    assert (Hq : (0 < inject_Z n)%Q) by (unfold Qlt; simpl; lia).
    assert (Hlo : (0 <= inject_Z k / inject_Z n)%Q).
    { apply Qle_shift_div_l; [exact Hq|]. rewrite Qmult_0_l.
      unfold Qle, inject_Z. cbn [Qnum Qden]. lia. }
    assert (Hhi : (inject_Z k / inject_Z n <= 1)%Q).
    { apply Qle_shift_div_r; [exact Hq|]. rewrite Qmult_1_l.
      rewrite <- Zle_Qle. lia. }
    split; [Lqa.lra|]. split; [Lqa.lra|].
    intros _.
    assert (Hall : k = n <-> Forall (fun t => t = Visual.PASS) statuses).
    { subst k n. clear. induction statuses as [|t l IH].
      - split; [constructor | reflexivity].
      - rewrite count_cons. cbn [length]. rewrite Nat2Z.inj_succ.
        pose proof (count_bounds Visual.PASS l) as Hcb.
        destruct t; cbn [Core.status_eqb Core.status_value String.eqb
                         Ascii.eqb Bool.eqb];
          (split;
           [ intros Hx; first [lia | constructor; [reflexivity | apply IH; lia]]
           | intros Hx; inversion Hx as [|? ? Ht Hl]; subst;
             try discriminate Ht; apply IH in Hl; lia ]). }
    rewrite <- Hall. split.
    + intros H.
      assert (Hone : (inject_Z k / inject_Z n == 1)%Q) by Lqa.lra.
      assert (Hkn : (inject_Z k == inject_Z n)%Q).
      { rewrite <- (Qmult_div_r (inject_Z k) (inject_Z n)) by Lqa.lra.
        rewrite Hone. apply Qmult_1_r. }
      unfold Qeq, inject_Z in Hkn. cbn [Qnum Qden] in Hkn. lia.
    + intros ->. field. Lqa.lra.
  - split; [Lqa.lra|]. split; [Lqa.lra|].
    intros Hne. destruct statuses; [contradiction | cbn in Hzero; lia].
Qed.

End ConfigFacts.

(** ** Colour utilities *)

Section ColorUtilsFacts.

Import Accessibility Utils.

(** The check behind [format_02x_pair], run on the 256 channel values. *)
Lemma format_02x_table :
  forallb (fun n =>
             match format_02x n with
             | String a (String b EmptyString) =>
                 is_hex a && is_hex b && negb (Ascii.eqb a "#")
                 && (int_of_hex (format_02x n) =? n)
             | _ => false
             end)
          (map Z.of_nat (seq 0 256)) = true.
Proof. vm_compute. reflexivity. Qed.

Lemma format_02x_pair (n : Z) :
  0 <= n <= 255 ->
  exists a b,
    format_02x n = String a (String b EmptyString) /\
    is_hex a = true /\ is_hex b = true /\ a <> "#"%char /\
    int_of_hex (format_02x n) = n.
Proof.
  intros Hn. pose proof format_02x_table as Htable.
  rewrite forallb_forall in Htable.
  assert (Hin : In n (map Z.of_nat (seq 0 256))).
  { apply in_map_iff. exists (Z.to_nat n). split; [lia|].
    apply in_seq. lia. }
  specialize (Htable n Hin).
  destruct (format_02x n) as [|a [|b [|c r]]]; try discriminate.
  apply andb_true_iff in Htable. destruct Htable as [Htable Hval].
  apply andb_true_iff in Htable. destruct Htable as [Htable Hhash].
  apply andb_true_iff in Htable. destruct Htable as [Ha Hb].
  exists a, b. split; [reflexivity|]. split; [exact Ha|]. split; [exact Hb|].
  split.
  - intros ->. discriminate Hhash.
  - now apply Z.eqb_eq.
Qed.

(** X21.  Round trip through the hexadecimal form: for a triple with
    channels in 0..255, [rgb_to_hex] gives a string of seven characters that
    [parse_css_color], [_parse_color] and [hex_to_rgb] all read back as the
    same triple ([int(s, 16)] being taken to return the value of two
    hexadecimal digits). *)
Theorem rgb_to_hex_round_trip (py_int16 : string -> outcome Z) (c : Color)
    (Hrgb : is_rgb c)
    (Hint : forall a b, is_hex a = true -> is_hex b = true ->
            py_int16 (String a (String b EmptyString)) =
            Return (int_of_hex (String a (String b EmptyString)))) :
  String.length (rgb_to_hex c) = 7%nat /\
  parse_css_color (rgb_to_hex c) = Some c /\
  _parse_color (rgb_to_hex c) = Some c /\
  hex_to_rgb py_int16 (rgb_to_hex c) = Return (Some c).
Proof.
  destruct c as [[r g] b]. destruct Hrgb as (Hr & Hg & Hb).
  destruct (format_02x_pair r Hr) as (r1 & r2 & Er & Hr1 & Hr2 & Hr3 & Vr).
  destruct (format_02x_pair g Hg) as (g1 & g2 & Eg & Hg1 & Hg2 & Hg3 & Vg).
  destruct (format_02x_pair b Hb) as (b1 & b2 & Eb & Hb1 & Hb2 & Hb3 & Vb).
  unfold rgb_to_hex. rewrite Er, Eg, Eb in *.
  cbn [append String.length].
  split; [reflexivity|].
  assert (Hmatch :
            hex_match
              (String "#" (String r1 (String r2 (String g1 (String g2
                 (String b1 (String b2 EmptyString))))))) =
            Some (String r1 (String r2 EmptyString),
                  String g1 (String g2 EmptyString),
                  String b1 (String b2 EmptyString))).
  { unfold hex_match, hex2. cbn [lit Ascii.eqb Bool.eqb opt_bind].
    rewrite Hr1, Hr2. cbn [andb opt_bind].
    rewrite Hg1, Hg2. cbn [andb opt_bind].
    rewrite Hb1, Hb2. reflexivity. }
  split; [|split].
  - unfold parse_css_color. cbn [String.eqb Ascii.eqb Bool.eqb orb].
    cbn [rgb_match rgba_match lit Ascii.eqb Bool.eqb opt_bind].
    rewrite Hmatch, Vr, Vg, Vb. reflexivity.
  - unfold _parse_color. cbn [String.eqb Ascii.eqb Bool.eqb orb].
    cbn [rgb_match rgba_match lit Ascii.eqb Bool.eqb opt_bind].
    rewrite Hmatch, Vr, Vg, Vb. reflexivity.
  - unfold hex_to_rgb. cbn [lstrip_hash Ascii.eqb Bool.eqb].
    destruct (Ascii.eqb_spec r1 "#") as [E | _]; [contradiction|].
    cbn [String.length Nat.eqb substring].
    rewrite (Hint r1 r2 Hr1 Hr2), (Hint g1 g2 Hg1 Hg2), (Hint b1 b2 Hb1 Hb2).
    cbn [bind]. rewrite Vr, Vg, Vb. reflexivity.
Qed.

Local Open Scope R_scope.

Lemma utils_luminance_bounds (c : Color) :
  is_rgb c -> 0 <= calculate_luminance c <= 1.
Proof.
  destruct c as [[r g] b]. intros (Hr & Hg & Hb). unfold calculate_luminance.
  pose proof (channel_bounds _ (unit_of_byte r Hr)).
  pose proof (channel_bounds _ (unit_of_byte g Hg)).
  pose proof (channel_bounds _ (unit_of_byte b Hb)).
  lra.
Qed.

(** X22.  [is_color_accessible] does not depend on which colour is the
    foreground; a pair that is accessible as normal text (ratio at least
    4.5) is accessible as large text (ratio at least 3.0); and, for
    channels in 0..255, a colour is never accessible against itself, its
    ratio being 1. *)
Theorem color_accessibility_properties (c1 c2 : Color) (large : bool)
    (H1 : is_rgb c1) :
  is_color_accessible c1 c2 large = is_color_accessible c2 c1 large /\
  (fst (is_color_accessible c1 c2 false) = true ->
   fst (is_color_accessible c1 c2 true) = true) /\
  is_color_accessible c1 c1 large = (false, 1).
Proof.
  assert (Hsym : calculate_contrast_ratio c1 c2
                 = calculate_contrast_ratio c2 c1).
  { unfold calculate_contrast_ratio, float_max, float_min.
    destruct (Rlt_dec (calculate_luminance c1) (calculate_luminance c2)),
             (Rlt_dec (calculate_luminance c2) (calculate_luminance c1));
      try reflexivity; try lra.
    replace (calculate_luminance c2) with (calculate_luminance c1) by lra.
    reflexivity. }
  split; [unfold is_color_accessible; now rewrite Hsym|]. split.
  - unfold is_color_accessible, geb_R. cbn [fst].
    destruct (Rle_dec 4.5 (calculate_contrast_ratio c1 c2)) as [H45 | _];
      [|discriminate].
    destruct (Rle_dec 3.0 (calculate_contrast_ratio c1 c2)) as [_ | H30];
      [reflexivity | lra].
  - assert (Hone : calculate_contrast_ratio c1 c1 = 1).
    { unfold calculate_contrast_ratio, float_max, float_min.
      pose proof (utils_luminance_bounds c1 H1).
      destruct (Rlt_dec (calculate_luminance c1) (calculate_luminance c1));
        [lra|].
      apply Rinv_r. lra. }
    unfold is_color_accessible. rewrite Hone. unfold geb_R.
    destruct large;
      [destruct (Rle_dec 3.0 1) | destruct (Rle_dec 4.5 1)];
      try lra; reflexivity.
Qed.

End ColorUtilsFacts.

Lemma rgb_to_hex_round_trip_witness :
  String.length (Utils.rgb_to_hex (255, 0, 171)) = 7%nat /\
  Utils.parse_css_color (Utils.rgb_to_hex (255, 0, 171)) = Some (255, 0, 171) /\
  Accessibility._parse_color (Utils.rgb_to_hex (255, 0, 171))
    = Some (255, 0, 171) /\
  Utils.hex_to_rgb Utils.int16_of_digits (Utils.rgb_to_hex (255, 0, 171))
    = Return (Some (255, 0, 171)).
Proof.
  apply (rgb_to_hex_round_trip Utils.int16_of_digits (255, 0, 171)).
  - simpl. lia.
  - intros a b Ha Hb. unfold Utils.int16_of_digits.
    cbn [String.eqb negb list_ascii_of_string forallb andb].
    rewrite Ha, Hb. reflexivity.
Defined.

Lemma color_accessibility_properties_witness :
  Utils.is_color_accessible (119, 119, 119) (119, 119, 119) false
  = (false, 1%R).
Proof.
  apply (color_accessibility_properties (119, 119, 119) (255, 255, 255) false).
  simpl. lia.
Defined.

(** ** Collecting verifiers *)

Section VisualVerifierFacts.

Import Core Verifiers.

Variable Details : Type.
Variable Time : Type.
Variable now : Time.
Variable screenshot_verify : outcome (VerificationResult Details Time).
Variable elements_verify : outcome (VerificationResult Details Time).

Lemma status_eqb_eq (s t : Visual.VerificationStatus) :
  status_eqb s t = true <-> s = t.
Proof. destruct s, t; cbn; split; intros H; try reflexivity; discriminate. Qed.

Lemma run_checks_selects
    (rs re : VerificationResult Details Time) (checks : list string)
    (acc : list (VerificationResult Details Time)) :
  run_checks Details Time (Return rs) (Return re) checks acc =
  Return (acc ++ flat_map
                   (fun check =>
                      if (check =? "screenshot")%string then [rs]
                      else if (check =? "elements")%string then [re]
                      else [])
                   checks)%list.
Proof.
  revert acc.
  induction checks as [|check rest IH]; intros acc; cbn [run_checks flat_map].
  - now rewrite app_nil_r.
  - destruct (check =? "screenshot")%string.
    + cbn [bind]. rewrite IH, <- app_assoc. reflexivity.
    + destruct (check =? "elements")%string.
      * cbn [bind]. rewrite IH, <- app_assoc. reflexivity.
      * apply IH.
Qed.

(** X23.  When both sub-verifiers return, [VisualVerifier.verify] returns
    one individual result for every ['screenshot'] and ['elements'] in
    [checks], in order, and ignores every other name.  Its status is PASS
    exactly when every individual result is PASS, so also when no name is
    recognised; FAIL exactly when one of them is FAIL; and WARNING in the
    remaining case. *)
Theorem visual_verifier_overall_status
    (checks : option (list string))
    (rs re : VerificationResult Details Time)
    (Hscreenshot : screenshot_verify = Return rs)
    (Helements : elements_verify = Return re) :
  let selected :=
    flat_map (fun check =>
                if (check =? "screenshot")%string then [rs]
                else if (check =? "elements")%string then [re]
                else [])
             (match checks with
              | Some c => c
              | None => ["screenshot"; "elements"]
              end) in
  exists top,
    VisualVerifier_verify Details Time now screenshot_verify elements_verify
      checks = Return top /\
    details top = Some selected /\
    (status top = Visual.PASS <->
     Forall (fun r => status r = Visual.PASS) selected) /\
    (status top = Visual.FAIL <->
     ~ Forall (fun r => status r = Visual.PASS) selected /\
     Exists (fun r => status r = Visual.FAIL) selected) /\
    (status top = Visual.WARNING <->
     ~ Forall (fun r => status r = Visual.PASS) selected /\
     ~ Exists (fun r => status r = Visual.FAIL) selected).
Proof.
  cbv zeta. unfold VisualVerifier_verify.
  rewrite Hscreenshot, Helements, (run_checks_selects rs re _ []).
  cbn [bind app].
  set (selected := flat_map _ _).
  eexists. split; [reflexivity|]. cbn [details status fst].
  split; [reflexivity|].
  assert (Hall : forallb (fun r => status_eqb (status r) Visual.PASS) selected
                 = true <->
                 Forall (fun r => status r = Visual.PASS) selected).
  { rewrite forallb_forall, Forall_forall.
    split; intros H r Hr; apply status_eqb_eq, H, Hr. }
  assert (Hex : existsb (fun r => status_eqb (status r) Visual.FAIL) selected
                = true <->
                Exists (fun r => status r = Visual.FAIL) selected).
  { rewrite existsb_exists, Exists_exists.
    split; intros (r & Hr & H); exists r; split; try assumption;
      now apply status_eqb_eq. }
  destruct (forallb (fun r => status_eqb (status r) Visual.PASS) selected).
  - cbn [fst]. assert (HF : Forall (fun r => status r = Visual.PASS) selected)
      by (now apply Hall).
    split; [tauto|]. split; split;
      try discriminate; intros [Hn _]; contradiction.
  - assert (HF : ~ Forall (fun r => status r = Visual.PASS) selected)
      by (intros H; apply Hall in H; discriminate).
    destruct (existsb (fun r => status_eqb (status r) Visual.FAIL) selected).
    + cbn [fst]. assert (HE : Exists (fun r => status r = Visual.FAIL) selected)
        by (now apply Hex).
      split; [split; [discriminate | contradiction]|].
      split; [tauto|]. split; [discriminate | tauto].
    + cbn [fst].
      assert (HE : ~ Exists (fun r => status r = Visual.FAIL) selected)
        by (intros H; apply Hex in H; discriminate).
      split; [split; [discriminate | contradiction]|].
      split; [split; [discriminate | tauto] | tauto].
Qed.

End VisualVerifierFacts.

Lemma visual_verifier_overall_status_witness :
  exists top,
    Verifiers.VisualVerifier_verify unit unit tt
      (Return (Core.mkVerificationResult unit unit "ScreenshotComparator"
                 Visual.PASS "ok" None tt None))
      (Return (Core.mkVerificationResult unit unit "ElementDetector"
                 Visual.WARNING "No elements specified for detection"
                 None tt None))
      (Some ["layout"; "elements"]) = Return top /\
    Core.status top = Visual.WARNING.
Proof.
  destruct (visual_verifier_overall_status unit unit tt
              (Return (Core.mkVerificationResult unit unit
                         "ScreenshotComparator" Visual.PASS "ok" None tt None))
              (Return (Core.mkVerificationResult unit unit "ElementDetector"
                         Visual.WARNING "No elements specified for detection"
                         None tt None))
              (Some ["layout"; "elements"]) _ _ eq_refl eq_refl)
    as (top & Etop & _ & _ & _ & Hwarning).
  exists top. split; [exact Etop|]. apply Hwarning. split.
  - intros H. inversion H as [|? ? Hhead _]. discriminate Hhead.
  - intros H. inversion H as [? ? Hhead | ? ? Htail];
      [discriminate Hhead | inversion Htail].
Defined.

(** ** The alignment checker as a whole *)

Section AlignmentVerifyFacts.

Import Core Verifiers.

Variable Time : Type.
Variable now : Time.
Variable tolerance : Z.
Variable find_bounds : string -> string -> outcome Bounds.
Variable str_exn : exn -> string.

Lemma alignment_block_sets_passed (ty all_equal label : string)
    (positions : list Z) (result r : Layout.Result) :
  Layout.passed result <> None ->
  Layout.alignment_block tolerance ty all_equal label positions result
    = Return r ->
  Layout.passed r <> None.
Proof.
  intros Hset. unfold Layout.alignment_block.
  destruct (len_set positions =? 1)%nat.
  - intros H. inversion H. exact Hset.
  - destruct (py_max positions) as [mx|]; cbn [bind]; [|discriminate].
    destruct (py_min positions) as [mn|]; cbn [bind]; [|discriminate].
    destruct (mx - mn <=? tolerance); intros H; inversion H;
      [exact Hset | discriminate].
Qed.

Lemma absorb_sets_passed (tag : Layout.Check -> Layout.Check)
    (sub result : Layout.Result) :
  Layout.passed result <> None ->
  Layout.passed (Layout.absorb tag sub result) <> None.
Proof.
  unfold Layout.absorb. generalize (Layout.checks sub) as l. intros l.
  revert result. induction l as [|c l IH]; intros result Hset;
    cbn [fold_left]; [exact Hset|].
  apply IH. destruct (negb (Layout.ck_passed (tag c)));
    [discriminate | exact Hset].
Qed.

Lemma row_loop_sets_passed (rows : list (Z * list Bounds))
    (result r : Layout.Result) :
  Layout.passed result <> None ->
  Layout.row_loop tolerance rows result = Return r ->
  Layout.passed r <> None.
Proof.
  revert result. induction rows as [|[i row] rows IH]; intros result Hset;
    cbn [Layout.row_loop].
  - intros H. inversion H. subst. exact Hset.
  - destruct (1 <? length row)%nat; [|now apply IH].
    destruct (Layout._check_horizontal_alignment tolerance row []
                Layout.fresh_result) as [sub|]; cbn [bind]; [|discriminate].
    apply IH. now apply absorb_sets_passed.
Qed.

Lemma column_loop_sets_passed (rows : list (list Bounds)) (cols : list Z)
    (result r : Layout.Result) :
  Layout.passed result <> None ->
  Layout.column_loop tolerance rows cols result = Return r ->
  Layout.passed r <> None.
Proof.
  revert result. induction cols as [|col cols IH]; intros result Hset;
    cbn [Layout.column_loop].
  - intros H. inversion H. subst. exact Hset.
  - destruct (1 <? length (Layout.column_of rows col))%nat; [|now apply IH].
    destruct (Layout._check_vertical_alignment tolerance
                (Layout.column_of rows col) [] Layout.fresh_result) as [sub|];
      cbn [bind]; [|discriminate].
    apply IH. now apply absorb_sets_passed.
Qed.

(** Every result that [_check_alignment] returns has the key ['passed']. *)
Lemma check_alignment_sets_passed (check : Layout.AlignmentSpec)
    (r : Layout.Result) :
  Layout._check_alignment tolerance find_bounds check = Return r ->
  Layout.passed r <> None.
Proof.
  unfold Layout._check_alignment.
  set (result := Layout.mkResult _ _ (Some true) []).
  assert (Hset : Layout.passed result <> None) by discriminate.
  destruct (length (Layout.spec_elements check) <? 2)%nat.
  { intros H. inversion H. discriminate. }
  destruct (Layout.get_bounds find_bounds (Layout.spec_elements check))
    as [element_bounds|]; cbn [bind]; [|discriminate].
  destruct (_ =? "horizontal")%string.
  { unfold Layout._check_horizontal_alignment.
    destruct (Layout.alignment_block tolerance "top_alignment" _ _ _ result)
      as [r1|] eqn:E1; cbn [bind]; [|discriminate].
    apply alignment_block_sets_passed.
    exact (alignment_block_sets_passed _ _ _ _ _ _ Hset E1). }
  destruct (_ =? "vertical")%string.
  { unfold Layout._check_vertical_alignment.
    destruct (Layout.alignment_block tolerance "left_alignment" _ _ _ result)
      as [r1|] eqn:E1; cbn [bind]; [|discriminate].
    apply alignment_block_sets_passed.
    exact (alignment_block_sets_passed _ _ _ _ _ _ Hset E1). }
  destruct (_ =? "grid")%string.
  { unfold Layout._check_grid_alignment.
    destruct (_ =? 0); cbn [bind]; [discriminate|].
    destruct (py_range_step _ _) as [starts|]; cbn [bind]; [|discriminate].
    destruct (Layout.row_loop tolerance _ result) as [r1|] eqn:E1;
      cbn [bind]; [|discriminate].
    apply column_loop_sets_passed.
    exact (row_loop_sets_passed _ _ _ Hset E1). }
  intros H. inversion H. subst. exact Hset.
Qed.

Lemma entry_of_returned (check : Layout.AlignmentSpec)
    (result : Layout.Result) :
  Layout._check_alignment tolerance find_bounds check = Return result ->
  entry_of tolerance find_bounds str_exn check = Checked result.
Proof. intros H. unfold entry_of. now rewrite H. Qed.

Lemma entry_of_raised (check : Layout.AlignmentSpec) (e : exn) :
  Layout._check_alignment tolerance find_bounds check = Raise e ->
  entry_of tolerance find_bounds str_exn check =
  Errored (Layout.spec_elements check) (str_exn e).
Proof. intros H. unfold entry_of. now rewrite H. Qed.

Lemma verify_loop_spec (checks : list Layout.AlignmentSpec)
    (results : list Entry) (all_passed : bool) :
  verify_loop tolerance find_bounds str_exn checks results all_passed =
  ((results ++ map (entry_of tolerance find_bounds str_exn) checks)%list,
   all_passed
   && forallb entry_flag (map (entry_of tolerance find_bounds str_exn) checks)).
Proof.
  revert results all_passed.
  induction checks as [|check rest IH]; intros results all_passed;
    cbn [verify_loop map forallb].
  - now rewrite app_nil_r, andb_true_r.
  - destruct (Layout._check_alignment tolerance find_bounds check)
      as [result | e] eqn:E.
    + rewrite (entry_of_returned _ _ E), IH, <- app_assoc.
      cbn [app entry_flag]. f_equal.
      destruct (flag result), all_passed; reflexivity.
    + rewrite (entry_of_raised _ _ E), IH, <- app_assoc.
      cbn [app entry_flag andb]. f_equal. now rewrite andb_false_r.
Qed.

(** X24.  [AlignmentChecker.verify] gives a WARNING without details when
    no check is requested.  Otherwise it records exactly one entry per
    requested check, in order: the result of [_check_alignment], or an error
    entry when that raised (a later check is still run).  The status is
    PASS exactly when every check returned a result that has passed, and
    FAIL otherwise. *)
Theorem alignment_verify_collects_every_check
    (alignment_checks : list Layout.AlignmentSpec) :
  let verdict := AlignmentChecker_verify Time now tolerance find_bounds
                   str_exn alignment_checks in
  (alignment_checks = [] ->
   status verdict = Visual.WARNING /\ details verdict = None) /\
  (alignment_checks <> [] ->
   details verdict =
     Some (map (entry_of tolerance find_bounds str_exn) alignment_checks) /\
   (status verdict = Visual.PASS <->
    forall check, In check alignment_checks ->
    exists result,
      Layout._check_alignment tolerance find_bounds check = Return result /\
      Layout.passed result = Some true) /\
   (status verdict = Visual.PASS \/ status verdict = Visual.FAIL)).
Proof.
  cbv zeta. split.
  - intros ->. split; reflexivity.
  - intros Hne. unfold AlignmentChecker_verify.
    destruct alignment_checks as [|check rest] eqn:E; [contradiction|].
    rewrite <- E in *. rewrite verify_loop_spec. cbn [app andb].
    cbn [details status].
    split; [reflexivity|].
    assert (Hall :
              forallb entry_flag
                (map (entry_of tolerance find_bounds str_exn) alignment_checks)
              = true <->
              forall c, In c alignment_checks ->
              exists result,
                Layout._check_alignment tolerance find_bounds c
                  = Return result /\
                Layout.passed result = Some true).
    { rewrite forallb_forall. split.
      - intros H c Hc.
        specialize (H _ (in_map (entry_of tolerance find_bounds str_exn) _ _ Hc)).
        unfold entry_of in H.
        destruct (Layout._check_alignment tolerance find_bounds c)
          as [result | e]; [|discriminate].
        exists result. split; [reflexivity|].
        cbn [entry_flag] in H. unfold flag in H.
        destruct (Layout.passed result) as [[|]|]; try discriminate.
        reflexivity.
      - intros H e He. apply in_map_iff in He.
        destruct He as (c & <- & Hc).
        destruct (H c Hc) as (result & Er & Hp).
        unfold entry_of. rewrite Er. cbn [entry_flag]. unfold flag.
        now rewrite Hp. }
    destruct (forallb entry_flag
                (map (entry_of tolerance find_bounds str_exn) alignment_checks)).
    + split; [|now left]. split; [intros _; now apply Hall | reflexivity].
    + split; [|now right].
      split; [discriminate|]. intros H. apply Hall in H. discriminate.
Qed.

End AlignmentVerifyFacts.

Lemma alignment_verify_collects_every_check_witness :
  Core.details
    (Verifiers.AlignmentChecker_verify unit tt 5
       (fun _ sel => if (sel =? "#a")%string then Return (Layout.box 0 0)
                     else Raise (NoSuchElementException sel))
       (fun _ => "no such element")
       [Layout.mkAlignmentSpec
          [Layout.mkElementSpec "#a" None; Layout.mkElementSpec "#gone" None]
          None None None;
        Layout.mkAlignmentSpec
          [Layout.mkElementSpec "#a" None; Layout.mkElementSpec "#a" None]
          None None None]) =
  Some (map (Verifiers.entry_of 5
               (fun _ sel => if (sel =? "#a")%string
                             then Return (Layout.box 0 0)
                             else Raise (NoSuchElementException sel))
               (fun _ => "no such element"))
          [Layout.mkAlignmentSpec
             [Layout.mkElementSpec "#a" None; Layout.mkElementSpec "#gone" None]
             None None None;
           Layout.mkAlignmentSpec
             [Layout.mkElementSpec "#a" None; Layout.mkElementSpec "#a" None]
             None None None]).
Proof.
  apply (alignment_verify_collects_every_check unit tt 5
           (fun _ sel => if (sel =? "#a")%string then Return (Layout.box 0 0)
                         else Raise (NoSuchElementException sel))
           (fun _ => "no such element")
           [Layout.mkAlignmentSpec
              [Layout.mkElementSpec "#a" None; Layout.mkElementSpec "#gone" None]
              None None None;
            Layout.mkAlignmentSpec
              [Layout.mkElementSpec "#a" None; Layout.mkElementSpec "#a" None]
              None None None]).
  discriminate.
Defined.

(** ** Element detection *)

Section ElementDetectorFacts.

Import Core Verifiers.

Variable Time : Type.
Variable now : Time.
Variable find_element : string -> string -> outcome Element.
Variable str_exn : exn -> string.

Lemma text_differs_iff (element_spec : DetectSpec) (element : Element) :
  (exists t, d_text element_spec = Some t /\ t <> "" /\ text element <> t) <->
  match d_text element_spec with
  | Some t => negb (t =? "")%string && negb (text element =? t)%string = true
  | None => False
  end.
Proof.
  destruct (d_text element_spec) as [t|].
  - rewrite andb_true_iff, !negb_true_iff, !String.eqb_neq. split.
    + intros (t' & E & H1 & H2). inversion E; subst. auto.
    + intros [H1 H2]. exists t. auto.
  - split; [intros (t & E & _); discriminate E | contradiction].
Qed.

Lemma visibility_differs_iff (expected_visible : option bool)
    (element : Element) :
  (exists ev, expected_visible = Some ev /\ is_displayed element <> ev) <->
  match expected_visible with
  | Some ev => negb (Bool.eqb (is_displayed element) ev) = true
  | None => False
  end.
Proof.
  destruct expected_visible as [ev|].
  - rewrite negb_true_iff. split.
    + intros (ev' & E & H). inversion E; subst.
      destruct (is_displayed element), ev'; try reflexivity; contradiction.
    + intros H. exists ev. split; [reflexivity|].
      intros E. rewrite E in H. destruct ev; discriminate.
  - split; [intros (ev & E & _); discriminate E | contradiction].
Qed.

(** X25.  For a specification with a selector, [_check_element] never
    raises and reports one of four statuses: [not_found] exactly when the
    element cannot be found; otherwise [text_mismatch] exactly when a
    non-empty text is expected and differs, whatever the visibility;
    otherwise [visibility_mismatch] exactly when a visibility is expected (by
    default: visible) and differs; otherwise [found]. *)
Theorem check_element_status (element_spec : DetectSpec) (sel : string)
    (Hselector : d_selector element_spec = Some sel) :
  let by_ := match d_by element_spec with
             | Some b => b | None => "css selector" end in
  let expected_visible := match d_visible element_spec with
                          | Some v => v | None => Some true end in
  let text_differs (element : Element) :=
    exists t, d_text element_spec = Some t /\ t <> "" /\ text element <> t in
  let visibility_differs (element : Element) :=
    exists ev, expected_visible = Some ev /\ is_displayed element <> ev in
  exists result,
    _check_element find_element str_exn element_spec = Some result /\
    r_selector result = sel /\
    (forall e, find_element by_ sel = Raise e ->
       r_status result = "not_found" /\ r_message result = Some (str_exn e)) /\
    (forall element, find_element by_ sel = Return element ->
       r_visible result = Some (is_displayed element) /\
       r_text result = Some (text element) /\
       (text_differs element -> r_status result = "text_mismatch") /\
       (~ text_differs element -> visibility_differs element ->
        r_status result = "visibility_mismatch") /\
       (~ text_differs element -> ~ visibility_differs element ->
        r_status result = "found" /\ r_message result = None)).
Proof.
  cbv zeta. unfold _check_element. rewrite Hselector.
  destruct (find_element _ sel) as [element | e]; eexists;
    (split; [reflexivity|]).
  - split.
    { destruct (match d_visible element_spec with
                | Some v => v | None => Some true end) as [ev|];
        [destruct (negb (Bool.eqb (is_displayed element) ev))|];
        (destruct (d_text element_spec) as [t|];
         [destruct (negb (t =? "")%string && negb (text element =? t)%string)|]);
        reflexivity. }
    split; [intros e H; discriminate H|].
    intros element' H. inversion H; subst element'; clear H.
    rewrite text_differs_iff, visibility_differs_iff.
    destruct (match d_visible element_spec with
              | Some v => v | None => Some true end) as [ev|];
      [destruct (negb (Bool.eqb (is_displayed element) ev))|];
      (destruct (d_text element_spec) as [t|];
       [destruct (negb (t =? "")%string && negb (text element =? t)%string)|]);
      cbn [r_visible r_text r_status r_message];
      repeat split; try reflexivity; intros; try contradiction;
        try discriminate;
        try (exfalso; auto; fail).
  - split; [reflexivity|]. split.
    + intros e' H. inversion H; subst. split; reflexivity.
    + intros element H. discriminate H.
Qed.

Lemma check_element_found_iff (element_spec : DetectSpec) :
  r_status (detected_entry find_element str_exn element_spec) = "found" <->
  exists sel element,
    d_selector element_spec = Some sel /\
    find_element (match d_by element_spec with
                  | Some b => b | None => "css selector" end) sel
      = Return element /\
    (forall t, d_text element_spec = Some t -> t = "" \/ text element = t) /\
    (forall ev, match d_visible element_spec with
                | Some v => v | None => Some true end = Some ev ->
                is_displayed element = ev).
Proof.
  unfold detected_entry, _check_element.
  destruct (d_selector element_spec) as [sel|].
  2:{ split; [discriminate | intros (sel & element & H & _); discriminate H]. }
  destruct (find_element _ sel) as [element | e] eqn:Ef.
  2:{ split; [discriminate|].
      intros (sel' & element & H & H' & _). inversion H; subst.
      rewrite Ef in H'. discriminate H'. }
  split.
  - intros H. exists sel, element. split; [reflexivity|].
    split; [exact Ef|].
    destruct (d_text element_spec) as [t|].
    + destruct (t =? "")%string eqn:Et; cbn [negb andb] in H.
      * split; [intros t' E; inversion E; subst; left;
                now apply String.eqb_eq|].
        intros ev Ev. rewrite Ev in H.
        destruct (Bool.eqb (is_displayed element) ev) eqn:Eb;
          [now apply Bool.eqb_prop | discriminate H].
      * destruct (text element =? t)%string eqn:Ex; cbn [negb] in H;
          [|discriminate H].
        split; [intros t' E; inversion E; subst; right;
                now apply String.eqb_eq|].
        intros ev Ev. rewrite Ev in H.
        destruct (Bool.eqb (is_displayed element) ev) eqn:Eb;
          [now apply Bool.eqb_prop | discriminate H].
    + split; [discriminate|].
      intros ev Ev. rewrite Ev in H.
      destruct (Bool.eqb (is_displayed element) ev) eqn:Eb;
        [now apply Bool.eqb_prop | discriminate H].
  - intros (sel' & element' & Hs & Hf & Ht & Hv).
    inversion Hs; subst sel'. rewrite Ef in Hf.
    inversion Hf; subst element'.
    assert (Hvis : match match d_visible element_spec with
                         | Some v => v | None => Some true end with
                   | Some ev => negb (Bool.eqb (is_displayed element) ev)
                   | None => false
                   end = false).
    { destruct (match d_visible element_spec with
                | Some v => v | None => Some true end) as [ev|];
        [|reflexivity].
      rewrite (Hv ev eq_refl). now rewrite Bool.eqb_reflx. }
    assert (Htxt : match d_text element_spec with
                   | Some t => negb (t =? "")%string
                               && negb (text element =? t)%string
                   | None => false
                   end = false).
    { destruct (d_text element_spec) as [t|]; [|reflexivity].
      destruct (Ht t eq_refl) as [-> | <-]; [reflexivity|].
      rewrite String.eqb_refl. now rewrite andb_false_r. }
    destruct (match d_visible element_spec with
              | Some v => v | None => Some true end) as [ev|];
      [rewrite Hvis|];
      (destruct (d_text element_spec) as [t|]; [rewrite Htxt|]);
      reflexivity.
Qed.

Lemma detect_loop_spec (specs : list DetectSpec) (results : list Detected)
    (all_found : bool) :
  detect_loop find_element str_exn specs results all_found =
  ((results ++ map (detected_entry find_element str_exn) specs)%list,
   all_found
   && forallb (fun r => (r_status r =? "found")%string)
        (map (detected_entry find_element str_exn) specs)).
Proof.
  revert results all_found.
  induction specs as [|spec rest IH]; intros results all_found;
    cbn [detect_loop map forallb].
  - now rewrite app_nil_r, andb_true_r.
  - unfold detected_entry at 1 3.
    destruct (_check_element find_element str_exn spec) as [r|];
      rewrite IH, <- app_assoc; cbn [app]; f_equal.
    + destruct (r_status r =? "found")%string, all_found; reflexivity.
    + cbn. now rewrite andb_false_r.
Qed.

(** X26.  [ElementDetector.verify] gives a WARNING without details when no
    element is specified.  Otherwise it records one entry per specification,
    in order, and its status is PASS exactly when every specification has a
    selector, its element is found, an expected non-empty text is the
    element's text and an expected visibility (by default: visible) is the
    element's; else the status is FAIL. *)
Theorem element_detector_passes_iff (elements_to_check : list DetectSpec) :
  let verdict := ElementDetector_verify Time now find_element str_exn
                   elements_to_check in
  (elements_to_check = [] ->
   status verdict = Visual.WARNING /\ details verdict = None) /\
  (elements_to_check <> [] ->
   details verdict =
     Some (map (detected_entry find_element str_exn) elements_to_check) /\
   (status verdict = Visual.PASS <->
    forall element_spec, In element_spec elements_to_check ->
    exists sel element,
      d_selector element_spec = Some sel /\
      find_element (match d_by element_spec with
                    | Some b => b | None => "css selector" end) sel
        = Return element /\
      (forall t, d_text element_spec = Some t ->
                 t = "" \/ text element = t) /\
      (forall ev, match d_visible element_spec with
                  | Some v => v | None => Some true end = Some ev ->
                  is_displayed element = ev)) /\
   (status verdict = Visual.PASS \/ status verdict = Visual.FAIL)).
Proof.
  cbv zeta. split.
  - intros ->. split; reflexivity.
  - intros Hne. unfold ElementDetector_verify.
    destruct elements_to_check as [|spec rest] eqn:E; [contradiction|].
    rewrite <- E in *. rewrite detect_loop_spec. cbn [app andb].
    cbn [details status].
    split; [reflexivity|].
    assert (Hall :
              forallb (fun r => (r_status r =? "found")%string)
                (map (detected_entry find_element str_exn) elements_to_check)
              = true <->
              forall s, In s elements_to_check ->
              r_status (detected_entry find_element str_exn s) = "found").
    { rewrite forallb_forall. split.
      - intros H s Hs. apply String.eqb_eq.
        apply H. now apply in_map.
      - intros H r Hr. apply in_map_iff in Hr. destruct Hr as (s & <- & Hs).
        apply String.eqb_eq. now apply H. }
    destruct (forallb _ (map _ elements_to_check)).
    + split; [|now left]. split; [|reflexivity].
      intros _ s Hs. apply check_element_found_iff. now apply Hall.
    + split; [|now right]. split; [discriminate|].
      intros H. assert (Hf : false = true); [|discriminate Hf].
      apply Hall. intros s Hs. apply check_element_found_iff. now apply H.
Qed.

End ElementDetectorFacts.

Lemma check_element_status_witness :
  exists result,
    Verifiers._check_element
      (fun _ _ => Return (Verifiers.mkElement false true "Save" "button"))
      (fun _ => "error")
      (Verifiers.mkDetectSpec (Some "#save") None (Some "Send") None)
    = Some result /\
    Verifiers.r_status result = "text_mismatch".
Proof.
  destruct (check_element_status
              (fun _ _ => Return (Verifiers.mkElement false true "Save" "button"))
              (fun _ => "error")
              (Verifiers.mkDetectSpec (Some "#save") None (Some "Send") None)
              "#save" eq_refl)
    as (result & Eresult & _ & _ & Hfound).
  exists result. split; [exact Eresult|].
  destruct (Hfound _ eq_refl) as (_ & _ & Htext & _).
  apply Htext. exists "Send".
  split; [reflexivity|]. split; discriminate.
Defined.

Lemma element_detector_passes_iff_witness :
  Core.status
    (Verifiers.ElementDetector_verify unit tt
       (fun _ _ => Return (Verifiers.mkElement true true "Save" "button"))
       (fun _ => "error")
       [Verifiers.mkDetectSpec (Some "#save") None (Some "Save") None;
        Verifiers.mkDetectSpec None None None None]) = Visual.FAIL.
Proof.
  destruct (element_detector_passes_iff unit tt
              (fun _ _ => Return (Verifiers.mkElement true true "Save" "button"))
              (fun _ => "error")
              [Verifiers.mkDetectSpec (Some "#save") None (Some "Save") None;
               Verifiers.mkDetectSpec None None None None])
    as (_ & Hsome).
  assert (Hne : [Verifiers.mkDetectSpec (Some "#save") None (Some "Save") None;
                 Verifiers.mkDetectSpec None None None None] <> [])
    by discriminate.
  destruct (Hsome Hne) as (_ & [Hpass _] & [Hp | Hf]); [|exact Hf].
  destruct (Hpass Hp (Verifiers.mkDetectSpec None None None None))
    as (sel & element & Hsel & _); [right; left; reflexivity|].
  discriminate Hsel.
Defined.

(** ** Suites of verifiers *)

Section SuiteFacts.

Import Core Suite.

Variable Details : Type.
Variable Time : Type.
Variable class_name : nat -> string.
Variable verify : nat -> nat -> outcome (VerificationResult Details Time).
Variable clock : nat -> Q * Q * Time.
Variable str_exn : exn -> string.

(** The results that the runs of the object [u] contributed. *)
Let runs_of (u : nat) (vs : list nat)
    (out : list (VerificationResult Details Time))
    : list (VerificationResult Details Time) :=
  map snd (filter (fun p => (fst p =? u)%nat) (combine vs out)).

Lemma call_run_verification_spec (v : nat) (w : World Details Time) :
  exists r,
    call_run_verification Details Time class_name verify clock str_exn v w =
    (r, mkWorld Details Time
          (fun u => if (u =? v)%nat then (heap w v ++ [r])%list else heap w u)
          (S (calls w))) /\
    duration_ms r = Some (measured Time clock (calls w)).
Proof.
  unfold call_run_verification, measured, run_verification.
  destruct (clock (calls w)) as [[start_time end_time] now].
  destruct (verify v (calls w)) as [r | e]; eexists; split; reflexivity.
Qed.

Lemma run_loop_spec (vs : list nat) :
  forall (acc : list (VerificationResult Details Time))
         (w : World Details Time),
  exists out w',
    run_loop Details Time class_name verify clock str_exn vs acc w =
      ((acc ++ out)%list, w') /\
    length out = length vs /\
    calls w' = (calls w + length vs)%nat /\
    (forall u, heap w' u = (heap w u ++ runs_of u vs out)%list) /\
    map duration_ms out =
      map (fun t => Some (measured Time clock t)) (seq (calls w) (length vs)).
Proof.
  induction vs as [|v rest IH]; intros acc w.
  - exists [], w. cbn [run_loop length seq map]. rewrite app_nil_r.
    split; [reflexivity|]. split; [reflexivity|]. split; [lia|].
    split; [|reflexivity]. intros u. unfold runs_of. cbn.
    now rewrite app_nil_r.
  - cbn [run_loop].
    destruct (call_run_verification_spec v w) as (r & Er & Hd). rewrite Er.
    cbv beta iota.
    destruct (IH (acc ++ [r])%list
                 (mkWorld Details Time
                    (fun u => if (u =? v)%nat then (heap w v ++ [r])%list
                              else heap w u) (S (calls w))))
      as (out & w' & Erun & Hlen & Hcalls & Hheap & Hdur).
    exists (r :: out), w'. rewrite Erun, <- app_assoc. cbn [app length].
    split; [reflexivity|]. split; [now rewrite Hlen|].
    split; [cbn [calls] in Hcalls; lia|]. split.
    + intros u. rewrite Hheap. cbn [heap]. unfold runs_of.
      cbn [combine filter fst]. rewrite (Nat.eqb_sym v u).
      destruct (Nat.eqb_spec u v) as [-> | Hne]; cbn [map snd].
      * now rewrite <- app_assoc.
      * reflexivity.
    + cbn [seq map calls] in *. now rewrite Hd, Hdur.
Qed.

Lemma runs_of_length (u : nat) (vs : list nat) :
  forall out : list (VerificationResult Details Time),
  length out = length vs ->
  length (runs_of u vs out) = count_occ Nat.eq_dec vs u.
Proof.
  unfold runs_of.
  induction vs as [|v rest IH]; intros [|r out] Hlen; try discriminate Hlen;
    [reflexivity|].
  cbn [combine filter fst count_occ].
  injection Hlen as Hlen. specialize (IH out Hlen).
  destruct (Nat.eq_dec v u) as [-> | Hne].
  - rewrite Nat.eqb_refl. cbn [map length]. now rewrite IH.
  - destruct (Nat.eqb_spec v u) as [E | _]; [contradiction | exact IH].
Qed.

(** X27.  [run_all] discards the results the suite held and returns one
    result for each registered verifier, in order, which the suite then
    holds.  Each verifier object keeps the results it had before and gains
    exactly the results of its own runs: one for each time it is registered
    in the suite. *)
Theorem run_all_one_result_per_verifier
    (suite : VerificationSuite Details Time) (w : World Details Time) :
  let ran := run_all Details Time class_name verify clock str_exn suite w in
  let out := fst (fst ran) in
  let suite' := snd (fst ran) in
  let w' := snd ran in
  results suite' = out /\
  verifiers suite' = verifiers suite /\
  length out = length (verifiers suite) /\
  (forall u,
     heap w' u =
     (heap w u
      ++ map snd (filter (fun p => (fst p =? u)%nat)
                    (combine (verifiers suite) out)))%list) /\
  (forall u,
     length (heap w' u) =
     (length (heap w u) + count_occ Nat.eq_dec (verifiers suite) u)%nat).
Proof.
  cbv zeta. unfold run_all.
  destruct (run_loop_spec (verifiers suite) [] w)
    as (out & w' & Erun & Hlen & _ & Hheap & _).
  rewrite Erun. cbn [app fst snd results verifiers].
  split; [reflexivity|]. split; [reflexivity|]. split; [exact Hlen|].
  split; [exact Hheap|].
  intros u. rewrite Hheap, length_app. f_equal.
  now apply runs_of_length.
Qed.

Lemma fold_pair {A B C : Type} (f : A -> C -> A) (g : B -> C -> B)
    (l : list C) (a : A) (b : B) :
  fold_left (fun acc c => (f (fst acc) c, g (snd acc) c)) l (a, b) =
  (fold_left f l a, fold_left g l b).
Proof.
  revert a b. induction l as [|c l IH]; intros a b; [reflexivity|].
  cbn [fold_left fst snd]. apply IH.
Qed.

Lemma fold_add_duration (l : list (VerificationResult Details Time))
    (total : Q) :
  (fold_left (add_duration Details Time) l total ==
   total + fold_right Qplus 0
             (map (fun r => match duration_ms r with
                            | Some d => d
                            | None => 0
                            end) l))%Q.
Proof.
  revert total. induction l as [|r l IH]; intros total;
    cbn [fold_left map fold_right].
  - Lqa.lra.
  - rewrite IH. unfold add_duration.
    destruct (duration_ms r) as [d|]; [|Lqa.lra].
    destruct (Qeq_bool d 0) eqn:E; [|Lqa.lra].
    apply Qeq_bool_eq in E. Lqa.lra.
Qed.

Lemma durations_measured (l : list (VerificationResult Details Time)) :
  forall ts : list nat,
  map duration_ms l = map (fun t => Some (measured Time clock t)) ts ->
  fold_right Qplus 0%Q
    (map (fun r => match duration_ms r with Some d => d | None => 0%Q end) l)
  = fold_right Qplus 0%Q (map (measured Time clock) ts).
Proof.
  induction l as [|r l IH]; intros [|t ts] H; try discriminate H;
    [reflexivity|].
  cbn [map] in H. injection H as Hr Hl.
  cbn [map fold_right]. now rewrite Hr, (IH ts Hl).
Qed.

(** X28.  After [run_all], [get_suite_summary] counts one check for each
    registered verifier; the status counts are those of the results just
    returned and add up to that total; the total duration is the sum of the
    durations measured by the calls of this run.  The list of verifiers has
    one entry for each registration, and the counts in an entry add up to
    all the results the verifier object holds: those from before this run
    and one for each of its registrations. *)
Theorem suite_summary_after_run_all
    (suite : VerificationSuite Details Time) (w : World Details Time) :
  let ran := run_all Details Time class_name verify clock str_exn suite w in
  let out := fst (fst ran) in
  let summary :=
    get_suite_summary Details Time class_name (snd (fst ran)) (snd ran) in
  total_checks summary = Z.of_nat (length (verifiers suite)) /\
  (forall s,
     lookup (status_value s) (status_counts summary)
     = Some (count_status s out)) /\
  fold_right Z.add 0 (map snd (status_counts summary))
    = total_checks summary /\
  (total_duration_ms summary ==
   fold_right Qplus 0
     (map (measured Time clock)
        (seq (calls w) (length (verifiers suite)))))%Q /\
  map fst (verifier_summaries summary)
    = map class_name (verifiers suite) /\
  (forall k u,
     nth_error (verifiers suite) k = Some u ->
     exists counts,
       nth_error (verifier_summaries summary) k
         = Some (class_name u, counts) /\
       fold_right Z.add 0 (map snd counts) =
       Z.of_nat (length (heap w u)
                 + count_occ Nat.eq_dec (verifiers suite) u)).
Proof.
  cbv zeta. unfold run_all.
  destruct (run_loop_spec (verifiers suite) [] w)
    as (out & w' & Erun & Hlen & _ & Hheap & Hdur).
  rewrite Erun. cbn [app fst snd]. unfold get_suite_summary.
  cbn [results verifiers name].
  rewrite (fold_pair
             (fun counts (result : VerificationResult Details Time) =>
                increment (status_value (status result)) counts)
             (add_duration Details Time)).
  cbn [total_checks status_counts total_duration_ms verifier_summaries].
  change [("pass", 0); ("fail", 0); ("warning", 0); ("skip", 0)]
    with (summary4 0 0 0 0).
  rewrite fold_summary4.
  split; [now rewrite Hlen|].
  split; [intros s; destruct s; reflexivity|].
  split; [cbn; pose proof (counts_add_up Details Time out); lia|].
  split.
  { rewrite fold_add_duration, (durations_measured out _ Hdur). Lqa.lra. }
  split; [rewrite map_map; reflexivity|].
  intros k u Hk.
  exists (get_summary (heap w' u)). split.
  - rewrite nth_error_map, Hk. reflexivity.
  - unfold get_summary.
    change [("pass", 0); ("fail", 0); ("warning", 0); ("skip", 0)]
      with (summary4 0 0 0 0).
    rewrite fold_summary4. cbn.
    pose proof (counts_add_up Details Time (heap w' u)) as Hsum.
    rewrite Hheap, length_app in Hsum.
    fold (runs_of u (verifiers suite) out) in Hsum.
    rewrite (runs_of_length u _ _ Hlen) in Hsum.
    rewrite Hheap. fold (runs_of u (verifiers suite) out). lia.
Qed.

End SuiteFacts.
